(** * Seat reservation engine of concurrent-booking

    A shallow embedding of [concurrency_control.go] and [main.go]:
    the three lockers ([PessimisticLocking], [OptimisticLocking],
    [BookMyShowTimeoutImp]), the coordinator [BookSeats], the payment
    webhook, the status query and one tick of the timeout sweeper.

    The Go code keeps two process-wide handles, [db] (MySQL) and [rdb]
    (Redis).  Here they are the fields of a [World] that every operation
    takes and returns.  The table [seats] is a finite map from the primary
    key [id] to the remaining columns; the Redis keyspace is a finite map
    from key to value and expiry instant.  Time is an integer number of
    seconds; [time.Now()] and SQL's [NOW()] are the parameter [now]. *)

From stdpp Require Import gmap strings pretty list fin_maps.
From Stdlib Require Import ZArith.
From Stdlib Require String.

Local Open Scope Z_scope.

(** ** The seat table *)

(** One row of [seats] without its primary key and without [created_at],
    which no statement reads or writes.  [version] is read and
    written by the Go statements although [setup.sql] does not declare it;
    it is taken as an integer column.  [is_reserved] and [payment_status]
    are never set to NULL by any statement and are modelled without NULL;
    the nullable columns that the code does clear are options. *)
Record Seat := mkSeat {
  show_id : Z;
  seat_number : string;
  is_reserved : bool;
  reserved_until : option Z;
  user_id : option Z;
  payment_status : string;
  payment_timeout : option Z;
  payment_session_id : option string;
  payment_redirect_url : option string;
  version : Z
}.

#[global] Instance Seat_eq_dec : EqDecision Seat.
Proof. solve_decision. Defined.

Abbreviation DB := (gmap Z Seat).

(** A Redis entry: the value and the instant at which it expires. *)
Abbreviation Redis := (gmap string (string * Z)).

(** ** The column [payment_status]

    [setup.sql] declares it [ENUM('PENDING','COMPLETED','FAILED')]: the
    column holds one of the three members or the error value [''], never
    an arbitrary string. *)
Inductive PaymentStatus := PENDING | COMPLETED | FAILED.

Definition status_name (m : PaymentStatus) : string :=
  match m with
  | PENDING => "PENDING"
  | COMPLETED => "COMPLETED"
  | FAILED => "FAILED"
  end.

(** The member a string spells, letter for letter. *)
Definition member (st : string) : option PaymentStatus :=
  if bool_decide (st = "PENDING") then Some PENDING
  else if bool_decide (st = "COMPLETED") then Some COMPLETED
  else if bool_decide (st = "FAILED") then Some FAILED
  else None.

(** What the column keeps of a string assigned to it.  A member spelled
    letter for letter is kept as it is.  Any other string is converted by
    the server: to the member it stands for (its index, as "2" for
    COMPLETED, or its spelling up to the collation of the column, as
    "completed" under a case-insensitive one), or else to the error value
    [''].  Which strings stand for which member depends on the collation
    of the server, which the repository does not fix; it is the parameter
    [conv], [None] for the error value.  A server in strict SQL mode
    refuses the statement instead of keeping ['']: that is a failure of
    [ExecContext], decided by the oracle of failures below. *)
Definition enum_store (conv : string → option PaymentStatus) (st : string) : string :=
  match member st with
  | Some m => status_name m
  | None => from_option status_name "" (conv st)
  end.

(** The only log line the development keeps: the holder that
    [BookMyShowTimeoutImp] prints when it cannot take the lock. *)
Inductive LogLine :=
| LockHolderLog (userID : Z) (holder : string).

(** [status_conv] is the conversion of the MySQL server behind [db] (see
    [enum_store]); no operation changes it. *)
Record World := mkWorld {
  db : DB;
  rdb : Redis;
  log : list LogLine;
  status_conv : string → option PaymentStatus
}.

Definition set_db (d : DB) (w : World) : World :=
  {| db := d; rdb := rdb w; log := log w; status_conv := status_conv w |}.

Definition set_rdb (r : Redis) (w : World) : World :=
  {| db := db w; rdb := r; log := log w; status_conv := status_conv w |}.

Definition add_log (l : LogLine) (w : World) : World :=
  {| db := db w; rdb := rdb w; log := log w ++ [l]; status_conv := status_conv w |}.

(** ** Failures of the two services

    Every call on the store or on Redis that the Go code checks with
    [if err != nil] may fail.  Which calls fail in a run is an oracle. *)
Inductive Call :=
| BeginTx
| QueryContext
| Scan (id : Z)
| RowsErr
| ExecContext (id : option Z)
| RowsAffected (id : Z)
| Commit
| SetNX (key : string)
| Get (key : string)
| Del (key : string).

Definition Faults := Call → bool.

Definition no_faults : Faults := λ _, false.

(** The error values the lockers and the coordinator return, one
    constructor per [fmt.Errorf] message. *)
Inductive BookingError :=
| NoSeatIDs                      (* "no seat IDs provided" *)
| BeginFailed                    (* "failed to begin transaction: ..." *)
| QueryFailed                    (* "failed to query seats for locking", "failed to get seat versions",
                                    "failed to check seat availability in DB" *)
| ScanFailed                     (* "failed to scan seat version" *)
| RowsIterFailed                 (* "error iterating ... rows" *)
| SeatsNotAvailable              (* "all seats are not available for booking", "seats are not available
                                    or have pending/successful payment", "not all seats are available in DB
                                    despite acquiring lock" *)
| UpdateFailed (seat : option Z) (* "failed to mark seats as reserved", "failed to update seat %d" *)
| RowsAffectedFailed (seat : Z)  (* "failed to get rows affected for seat %d" *)
| LockConflict (seat : Z)        (* "optimistic lock conflict on seat %d" *)
| CommitFailed                   (* "failed to commit transaction" *)
| RedisFailed (key : string)     (* "failed to check/set Redis lock for key %s" *)
| LockNotAcquired (key : string) (* "failed to acquire Redis lock for seats (key: %s), ..." *)
| InvalidMethod (method : string). (* "invalid concurrency control method: %s" *)

(** The classes of the design's error taxonomy. *)
Inductive ErrorKind :=
| InvalidInput
| SeatsUnavailable
| OptimisticConflict
| LockContention
| TransactionError.

Definition kind (e : BookingError) : ErrorKind :=
  match e with
  | NoSeatIDs | InvalidMethod _ => InvalidInput
  | SeatsNotAvailable => SeatsUnavailable
  | LockConflict _ => OptimisticConflict
  | LockNotAcquired _ => LockContention
  | BeginFailed | QueryFailed | ScanFailed | RowsIterFailed | UpdateFailed _
  | RowsAffectedFailed _ | CommitFailed | RedisFailed _ => TransactionError
  end.

(** ** SQL fragments *)

Definition minute : Z := 60.

(** [is_reserved = 0 OR (is_reserved = 1 AND payment_status = 'FAILED')] *)
Definition bookable (s : Seat) : bool :=
  negb (is_reserved s) || (is_reserved s && bool_decide (payment_status s = "FAILED")).

(** [SELECT ... FROM seats WHERE id IN (seatIDs) AND <bookable>]: the
    matching rows.  A row is returned once however often its id is listed. *)
Definition select_bookable (seatIDs : list Z) (d : DB) : list (Z * Seat) :=
  map_to_list (filter (λ kv : Z * Seat, kv.1 ∈ seatIDs ∧ bookable kv.2) d).

(** [UPDATE seats SET <f> WHERE <P>]: the number of rows changed and the
    table afterwards. *)
Definition ExecUpdate (P : Z → Seat → bool) (f : Seat → Seat) (d : DB) : nat * DB :=
  (size (filter (λ kv : Z * Seat, P kv.1 kv.2) d),
   map_imap (λ k s, Some (if P k s then f s else s)) d).

Definition redirect_url (sessionID : string) : string :=
  "https://payment-gateway.example.com/pay/" +:+ sessionID.

(** The SET clause shared by [PessimisticLocking] and
    [BookMyShowTimeoutImp]; [version] is not assigned. *)
Definition mark_pending (now userID : Z) (sessionID : string) (s : Seat) : Seat :=
  {| show_id := show_id s;
     seat_number := seat_number s;
     is_reserved := true;
     reserved_until := reserved_until s;
     user_id := Some userID;
     payment_status := "PENDING";
     payment_timeout := Some (now + minute);
     payment_session_id := Some sessionID;
     payment_redirect_url := Some (redirect_url sessionID);
     version := version s |}.

(** The SET clause of [OptimisticLocking]: the same and [version = version + 1]. *)
Definition mark_pending_versioned (now userID : Z) (sessionID : string) (s : Seat) : Seat :=
  {| show_id := show_id s;
     seat_number := seat_number s;
     is_reserved := true;
     reserved_until := reserved_until s;
     user_id := Some userID;
     payment_status := "PENDING";
     payment_timeout := Some (now + minute);
     payment_session_id := Some sessionID;
     payment_redirect_url := Some (redirect_url sessionID);
     version := version s + 1 |}.

(** The SET clause of the webhook: [payment_status = ?, version = version + 1],
    the argument being [payload.Status]; the ENUM column keeps
    [enum_store conv status] of it. *)
Definition set_status (conv : string → option PaymentStatus) (status : string) (s : Seat) : Seat :=
  {| show_id := show_id s;
     seat_number := seat_number s;
     is_reserved := is_reserved s;
     reserved_until := reserved_until s;
     user_id := user_id s;
     payment_status := enum_store conv status;
     payment_timeout := payment_timeout s;
     payment_session_id := payment_session_id s;
     payment_redirect_url := payment_redirect_url s;
     version := version s + 1 |}.

(** The SET clause of the sweeper; [version] is not assigned. *)
Definition clear_reservation (s : Seat) : Seat :=
  {| show_id := show_id s;
     seat_number := seat_number s;
     is_reserved := false;
     reserved_until := None;
     user_id := None;
     payment_status := "FAILED";
     payment_timeout := None;
     payment_session_id := None;
     payment_redirect_url := None;
     version := version s |}.

(** ** Redis commands; an entry past its expiry is gone. *)

Definition redis_Get (now : Z) (r : Redis) (key : string) : option string :=
  match r !! key with
  | Some (v, expires) => if bool_decide (now < expires) then Some v else None
  | None => None
  end.

Definition redis_SetNX (now : Z) (key value : string) (ttl : Z) (r : Redis) : bool * Redis :=
  match redis_Get now r key with
  | Some _ => (false, r)
  | None => (true, <[key := (value, now + ttl)]> r)
  end.

(** [rdb.Del] is called without looking at its result. *)
Definition redis_Del (ft : Faults) (key : string) (r : Redis) : Redis :=
  if ft (Del key) then r else delete key r.

(** The key and value that [BookMyShowTimeoutImp] and the webhook build. *)
Definition seat_lock_key (seatID : Z) : string := "seat_lock:" +:+ pretty seatID.
Definition user_lock_value (userID : Z) : string := "user:" +:+ pretty userID.

(** The key that the sweeper builds. *)
Definition sweeper_key (seatID : Z) : string := "lock:seat:" +:+ pretty seatID.

(** ** The three lockers

    A transaction's statements are applied to a working table; returning
    an error before [tx.Commit] leaves the deferred [tx.Rollback] to drop
    it, so the world keeps the committed table. *)

(** [PessimisticLocking] *)
Definition PessimisticLocking (ft : Faults) (now userID : Z) (seatIDs : list Z)
    (bookingId : string) (w : World) : option BookingError * World :=
  if bool_decide (length seatIDs = 0%nat) then (Some NoSeatIDs, w) else
  if ft BeginTx then (Some BeginFailed, w) else
  (* 1. Lock Seats *)
  if ft QueryContext then (Some QueryFailed, w) else
  let lockedSeatsCount := length (select_bookable seatIDs (db w)) in
  if ft RowsErr then (Some RowsIterFailed, w) else
  if bool_decide (lockedSeatsCount ≠ length seatIDs) then (Some SeatsNotAvailable, w) else
  let sessionID := bookingId in
  (* 2. Update Seats *)
  if ft (ExecContext None) then (Some (UpdateFailed None), w) else
  let '(_, d) := ExecUpdate (λ k _, bool_decide (k ∈ seatIDs))
                            (mark_pending now userID sessionID) (db w) in
  if ft Commit then (Some CommitFailed, w) else
  (None, set_db d w).

(** The loop of conditional writes of [OptimisticLocking]:
    [UPDATE ... WHERE id = ? AND version = ? AND <bookable>] per seat, in
    request order.  A missing key of the Go map reads as 0. *)
Fixpoint optimistic_updates (ft : Faults) (now userID : Z) (sessionID : string)
    (seatVersions : gmap Z Z) (seatIDs : list Z) (d : DB) : BookingError + DB :=
  match seatIDs with
  | [] => inr d
  | seatID :: rest =>
      let version0 := default 0 (seatVersions !! seatID) in
      if ft (ExecContext (Some seatID)) then inl (UpdateFailed (Some seatID)) else
      let '(rowsAffected, d') :=
        ExecUpdate (λ k s, bool_decide (k = seatID) && (bool_decide (version s = version0) && bookable s))
                   (mark_pending_versioned now userID sessionID) d in
      if ft (RowsAffected seatID) then inl (RowsAffectedFailed seatID) else
      if bool_decide (rowsAffected = 0%nat) then inl (LockConflict seatID) else
      optimistic_updates ft now userID sessionID seatVersions rest d'
  end.

(** [OptimisticLocking].  The transaction is READ COMMITTED and its SELECT
    takes no lock, so other writers may commit between the SELECT and the
    conditional writes: [env] is what they do to the table.  (A writer that
    commits between two of the conditional writes touches only rows this
    transaction has not written yet, which it reads only at their own
    UPDATE; placing all of [env] before the first UPDATE loses nothing.) *)
Definition OptimisticLocking (ft : Faults) (env : DB → DB) (now userID : Z) (seatIDs : list Z)
    (bookingId : string) (w : World) : option BookingError * World :=
  if bool_decide (length seatIDs = 0%nat) then (Some NoSeatIDs, w) else
  if ft BeginTx then (Some BeginFailed, w) else
  if ft QueryContext then (Some QueryFailed, w) else
  let rows := select_bookable seatIDs (db w) in
  if existsb (λ kv : Z * Seat, ft (Scan kv.1)) rows then (Some ScanFailed, w) else
  let seatVersions : gmap Z Z := list_to_map ((λ kv : Z * Seat, (kv.1, version kv.2)) <$> rows) in
  let countFound := length rows in
  if ft RowsErr then (Some RowsIterFailed, w) else
  if bool_decide (countFound ≠ length seatIDs) then (Some SeatsNotAvailable, w) else
  let sessionID := bookingId in
  let committed := env (db w) in
  match optimistic_updates ft now userID sessionID seatVersions seatIDs committed with
  | inl e => (Some e, set_db committed w)
  | inr d =>
      if ft Commit then (Some CommitFailed, set_db committed w) else
      (None, set_db d w)
  end.

(** [BookMyShowTimeoutImp] *)
Definition BookMyShowTimeoutImp (ft : Faults) (now userID : Z) (seatIDs : list Z)
    (bookingId : string) (w : World) : option BookingError * World :=
  match seatIDs with
  | [] => (Some NoSeatIDs, w)
  | first :: _ =>
      let lockKey := seat_lock_key first in
      let lockValue := user_lock_value userID in
      let lockTimeout := 1 * minute in
      if ft (SetNX lockKey) then (Some (RedisFailed lockKey), w) else
      let '(locked, r) := redis_SetNX now lockKey lockValue lockTimeout (rdb w) in
      if negb locked then
        let holder := default "" (if ft (Get lockKey) then None else redis_Get now (rdb w) lockKey) in
        (Some (LockNotAcquired lockKey), add_log (LockHolderLog userID holder) w)
      else
      let w1 := set_rdb r w in
      if ft BeginTx then (Some BeginFailed, w1) else
      if ft QueryContext then (Some QueryFailed, w1) else
      let availableCount := length (select_bookable seatIDs (db w)) in
      if bool_decide (availableCount ≠ length seatIDs) then (Some SeatsNotAvailable, w1) else
      let sessionID := bookingId in
      if ft (ExecContext None) then (Some (UpdateFailed None), w1) else
      let '(_, d) := ExecUpdate (λ k _, bool_decide (k ∈ seatIDs))
                                (mark_pending now userID sessionID) (db w) in
      if ft Commit then (Some CommitFailed, w1) else
      (None, set_db d w1)
  end.

(** ** The coordinator *)

Record BookingRequest := mkBookingRequest {
  UserID : Z;
  ShowID : Z;
  SeatIDs : list Z;
  Method : string
}.

(** [BookSeats] *)
Definition BookSeats (ft : Faults) (env : DB → DB) (now : Z) (req : BookingRequest)
    (bookingId : string) (w : World) : option BookingError * World :=
  if bool_decide (Method req = "pessimistic") then
    PessimisticLocking ft now (UserID req) (SeatIDs req) bookingId w
  else if bool_decide (Method req = "optimistic") then
    OptimisticLocking ft env now (UserID req) (SeatIDs req) bookingId w
  else if bool_decide (Method req = "current") then
    BookMyShowTimeoutImp ft now (UserID req) (SeatIDs req) bookingId w
  else (Some (InvalidMethod (Method req)), w).

(** ** HTTP handlers *)

Inductive Response :=
| HttpError (code : Z) (msg : string)              (* http.Error(w, msg, code) *)
| WebhookSuccess                                   (* 200, {"status": "success"} *)
| BookingStatus (booking_id status : string).      (* 200, AsyncBookingResponse *)

Definition StatusBadRequest : Z := 400.
Definition StatusNotFound : Z := 404.
Definition StatusConflict : Z := 409.
Definition StatusInternalServerError : Z := 500.

(** [SELECT id, user_id, version FROM seats
     WHERE payment_session_id = ? AND payment_status = 'PENDING'] *)
Definition select_pending (sessionID : string) (d : DB) : list (Z * Seat) :=
  map_to_list (filter (λ kv : Z * Seat,
      payment_session_id kv.2 = Some sessionID ∧ payment_status kv.2 = "PENDING") d).

(** [rows.Scan(&seatID, &user_id, &version)] into three Go ints: a NULL
    [user_id] is a scan error. *)
Definition scan_pending (ft : Faults) (kv : Z * Seat) : option (Z * Z * Z) :=
  if ft (Scan kv.1) then None else
  match user_id kv.2 with
  | Some u => Some (kv.1, u, version kv.2)
  | None => None
  end.

(** The loop of conditional writes of the webhook:
    [UPDATE seats SET payment_status = ?, version = version + 1
     WHERE id = ? AND version = ?], with [payload.Status] for the first
    argument and [conv] the conversion of the server (see [enum_store]). *)
Fixpoint webhook_updates (ft : Faults) (conv : string → option PaymentStatus) (status : string)
    (seatVersions : list (Z * Z)) (d : DB) : Response + DB :=
  match seatVersions with
  | [] => inr d
  | (seatID, version0) :: rest =>
      if ft (ExecContext (Some seatID)) then
        inl (HttpError StatusInternalServerError "Internal server error") else
      let '(rowsAffected, d') :=
        ExecUpdate (λ k s, bool_decide (k = seatID) && bool_decide (version s = version0))
                   (set_status conv status) d in
      if ft (RowsAffected seatID) then
        inl (HttpError StatusInternalServerError "Internal server error") else
      if bool_decide (rowsAffected = 0%nat) then
        inl (HttpError StatusConflict "Concurrent modification detected") else
      webhook_updates ft conv status rest d'
  end.

(** The "Cleanup Redis Lock" loop of the webhook. *)
Definition webhook_cleanup (ft : Faults) (now : Z) (r : Redis) (su : Z * Z) : Redis :=
  let '(seatID, userId) := su in
  let lockKey := seat_lock_key seatID in
  let lockValue := user_lock_value userId in
  match (if ft (Get lockKey) then None else redis_Get now r lockKey) with
  | Some val => if bool_decide (val = lockValue) then redis_Del ft lockKey r else r
  | None => r
  end.

(** [handlePaymentWebhook], from the decoded payload on.  The transaction is
    READ COMMITTED; [env] is what other writers commit between its SELECT
    and its conditional writes, as in [OptimisticLocking].  The two Go maps
    are walked in the order of [map_to_list]. *)
Definition handlePaymentWebhook (ft : Faults) (env : DB → DB) (now : Z)
    (SessionID Status : string) (w : World) : Response * World :=
  if ft BeginTx then (HttpError StatusInternalServerError "Internal server error", w) else
  if ft QueryContext then (HttpError StatusInternalServerError "Internal server error", w) else
  match mapM (scan_pending ft) (select_pending SessionID (db w)) with
  | None => (HttpError StatusInternalServerError "Internal server error", w)
  | Some scanned =>
      let seatVersions : gmap Z Z := list_to_map ((λ t : Z * Z * Z, (t.1.1, t.2)) <$> scanned) in
      let seatUser : gmap Z Z := list_to_map ((λ t : Z * Z * Z, (t.1.1, t.1.2)) <$> scanned) in
      if bool_decide (size seatVersions = 0%nat) then
        (HttpError StatusNotFound "No pending seats found", w) else
      let committed := env (db w) in
      match webhook_updates ft (status_conv w) Status (map_to_list seatVersions) committed with
      | inl resp => (resp, set_db committed w)
      | inr d =>
          if ft Commit then
            (HttpError StatusInternalServerError "Internal server error", set_db committed w) else
          let r := foldl (webhook_cleanup ft now) (rdb w) (map_to_list seatUser) in
          (WebhookSuccess, set_db d (set_rdb r w))
      end
  end.

(** SQL [MIN] over strings; [None] is SQL's NULL for no rows.  MySQL's
    [MIN] compares the values of an ENUM column as strings, not by their
    position in the declaration (reference manual, aggregate functions). *)
Definition sql_min (l : list string) : option string :=
  foldr (λ s acc, Some (match acc with
                        | None => s
                        | Some m => if String.leb s m then s else m
                        end)) None l.

(** [handleBookingStatus], from the query parameter on:
    [SELECT COALESCE(MIN(payment_status), 'NOT_FOUND') FROM seats
     WHERE payment_session_id = ?]. *)
Definition handleBookingStatus (ft : Faults) (bookingID : string) (w : World) : Response :=
  if bool_decide (bookingID = "") then HttpError StatusBadRequest "Booking ID is required" else
  if ft QueryContext then
    HttpError StatusInternalServerError "Error fetching booking status" else
  let rows := map_to_list (filter (λ kv : Z * Seat, payment_session_id kv.2 = Some bookingID) (db w)) in
  let status := default "NOT_FOUND" (sql_min ((λ kv : Z * Seat, payment_status kv.2) <$> rows)) in
  if bool_decide (status = "NOT_FOUND") then HttpError StatusNotFound "Booking not found" else
  BookingStatus bookingID status.

(** ** The timeout sweeper *)

(** [payment_timeout < NOW()]; a NULL deadline compares as unknown. *)
Definition timed_out (now : Z) (s : Seat) : bool :=
  match payment_timeout s with
  | Some t => bool_decide (t < now)
  | None => false
  end.

(** [SELECT id, show_id, user_id FROM seats
     WHERE payment_status = 'PENDING' AND payment_timeout < NOW()] *)
Definition select_expired (now : Z) (d : DB) : list (Z * Seat) :=
  map_to_list (filter (λ kv : Z * Seat, payment_status kv.2 = "PENDING" ∧ timed_out now kv.2) d).

Module ExpiredSeat.
Record t := mk {
  id : Z;
  showID : Z;
  userID : Z
}.
End ExpiredSeat.

(** [rows.Scan(&seat.id, &seat.showID, &seat.userID)]; on an error the loop
    continues with the next row. *)
Definition scan_expired (ft : Faults) (kv : Z * Seat) : option ExpiredSeat.t :=
  if ft (Scan kv.1) then None else
  match user_id kv.2 with
  | Some u => Some {| ExpiredSeat.id := kv.1; ExpiredSeat.showID := show_id kv.2;
                      ExpiredSeat.userID := u |}
  | None => None
  end.

(** The loop over [expiredSeats]: the unconditional UPDATE and the [Del] of
    the key built from the seat id; a failed UPDATE skips the [Del]. *)
Fixpoint sweep_updates (ft : Faults) (expiredSeats : list ExpiredSeat.t) (d : DB) (r : Redis)
    : DB * Redis :=
  match expiredSeats with
  | [] => (d, r)
  | seat :: rest =>
      if ft (ExecContext (Some (ExpiredSeat.id seat))) then sweep_updates ft rest d r else
      let '(_, d') := ExecUpdate (λ k _, bool_decide (k = ExpiredSeat.id seat)) clear_reservation d in
      let key := sweeper_key (ExpiredSeat.id seat) in
      sweep_updates ft rest d' (redis_Del ft key r)
  end.

(** One iteration of the ticker loop of [checkPaymentTimeouts]. *)
Definition checkPaymentTimeouts_tick (ft : Faults) (now : Z) (w : World) : World :=
  if ft BeginTx then w else
  if ft QueryContext then w else
  let expiredSeats := omap (scan_expired ft) (select_expired now (db w)) in
  let '(d, r) := sweep_updates ft expiredSeats (db w) (rdb w) in
  if ft Commit then set_rdb r w else set_db d (set_rdb r w).

(** [checkPaymentTimeouts] over the ticks that have fired so far: each
    iteration of the loop has its own instant and its own failures. *)
Definition checkPaymentTimeouts (ticks : list (Faults * Z)) (w : World) : World :=
  foldl (λ w tick, checkPaymentTimeouts_tick tick.1 tick.2 w) w ticks.

(** ** The query texts and their arguments *)

(** [strings.Repeat] for a count that is not negative. *)
Fixpoint strings_Repeat (s : string) (count : nat) : string :=
  match count with
  | O => ""
  | S n => s +:+ strings_Repeat s n
  end.

(** [generatePlaceholders] *)
Definition generatePlaceholders (count : Z) : string :=
  if bool_decide (count ≤ 0) then "" else
  strings_Repeat "?," (Z.to_nat (count - 1)) +:+ "?".

(** A value passed to the driver as [interface{}]. *)
Inductive SQLArg :=
| ArgInt (n : Z)
| ArgString (s : string)
| ArgTime (t : Z).

(** [sliceToInterface] *)
Definition sliceToInterface (ids : list Z) : list SQLArg :=
  (λ id, ArgInt id) <$> ids.

(** [lockQuery] and [lockArgs] of [PessimisticLocking]. *)
Definition lockQuery (seatIDs : list Z) : string :=
  "SELECT id FROM seats WHERE id IN (" +:+ generatePlaceholders (Z.of_nat (length seatIDs)) +:+
  ") AND (is_reserved = 0 OR (is_reserved = 1 AND payment_status = 'FAILED')) FOR UPDATE".

Definition lockArgs (seatIDs : list Z) : list SQLArg := sliceToInterface seatIDs.

(** [updateQuery] and [updateArgs] of [PessimisticLocking]; the same
    text and arguments are built by [BookMyShowTimeoutImp]. *)
Definition updateQuery (seatIDs : list Z) : string :=
  "
		UPDATE seats 
		SET is_reserved = 1, 
		    payment_status = 'PENDING',
			user_id = ?, 
			payment_session_id = ?,
            payment_redirect_url = ?,
            payment_timeout = ?
		WHERE id IN (" +:+ generatePlaceholders (Z.of_nat (length seatIDs)) +:+ ")".

Definition updateArgs (now userID : Z) (sessionID : string) (seatIDs : list Z) : list SQLArg :=
  [ArgInt userID; ArgString sessionID; ArgString (redirect_url sessionID); ArgTime (now + minute)]
  ++ sliceToInterface seatIDs.

(** [selectQuery] and [selectArgs] of [OptimisticLocking]. *)
Definition selectQuery (seatIDs : list Z) : string :=
  "
		SELECT id, version 
		FROM seats 
		WHERE id IN (" +:+ generatePlaceholders (Z.of_nat (length seatIDs)) +:+ ") 
		AND (is_reserved = 0 OR (is_reserved = 1 AND payment_status = 'FAILED'))".

Definition selectArgs (seatIDs : list Z) : list SQLArg := sliceToInterface seatIDs.

(** The per-seat [updateQuery] of [OptimisticLocking] and its
    [seatUpdateArgs]. *)
Definition optimisticUpdateQuery : string :=
  "	
		UPDATE seats 
		SET is_reserved = 1, 
			user_id = ?, 
			payment_status = 'PENDING',
			payment_session_id = ?,
            payment_redirect_url = ?,
            payment_timeout = ?,
			version = version + 1
		WHERE id = ? 
		AND version = ? 
        AND (is_reserved = 0 OR (is_reserved = 1 AND payment_status = 'FAILED')) 
	".

Definition seatUpdateArgs (now userID : Z) (sessionID : string) (seatID version0 : Z)
    : list SQLArg :=
  [ArgInt userID; ArgString sessionID; ArgString (redirect_url sessionID); ArgTime (now + minute)]
  ++ [ArgInt seatID; ArgInt version0].

(** [checkQuery] and [checkArgs] of [BookMyShowTimeoutImp]. *)
Definition checkQuery (seatIDs : list Z) : string :=
  "SELECT COUNT(*) FROM seats WHERE id IN (" +:+ generatePlaceholders (Z.of_nat (length seatIDs)) +:+
  ") AND (is_reserved = 0 OR (is_reserved = 1 AND payment_status = 'FAILED')) FOR UPDATE".

Definition checkArgs (seatIDs : list Z) : list SQLArg := sliceToInterface seatIDs.

(** The number of [?] in a statement: the number of arguments the driver
    expects with it. *)
Fixpoint placeholders (q : string) : nat :=
  match q with
  | EmptyString => 0
  | String c q' => (if bool_decide (String c "" = "?") then 1 else 0) + placeholders q'
  end.

(** ** The booking endpoint *)

(** A request as a handler sees it: the HTTP method and the body after
    [json.Decode], [None] when decoding fails. *)
Record HttpRequest (B : Type) := mkHttpRequest {
  RequestMethod : string;
  Body : option B
}.
Arguments RequestMethod {B} _.
Arguments Body {B} _.
Arguments mkHttpRequest {B} _ _.

Record AsyncBookingResponse := mkAsyncBookingResponse {
  BookingID : string;
  Status : string
}.

Inductive Reply :=
| ReplyError (code : Z) (msg : string)             (* http.Error(w, msg, code) *)
| ReplyJSON (code : Z) (r : AsyncBookingResponse). (* w.WriteHeader(code); Encode(r) *)

Definition StatusAccepted : Z := 202.
Definition StatusMethodNotAllowed : Z := 405.

(** [fmt.Sprintf("book_%d_%d", req.UserID, time.Now().UnixNano())] *)
Definition new_booking_id (userID nanos : Z) : string :=
  "book_" +:+ pretty userID +:+ "_" +:+ pretty nanos.

(** [handleAsyncBooking]; [nanos] is the clock reading that goes into the
    booking id, [now] the instant the locker reads. *)
Definition handleAsyncBooking (ft : Faults) (env : DB → DB) (now nanos : Z)
    (r : HttpRequest BookingRequest) (w : World) : Reply * World :=
  if bool_decide (RequestMethod r ≠ "POST") then
    (ReplyError StatusMethodNotAllowed "Method not allowed", w) else
  match Body r with
  | None => (ReplyError StatusBadRequest "Invalid request body", w)
  | Some req =>
      let bookingID := new_booking_id (UserID req) nanos in
      match BookSeats ft env now req bookingID w with
      | (Some _, w') =>
          (ReplyJSON StatusInternalServerError {| BookingID := bookingID; Status := "FAILED" |}, w')
      | (None, w') =>
          (ReplyJSON StatusAccepted {| BookingID := bookingID; Status := "PENDING" |}, w')
      end
  end.

(** ** Sample data *)

(** A row as [setup.sql] inserts it, with the column defaults. *)
Definition fresh_seat (show : Z) (number : string) : Seat :=
  {| show_id := show; seat_number := number; is_reserved := false; reserved_until := None;
     user_id := None; payment_status := "PENDING"; payment_timeout := None;
     payment_session_id := None; payment_redirect_url := None; version := 0 |}.

Definition sample_db : DB :=
  <[1 := fresh_seat 1 "A1"]> (<[2 := fresh_seat 1 "A2"]> (<[3 := fresh_seat 1 "A3"]> ∅)).

(** A server whose collation is binary: besides the members themselves
    only their indexes stand for them. *)
Definition by_index (st : string) : option PaymentStatus :=
  if bool_decide (st = "1") then Some PENDING
  else if bool_decide (st = "2") then Some COMPLETED
  else if bool_decide (st = "3") then Some FAILED
  else None.

(** A run in which the store refuses every commit. *)
Definition commit_fails : Faults :=
  λ c, match c with Commit => true | _ => false end.

Definition sample_world : World :=
  {| db := sample_db; rdb := ∅; log := []; status_conv := by_index |}.

(** ** Predicates used to state the properties *)

(** The conditional write of [OptimisticLocking] on seat [k] changes no
    row: at write time the row is gone, or its version is no longer the
    one read, or it is no longer bookable. *)
Definition write_misses (d_read d_write : DB) (k : Z) : bool :=
  match d_read !! k, d_write !! k with
  | Some s0, Some s => negb (bool_decide (version s = version s0) && bookable s)
  | _, _ => true
  end.

(** The values the column [payment_status] is declared with in [setup.sql]. *)
Definition declared (status : string) : Prop :=
  status = "PENDING" ∨ status = "COMPLETED" ∨ status = "FAILED".

(** [holds sid s]: the row carries the session token. *)
Definition holds (sid : string) (s : Seat) : Prop := payment_session_id s = Some sid.

(** The columns a reservation sets; [version] is not among them. *)
Definition reservation_fields (s : Seat) :=
  (is_reserved s, reserved_until s, user_id s, payment_status s, payment_timeout s,
   payment_session_id s, payment_redirect_url s).

(** Between the tables [d] and [d'], every row whose reservation columns
    changed has its version increased by exactly one. *)
Definition version_bumped (d d' : DB) : Prop :=
  ∀ k s s', d !! k = Some s → d' !! k = Some s' →
            reservation_fields s ≠ reservation_fields s' → version s' = version s + 1.

(** Between the tables [d] and [d'], no row changed its version. *)
Definition versions_kept (d d' : DB) : Prop :=
  ∀ k, version <$> d' !! k = version <$> d !! k.

(** [less_advanced s1 s2]: PENDING against a terminal status. *)
Definition less_advanced (s1 s2 : string) : Prop :=
  s1 = "PENDING" ∧ (s2 = "COMPLETED" ∨ s2 = "FAILED").

(** The status query answers with a status than which no seat of the
    session holds a less advanced one. *)
Definition answers_least_advanced (sid : string) (w : World) : Prop :=
  ∀ st, handleBookingStatus no_faults sid w = BookingStatus sid st →
        ¬ ∃ k s, db w !! k = Some s ∧ holds sid s ∧ less_advanced (payment_status s) st.

(** ** Scenarios *)

(** User 7 holds seat 1 through [PessimisticLocking] since instant 0. *)
Definition held_world : World :=
  (PessimisticLocking no_faults 0 7 [1] "book_7_0" sample_world).2.

(** At instant 30 user 8 asks for the held seat through
    [BookMyShowTimeoutImp]: the Redis key is taken, the table refuses. *)
Definition stale_lock_world : World :=
  (BookMyShowTimeoutImp no_faults 30 8 [1] "book_8_30" held_world).2.

(** User 8 asked for seat 1 and a seat that does not exist: seat 1 stays
    bookable and its Redis key is taken until instant 60. *)
Definition contended_world : World :=
  (BookMyShowTimeoutImp no_faults 0 8 [1; 4] "book_8_0" sample_world).2.

(** The payment of user 7's session is confirmed at instant 10. *)
Definition confirmed_world : World :=
  (handlePaymentWebhook no_faults id 10 "book_7_0" "COMPLETED" held_world).2.

(** A second booking arrives under the same booking id. *)
Definition mixed_world : World :=
  (PessimisticLocking no_faults 20 7 [2] "book_7_0" confirmed_world).2.

(** A concurrent optimistic request of user 7 for seats 1 and 2 that
    commits while another request is between its read and its writes. *)
Definition first_writer (d : DB) : DB :=
  db (OptimisticLocking no_faults id 0 7 [1; 2] "book_7_0"
        {| db := d; rdb := ∅; log := []; status_conv := by_index |}).2.

(** [bookable_request l d]: the request is not empty and names pairwise
    distinct seats, each with a bookable row in [d]. *)
Definition bookable_request (l : list Z) (d : DB) : Prop :=
  l ≠ [] ∧ NoDup l ∧ ∀ k, k ∈ l → ∃ s, d !! k = Some s ∧ bookable s.

(** The conditional write of the webhook on a seat it captured changes
    no row: at write time the row is gone or its version has moved. *)
Definition capture_stale (d_read d_write : DB) (k : Z) : bool :=
  match d_read !! k, d_write !! k with
  | Some s0, Some s => negb (bool_decide (version s = version s0))
  | _, _ => true
  end.

(** Every row that carries a booking id or a deadline carries an
    occupant. *)
Definition held_rows_have_occupant (d : DB) : Prop :=
  ∀ k s, d !! k = Some s →
         is_Some (payment_session_id s) ∨ is_Some (payment_timeout s) → is_Some (user_id s).

(** A concurrent delivery of the confirmation for user 7's session that
    commits while another delivery is between its read and its writes. *)
Definition first_delivery (d : DB) : DB :=
  db (handlePaymentWebhook no_faults id 10 "book_7_0" "COMPLETED" (set_db d held_world)).2.

(** * Lemmas on the SQL fragments *)

Section sql_fragments.

Lemma ExecUpdate_lookup P f (d : DB) k :
  (ExecUpdate P f d).2 !! k = (λ s, if P k s then f s else s) <$> d !! k.
Proof.
  unfold ExecUpdate; simpl. rewrite map_lookup_imap.
  by destruct (d !! k).
Qed.

Lemma ExecUpdate_zero P f (d : DB) :
  (ExecUpdate P f d).1 = 0%nat ↔ ∀ k s, d !! k = Some s → P k s = false.
Proof.
  unfold ExecUpdate; simpl. rewrite map_size_empty_iff, map_empty_filter.
  unfold map_Forall. split; intros H k s Hk; specialize (H k s Hk); simpl in *.
  - by apply negb_True, Is_true_true in H; destruct (P k s).
  - rewrite H. by intros [].
Qed.

(** An UPDATE whose WHERE clause fixes the primary key changes a row
    exactly when that row satisfies the rest of the clause. *)
Lemma ExecUpdate_by_id_zero (Q : Seat → bool) f (d : DB) i :
  (ExecUpdate (λ k s, bool_decide (k = i) && Q s) f d).1 = 0%nat ↔
  ∀ s, d !! i = Some s → Q s = false.
Proof.
  rewrite ExecUpdate_zero. split.
  - intros H s Hs. specialize (H i s Hs). by rewrite bool_decide_eq_true_2 in H.
  - intros H k s Hk. case_bool_decide; [subst; simpl; eauto | done].
Qed.

Lemma ExecUpdate_by_id_lookup (Q : Seat → bool) f (d : DB) i k :
  (ExecUpdate (λ k s, bool_decide (k = i) && Q s) f d).2 !! k =
  if bool_decide (k = i) then (λ s, if Q s then f s else s) <$> d !! k else d !! k.
Proof.
  rewrite ExecUpdate_lookup. case_bool_decide; simpl; [done|].
  by destruct (d !! k).
Qed.

Lemma size_list_to_set_le (l : list Z) :
  (size (list_to_set l : gset Z) ≤ length l)%nat.
Proof.
  induction l as [|a l IH].
  - done.
  - rewrite list_to_set_cons, size_union_alt. cbn [length].
    rewrite size_singleton.
    assert (size (list_to_set l ∖ {[a]} : gset Z) ≤ size (list_to_set l : gset Z))%nat.
    { apply subseteq_size. intros x Hx. by apply elem_of_difference in Hx as [? _]. }
    lia.
Qed.

Lemma size_list_to_set_NoDup (l : list Z) :
  size (list_to_set l : gset Z) = length l → NoDup l.
Proof.
  induction l as [|a l IH]; intros Hs.
  - constructor.
  - rewrite list_to_set_cons in Hs. cbn [length] in Hs.
    destruct (decide (a ∈ l)) as [Hin|Hnin].
    + assert ({[a]} ∪ list_to_set l = (list_to_set l : gset Z)) as Heq.
      { apply set_eq. intros x. rewrite elem_of_union, elem_of_singleton.
        split; [intros [->|?]; [by apply elem_of_list_to_set|done] | by right]. }
      rewrite Heq in Hs. pose proof (size_list_to_set_le l). lia.
    + constructor; [done|]. apply IH.
      rewrite size_union in Hs by (apply disjoint_singleton_l; by rewrite elem_of_list_to_set).
      rewrite size_singleton in Hs. lia.
Qed.

(** The SELECT of the lockers returns at most one row per distinct
    requested id. *)
Lemma select_bookable_length_le (l : list Z) (d : DB) :
  (length (select_bookable l d) ≤ size (list_to_set l : gset Z))%nat.
Proof.
  unfold select_bookable. rewrite length_map_to_list, <- size_dom.
  apply subseteq_size. intros k Hk. apply elem_of_dom in Hk as [s Hs].
  apply map_lookup_filter_Some in Hs as [_ [Hin _]]. simpl in Hin.
    by apply elem_of_list_to_set.
Qed.

Lemma select_bookable_lookup (l : list Z) (d : DB) k s :
  (k, s) ∈ select_bookable l d ↔ d !! k = Some s ∧ k ∈ l ∧ bookable s.
Proof.
  unfold select_bookable. rewrite elem_of_map_to_list, map_lookup_filter_Some. done.
Qed.

(** The row count equals the request length only when the request lists
    pairwise distinct ids, each of a bookable row. *)
Lemma select_bookable_all (l : list Z) (d : DB) :
  length (select_bookable l d) = length l →
  NoDup l ∧ ∀ k, k ∈ l → ∃ s, d !! k = Some s ∧ bookable s.
Proof.
  intros Hlen.
  pose proof (select_bookable_length_le l d) as H1.
  pose proof (size_list_to_set_le l) as H2.
  assert (size (list_to_set l : gset Z) = length l) as Hsz by lia.
  split; [by apply size_list_to_set_NoDup|].
  intros k Hk.
  set (m := filter (λ kv : Z * Seat, kv.1 ∈ l ∧ bookable kv.2) d).
  assert (dom m = (list_to_set l : gset Z)) as Hdom.
  { apply set_subseteq_size_eq.
    - intros j Hj. apply elem_of_dom in Hj as [s Hs].
      apply map_lookup_filter_Some in Hs as [_ [Hin _]]. simpl in Hin.
    by apply elem_of_list_to_set.
    - rewrite size_dom. unfold select_bookable in Hlen.
      rewrite length_map_to_list in Hlen. fold m in Hlen. lia. }
  assert (k ∈ dom m) as Hkm by (rewrite Hdom; by apply elem_of_list_to_set).
  apply elem_of_dom in Hkm as [s Hs].
  apply map_lookup_filter_Some in Hs as [Hd [_ Hb]]. eauto.
Qed.

Lemma select_bookable_duplicates (l : list Z) (d : DB) :
  ¬ NoDup l → length (select_bookable l d) ≠ length l.
Proof. intros Hnd Hlen. by apply select_bookable_all in Hlen as [? _]. Qed.

Lemma select_bookable_complete (l : list Z) (d : DB) :
  NoDup l → (∀ k, k ∈ l → ∃ s, d !! k = Some s ∧ bookable s) →
  length (select_bookable l d) = length l.
Proof.
  intros Hnd Hall. unfold select_bookable.
  rewrite length_map_to_list, <- size_dom, <- (size_list_to_set (C := gset Z)) by done.
  f_equal. apply set_eq. intros k. rewrite elem_of_dom, elem_of_list_to_set. split.
  - intros [s Hs]. by apply map_lookup_filter_Some in Hs as [_ [Hin _]].
  - intros Hk. destruct (Hall k Hk) as (s & Hs & Hb). exists s.
    apply map_lookup_filter_Some. done.
Qed.

End sql_fragments.

(** * The lockers that select FOR UPDATE *)

Section locking_select.


Lemma not_bookable_row_short (l : list Z) (d : DB) k :
  k ∈ l → (∀ s, d !! k = Some s → bookable s = false) →
  length (select_bookable l d) ≠ length l.
Proof.
  intros Hk Hnb Hlen. apply select_bookable_all in Hlen as [_ Hall].
  destruct (Hall k Hk) as (s & Hs & Hb). rewrite (Hnb s Hs) in Hb. done.
Qed.

(** What a committed [PessimisticLocking] or [BookMyShowTimeoutImp] wrote. *)
Lemma mark_all_lookup now u sid (l : list Z) (d : DB) k :
  (ExecUpdate (λ k _, bool_decide (k ∈ l)) (mark_pending now u sid) d).2 !! k =
  if bool_decide (k ∈ l) then mark_pending now u sid <$> d !! k else d !! k.
Proof. rewrite ExecUpdate_lookup. case_bool_decide; [done|]. by destruct (d !! k). Qed.

Lemma PessimisticLocking_failure ft now u l b w e :
  (PessimisticLocking ft now u l b w).1 = Some e → (PessimisticLocking ft now u l b w).2 = w.
Proof.
  unfold PessimisticLocking.
  repeat (case_match; simpl; try done).
Qed.

Lemma PessimisticLocking_success ft now u l b w :
  (PessimisticLocking ft now u l b w).1 = None →
  l ≠ [] ∧ length (select_bookable l (db w)) = length l ∧
  (PessimisticLocking ft now u l b w).2 =
    set_db (ExecUpdate (λ k _, bool_decide (k ∈ l)) (mark_pending now u b) (db w)).2 w.
Proof.
  unfold PessimisticLocking.
  repeat (case_match; simpl; try done). intros _.
  repeat case_bool_decide; try done.
  split_and!; [by intros -> | by destruct (decide (length (select_bookable l (db w)) = length l)) | ].
  simplify_eq/=. done.
Qed.

Lemma redis_SetNX_free now key v ttl (r : Redis) :
  redis_Get now r key = None → redis_SetNX now key v ttl r = (true, <[key := (v, now + ttl)]> r).
Proof. unfold redis_SetNX. by intros ->. Qed.

Lemma redis_SetNX_held now key v ttl (r : Redis) h :
  redis_Get now r key = Some h → redis_SetNX now key v ttl r = (false, r).
Proof. unfold redis_SetNX. by intros ->. Qed.

Lemma redis_Get_insert now key v expires (r : Redis) :
  redis_Get now (<[key := (v, expires)]> r) key = if bool_decide (now < expires) then Some v else None.
Proof. unfold redis_Get. by rewrite lookup_insert_eq. Qed.

Lemma BookMyShowTimeoutImp_failure ft now u l b w e :
  (BookMyShowTimeoutImp ft now u l b w).1 = Some e →
  db (BookMyShowTimeoutImp ft now u l b w).2 = db w.
Proof.
  unfold BookMyShowTimeoutImp.
  repeat (case_match; simpl; try done).
Qed.

Lemma BookMyShowTimeoutImp_contention ft now u first rest b w h :
  ft (SetNX (seat_lock_key first)) = false →
  redis_Get now (rdb w) (seat_lock_key first) = Some h →
  BookMyShowTimeoutImp ft now u (first :: rest) b w =
  (Some (LockNotAcquired (seat_lock_key first)),
   add_log (LockHolderLog u (if ft (Get (seat_lock_key first)) then "" else h)) w).
Proof.
  intros Hft Hget. unfold BookMyShowTimeoutImp. rewrite Hft.
  rewrite (redis_SetNX_held _ _ _ _ _ h) by done. simpl.
  rewrite Hget. by destruct (ft (Get _)).
Qed.

Lemma BookMyShowTimeoutImp_acquired ft now u first rest b w :
  ft (SetNX (seat_lock_key first)) = false →
  redis_Get now (rdb w) (seat_lock_key first) = None →
  rdb (BookMyShowTimeoutImp ft now u (first :: rest) b w).2 =
    <[seat_lock_key first := (user_lock_value u, now + minute)]> (rdb w) ∧
  log (BookMyShowTimeoutImp ft now u (first :: rest) b w).2 = log w.
Proof.
  intros Hft Hget. unfold BookMyShowTimeoutImp. rewrite Hft.
  rewrite redis_SetNX_free by done. simpl.
  replace (1 * minute) with minute by done.
  repeat (case_match; simpl; try done).
Qed.

Lemma BookMyShowTimeoutImp_success ft now u first rest b w :
  (BookMyShowTimeoutImp ft now u (first :: rest) b w).1 = None →
  ft (SetNX (seat_lock_key first)) = false ∧
  redis_Get now (rdb w) (seat_lock_key first) = None ∧
  length (select_bookable (first :: rest) (db w)) = length (first :: rest) ∧
  db (BookMyShowTimeoutImp ft now u (first :: rest) b w).2 =
    (ExecUpdate (λ k _, bool_decide (k ∈ first :: rest)) (mark_pending now u b) (db w)).2.
Proof.
  unfold BookMyShowTimeoutImp.
  destruct (ft (SetNX _)) eqn:Hft; [done|].
  destruct (redis_Get now (rdb w) (seat_lock_key first)) as [h|] eqn:Hget.
  { rewrite (redis_SetNX_held _ _ _ _ _ h) by done. done. }
  rewrite redis_SetNX_free by done. simpl.
  repeat (case_match; simpl; try done). intros _.
  case_bool_decide as Hlen; [done|].
  split_and!; try done.
Qed.

Lemma nonempty_length (l : list Z) : l ≠ [] → length l ≠ 0%nat.
Proof. by destruct l. Qed.

Lemma existsb_no_faults (rows : list (Z * Seat)) :
  existsb (λ kv : Z * Seat, no_faults (Scan kv.1)) rows = false.
Proof. by induction rows. Qed.

(** With no service failure the three lockers are decided by the request
    and the two stores alone. *)
Lemma PessimisticLocking_unavailable now u l b w :
  l ≠ [] → length (select_bookable l (db w)) ≠ length l →
  PessimisticLocking no_faults now u l b w = (Some SeatsNotAvailable, w).
Proof.
  intros Hl Hlen. unfold PessimisticLocking. simpl.
  rewrite bool_decide_eq_false_2; [|by apply nonempty_length].
  by rewrite bool_decide_eq_true_2.
Qed.

Lemma OptimisticLocking_unavailable env now u l b w :
  l ≠ [] → length (select_bookable l (db w)) ≠ length l →
  OptimisticLocking no_faults env now u l b w = (Some SeatsNotAvailable, w).
Proof.
  intros Hl Hlen. unfold OptimisticLocking. rewrite existsb_no_faults. simpl.
  rewrite bool_decide_eq_false_2; [|by apply nonempty_length].
  by rewrite bool_decide_eq_true_2.
Qed.

Lemma BookMyShowTimeoutImp_unavailable now u first rest b w :
  redis_Get now (rdb w) (seat_lock_key first) = None →
  length (select_bookable (first :: rest) (db w)) ≠ length (first :: rest) →
  BookMyShowTimeoutImp no_faults now u (first :: rest) b w =
  (Some SeatsNotAvailable,
   set_rdb (<[seat_lock_key first := (user_lock_value u, now + minute)]> (rdb w)) w).
Proof.
  intros Hget Hlen. unfold BookMyShowTimeoutImp. simpl.
  rewrite redis_SetNX_free by done. simpl.
  by rewrite bool_decide_eq_true_2.
Qed.

End locking_select.

(** * The optimistic locker *)

Section optimistic.


(** The Go map [seatVersions] holds the version of every row the SELECT
    returned. *)
Lemma seatVersions_lookup (l : list Z) (d : DB) k :
  (list_to_map ((λ kv : Z * Seat, (kv.1, version kv.2)) <$> select_bookable l d) : gmap Z Z) !! k =
  version <$> filter (λ kv : Z * Seat, kv.1 ∈ l ∧ bookable kv.2) d !! k.
Proof.
  unfold select_bookable.
  rewrite (list_fmap_ext _ (prod_map id version)) by (by intros ? []).
  by rewrite list_to_map_fmap, list_to_map_to_list, lookup_fmap.
Qed.

Lemma seatVersions_read (l : list Z) (d : DB) k s :
  d !! k = Some s → k ∈ l → bookable s →
  (list_to_map ((λ kv : Z * Seat, (kv.1, version kv.2)) <$> select_bookable l d) : gmap Z Z) !! k =
  Some (version s).
Proof.
  intros Hd Hk Hb. rewrite seatVersions_lookup.
  by rewrite (map_lookup_filter_Some_2 _ _ k s).
Qed.

Lemma mark_pending_versioned_not_bookable now u sid s :
  bookable (mark_pending_versioned now u sid s) = false.
Proof. done. Qed.

Lemma optimistic_updates_cons ft now u sid (vs : gmap Z Z) a (l : list Z) (d : DB) :
  optimistic_updates ft now u sid vs (a :: l) d =
  let upd := ExecUpdate (λ k s, bool_decide (k = a) &&
               (bool_decide (version s = default 0 (vs !! a)) && bookable s))
               (mark_pending_versioned now u sid) d in
  if ft (ExecContext (Some a)) then inl (UpdateFailed (Some a)) else
  if ft (RowsAffected a) then inl (RowsAffectedFailed a) else
  if bool_decide (upd.1 = 0%nat) then inl (LockConflict a) else
  optimistic_updates ft now u sid vs l upd.2.
Proof. done. Qed.

(** A loop that runs to its end wrote every listed seat once, each from a
    bookable row carrying the version that was read. *)
Lemma optimistic_updates_success ft now u sid (vs : gmap Z Z) (l : list Z) (d d' : DB) :
  optimistic_updates ft now u sid vs l d = inr d' →
  NoDup l ∧
  (∀ k, k ∈ l → ∃ s, d !! k = Some s ∧ version s = default 0 (vs !! k) ∧ bookable s ∧
                     d' !! k = Some (mark_pending_versioned now u sid s)) ∧
  (∀ k, k ∉ l → d' !! k = d !! k).
Proof.
  revert d. induction l as [|a l IH]; intros d Hrun.
  - simpl in Hrun. simplify_eq. split_and!; [constructor | by intros ? ?%elem_of_nil | done].
  - rewrite optimistic_updates_cons in Hrun. cbv zeta in Hrun.
    destruct (ft (ExecContext (Some a))); [done|].
    destruct (ft (RowsAffected a)); [done|].
    case_bool_decide as Hn; [done|].
    remember (ExecUpdate (λ k s, bool_decide (k = a) &&
              (bool_decide (version s = default 0 (vs !! a)) && bookable s))
              (mark_pending_versioned now u sid) d) as upd eqn:Hupd.
    pose (n := upd.1). pose (d1 := upd.2).
    assert (n = upd.1) as Hn1 by done. assert (d1 = upd.2) as Hd1 by done.
    rewrite Hupd in Hn1, Hd1. fold d1 in Hrun. fold n in Hn. clearbody n d1. clear Hupd upd.
    assert (∃ s, d !! a = Some s ∧ version s = default 0 (vs !! a) ∧ bookable s) as (s & Hs & Hv & Hb).
    { destruct (d !! a) as [s|] eqn:Hs.
      - destruct (bool_decide (version s = default 0 (vs !! a)) && bookable s) eqn:HQ.
        + apply andb_true_iff in HQ as [HQ1%bool_decide_eq_true HQ2]. exists s.
          split_and!; [done | done | by rewrite HQ2].
        + exfalso. apply Hn. rewrite Hn1. apply ExecUpdate_by_id_zero.
          intros s' ?. by simplify_eq.
      - exfalso. apply Hn. rewrite Hn1. apply ExecUpdate_by_id_zero.
        intros s' ?. by simplify_eq. }
    assert (d1 !! a = Some (mark_pending_versioned now u sid s)) as Hd1a.
    { rewrite Hd1, ExecUpdate_by_id_lookup, bool_decide_eq_true_2, Hs by done. simpl.
      rewrite bool_decide_eq_true_2 by done. by destruct (bookable s). }
    assert (∀ k, k ≠ a → d1 !! k = d !! k) as Hd1k.
    { intros k Hk. by rewrite Hd1, ExecUpdate_by_id_lookup, bool_decide_eq_false_2. }
    destruct (IH d1 Hrun) as (Hnd & Hin & Hout).
    assert (a ∉ l) as Hal.
    { intros Ha. destruct (Hin a Ha) as (s1 & Hs1 & _ & Hb1 & _).
      rewrite Hd1a in Hs1. by simplify_eq. }
    split_and!.
    + by constructor.
    + intros k [->|Hk]%elem_of_cons.
      * exists s. split_and!; try done. by rewrite Hout.
      * destruct (Hin k Hk) as (s1 & Hs1 & ? & ? & ?). exists s1.
        rewrite <- Hd1k; [done|]. by intros ->.
    + intros k Hk. apply not_elem_of_cons in Hk as [? ?].
      by rewrite Hout, Hd1k.
Qed.

(** A conditional write that cannot match makes the loop stop with a
    conflict, whatever the writes before it did. *)
Lemma optimistic_updates_conflict now u sid (vs : gmap Z Z) (l : list Z) (d : DB) k :
  k ∈ l →
  (∀ s, d !! k = Some s → bool_decide (version s = default 0 (vs !! k)) && bookable s = false) →
  ∃ k', k' ∈ l ∧ optimistic_updates no_faults now u sid vs l d = inl (LockConflict k').
Proof.
  revert d. induction l as [|a l IH]; intros d Hk Hmiss.
  - by apply elem_of_nil in Hk.
  - rewrite optimistic_updates_cons. cbv zeta.
    replace (no_faults (ExecContext (Some a))) with false by done.
    replace (no_faults (RowsAffected a)) with false by done.
    remember (ExecUpdate (λ k s, bool_decide (k = a) &&
              (bool_decide (version s = default 0 (vs !! a)) && bookable s))
              (mark_pending_versioned now u sid) d) as upd eqn:Hupd.
    pose (n := upd.1). pose (d1 := upd.2).
    assert (n = upd.1) as Hn1 by done. assert (d1 = upd.2) as Hd1 by done.
    rewrite Hupd in Hn1, Hd1. fold d1. fold n. clearbody n d1. clear Hupd upd.
    case_bool_decide as Hn.
    + exists a. split; [left|done].
    + assert (k ≠ a) as Hka.
      { intros ->. apply Hn. rewrite Hn1. by apply ExecUpdate_by_id_zero. }
      apply elem_of_cons in Hk as [?|Hk]; [done|].
      destruct (IH d1 Hk) as (k' & Hk' & Hrun).
      { intros s Hs. apply Hmiss.
        by rewrite Hd1, ExecUpdate_by_id_lookup, bool_decide_eq_false_2 in Hs. }
      exists k'. split; [by right|done].
Qed.

Lemma OptimisticLocking_success ft env now u l b w :
  (OptimisticLocking ft env now u l b w).1 = None →
  length (select_bookable l (db w)) = length l ∧
  ∃ d', optimistic_updates ft now u b
          (list_to_map ((λ kv : Z * Seat, (kv.1, version kv.2)) <$> select_bookable l (db w)))
          l (env (db w)) = inr d' ∧
        (OptimisticLocking ft env now u l b w).2 = set_db d' w.
Proof.
  unfold OptimisticLocking.
  repeat (case_match; simpl; try done). intros _.
  case_bool_decide as Hlen; [done|].
  split; [by destruct (decide (length (select_bookable l (db w)) = length l))|].
  eauto.
Qed.

Lemma OptimisticLocking_failure ft env now u l b w e :
  (OptimisticLocking ft env now u l b w).1 = Some e →
  (OptimisticLocking ft env now u l b w).2 = w ∨
  (OptimisticLocking ft env now u l b w).2 = set_db (env (db w)) w.
Proof.
  unfold OptimisticLocking.
  repeat (case_match; simpl; try done); auto.
Qed.

Lemma OptimisticLocking_conflict env now u l b w k :
  l ≠ [] → length (select_bookable l (db w)) = length l →
  k ∈ l → write_misses (db w) (env (db w)) k = true →
  ∃ k', k' ∈ l ∧
    OptimisticLocking no_faults env now u l b w =
    (Some (LockConflict k'), set_db (env (db w)) w).
Proof.
  intros Hl Hlen Hk Hmiss.
  destruct (select_bookable_all _ _ Hlen) as [_ Hall].
  destruct (Hall k Hk) as (s0 & Hs0 & Hb0).
  destruct (optimistic_updates_conflict now u b
    (list_to_map ((λ kv : Z * Seat, (kv.1, version kv.2)) <$> select_bookable l (db w)))
    l (env (db w)) k Hk) as (k' & Hk' & Hrun).
  { intros s Hs. rewrite (seatVersions_read l (db w) k s0) by done. simpl.
    unfold write_misses in Hmiss. rewrite Hs0, Hs in Hmiss.
    by apply negb_true_iff in Hmiss. }
  exists k'. split; [done|].
  unfold OptimisticLocking. rewrite existsb_no_faults, Hrun. simpl.
  rewrite bool_decide_eq_false_2; [|by apply nonempty_length].
  rewrite bool_decide_eq_false_2; [done|]. by intros ?.
Qed.

End optimistic.

(** * The payment webhook *)

Section webhook.


Lemma select_pending_lookup sid (d : DB) k s :
  (k, s) ∈ select_pending sid d ↔
  d !! k = Some s ∧ payment_session_id s = Some sid ∧ payment_status s = "PENDING".
Proof.
  unfold select_pending. by rewrite elem_of_map_to_list, map_lookup_filter_Some.
Qed.

Lemma select_pending_nil sid (d : DB) :
  (∀ k s, d !! k = Some s → payment_session_id s = Some sid → payment_status s ≠ "PENDING") →
  select_pending sid d = [].
Proof.
  intros H. unfold select_pending.
  apply map_to_list_empty_iff, map_empty_filter.
  intros k s Hk [Hsid Hst]. by eapply H.
Qed.

(** What the scan loop stores in the two Go maps. *)
Lemma scan_pending_versions ft rows scanned :
  mapM (scan_pending ft) rows = Some scanned →
  (λ t : Z * Z * Z, (t.1.1, t.2)) <$> scanned = (λ kv : Z * Seat, (kv.1, version kv.2)) <$> rows.
Proof.
  revert scanned. induction rows as [|[k s] rows IH]; intros scanned H.
  - apply mapM_Some in H. by inversion H.
  - apply mapM_Some in H. inversion H as [|? t ? scanned' Ht Hrest]; subst.
    apply mapM_Some in Hrest. simpl. f_equal; [|by apply IH].
    unfold scan_pending in Ht. simpl in Ht.
    destruct (ft (Scan k)); [done|]. destruct (user_id s); by simplify_eq/=.
Qed.

Lemma scan_pending_no_faults rows :
  Forall (λ kv : Z * Seat, is_Some (user_id kv.2)) rows →
  is_Some (mapM (scan_pending no_faults) rows).
Proof.
  intros H. apply mapM_is_Some. eapply Forall_impl; [done|].
  intros [k s] [u Hu]. unfold scan_pending. simpl in *. by rewrite Hu.
Qed.

Lemma pending_versions_lookup sid (d : DB) k :
  (list_to_map ((λ kv : Z * Seat, (kv.1, version kv.2)) <$> select_pending sid d) : gmap Z Z) !! k =
  version <$> filter (λ kv : Z * Seat,
      payment_session_id kv.2 = Some sid ∧ payment_status kv.2 = "PENDING") d !! k.
Proof.
  unfold select_pending.
  rewrite (list_fmap_ext _ (prod_map id version)) by (by intros ? []).
  by rewrite list_to_map_fmap, list_to_map_to_list, lookup_fmap.
Qed.

Lemma pending_versions_size sid (d : DB) :
  size (list_to_map ((λ kv : Z * Seat, (kv.1, version kv.2)) <$> select_pending sid d) : gmap Z Z) =
  length (select_pending sid d).
Proof.
  unfold select_pending.
  rewrite (list_fmap_ext _ (prod_map id version)) by (by intros ? []).
  by rewrite list_to_map_fmap, list_to_map_to_list, map_size_fmap, length_map_to_list.
Qed.

(** A member spelled letter for letter is kept as it is, whatever the
    server makes of other strings. *)
Lemma enum_store_declared cv st : declared st → enum_store cv st = st.
Proof. by intros [->|[->| ->]]. Qed.

(** On a server that reads indexes only, "2" is kept as COMPLETED and a
    string that stands for no member as the error value. *)
Lemma enum_store_by_index :
  enum_store by_index "2" = "COMPLETED" ∧ enum_store by_index "1" = "PENDING" ∧
  enum_store by_index "paid" = "".
Proof. split_and!; vm_compute; reflexivity. Qed.

Lemma enum_store_value cv st : declared (enum_store cv st) ∨ enum_store cv st = "".
Proof.
  unfold enum_store. destruct (member st) as [[]|]; [left; unfold declared; simpl; auto..|].
  destruct (cv st) as [[]|]; [left; unfold declared; simpl; auto..|by right].
Qed.

Lemma webhook_updates_cons ft cv st k v (L : list (Z * Z)) (d : DB) :
  webhook_updates ft cv st ((k, v) :: L) d =
  let upd := ExecUpdate (λ j s, bool_decide (j = k) && bool_decide (version s = v))
                        (set_status cv st) d in
  if ft (ExecContext (Some k)) then
    inl (HttpError StatusInternalServerError "Internal server error") else
  if ft (RowsAffected k) then
    inl (HttpError StatusInternalServerError "Internal server error") else
  if bool_decide (upd.1 = 0%nat) then
    inl (HttpError StatusConflict "Concurrent modification detected") else
  webhook_updates ft cv st L upd.2.
Proof. done. Qed.

(** One conditional write of the webhook, when it changes a row. *)
Lemma webhook_write_hit cv st k v (d : DB) :
  (ExecUpdate (λ j s, bool_decide (j = k) && bool_decide (version s = v)) (set_status cv st) d).1 ≠ 0%nat →
  ∃ s, d !! k = Some s ∧ version s = v ∧
       (ExecUpdate (λ j s, bool_decide (j = k) && bool_decide (version s = v)) (set_status cv st) d).2 !! k
         = Some (set_status cv st s).
Proof.
  intros Hn. destruct (d !! k) as [s|] eqn:Hs.
  - destruct (decide (version s = v)) as [Hv|Hv].
    + exists s. split_and!; try done.
      rewrite ExecUpdate_by_id_lookup, bool_decide_eq_true_2, Hs by done. simpl.
      by rewrite bool_decide_eq_true_2.
    + exfalso. apply Hn, ExecUpdate_by_id_zero. intros s' ?. simplify_eq.
      by rewrite bool_decide_eq_false_2.
  - exfalso. apply Hn, ExecUpdate_by_id_zero. intros s' ?. by simplify_eq.
Qed.

Lemma webhook_write_other cv st k v (d : DB) j :
  j ≠ k →
  (ExecUpdate (λ j s, bool_decide (j = k) && bool_decide (version s = v)) (set_status cv st) d).2 !! j
  = d !! j.
Proof. intros. by rewrite ExecUpdate_by_id_lookup, bool_decide_eq_false_2. Qed.

(** A loop that runs to its end wrote every captured seat once, each from
    a row still carrying the captured version. *)
Lemma webhook_updates_success ft cv st (L : list (Z * Z)) (d d' : DB) :
  NoDup L.*1 →
  webhook_updates ft cv st L d = inr d' →
  (∀ k v, (k, v) ∈ L → ∃ s, d !! k = Some s ∧ version s = v ∧ d' !! k = Some (set_status cv st s)) ∧
  (∀ k, k ∉ L.*1 → d' !! k = d !! k).
Proof.
  revert d. induction L as [|[a v] L IH]; intros d Hnd Hrun.
  - simpl in Hrun. simplify_eq. split; [by intros ?? ?%elem_of_nil | done].
  - rewrite webhook_updates_cons in Hrun. cbv zeta in Hrun.
    destruct (ft (ExecContext (Some a))); [done|].
    destruct (ft (RowsAffected a)); [done|].
    case_bool_decide as Hn; [done|].
    apply webhook_write_hit in Hn as (s & Hs & Hv & Hd1a).
    apply NoDup_cons in Hnd as [Ha Hnd].
    destruct (IH _ Hnd Hrun) as [Hin Hout].
    split.
    + intros k v' [?|Hk]%elem_of_cons.
      * simplify_eq. exists s. split_and!; try done. by rewrite Hout.
      * destruct (Hin k v' Hk) as (s1 & Hs1 & ? & ?). exists s1.
        rewrite webhook_write_other in Hs1; [done|].
        intros ->. apply Ha. apply list_elem_of_fmap. by exists (a, v').
    + intros k Hk. simpl in Hk. apply not_elem_of_cons in Hk as [? ?].
      by rewrite Hout, webhook_write_other.
Qed.

Lemma webhook_updates_error ft cv st (L : list (Z * Z)) (d : DB) resp :
  webhook_updates ft cv st L d = inl resp → ∃ c m, resp = HttpError c m.
Proof.
  revert d. induction L as [|[a v] L IH]; intros d Hrun; [done|].
  rewrite webhook_updates_cons in Hrun. cbv zeta in Hrun.
  repeat (case_match; simplify_eq; eauto).
Qed.

(** With the services answering and every captured version still in place
    the loop runs to its end. *)
Lemma webhook_updates_hits cv st (L : list (Z * Z)) (d : DB) :
  NoDup L.*1 →
  (∀ k v, (k, v) ∈ L → ∃ s, d !! k = Some s ∧ version s = v) →
  ∃ d', webhook_updates no_faults cv st L d = inr d'.
Proof.
  revert d. induction L as [|[a v] L IH]; intros d Hnd Hall.
  - by eexists.
  - rewrite webhook_updates_cons. cbv zeta.
    replace (no_faults (ExecContext (Some a))) with false by done.
    replace (no_faults (RowsAffected a)) with false by done.
    apply NoDup_cons in Hnd as [Ha Hnd].
    destruct (Hall a v) as (s & Hs & Hv); [left|].
    rewrite bool_decide_eq_false_2.
    2:{ intros Hz. eapply ExecUpdate_by_id_zero in Hz; [|done]. by rewrite bool_decide_eq_true_2 in Hz. }
    apply IH; [done|]. intros k v' Hk.
    destruct (Hall k v') as (s1 & Hs1 & Hv1); [by right|].
    exists s1. split; [|done]. rewrite webhook_write_other; [done|].
    intros ->. apply Ha. apply list_elem_of_fmap. by exists (a, v').
Qed.

Lemma handlePaymentWebhook_not_found ft env now sid st w :
  (∀ k s, db w !! k = Some s → payment_session_id s = Some sid → payment_status s ≠ "PENDING") →
  (handlePaymentWebhook ft env now sid st w).2 = w ∧
  (ft BeginTx = false → ft QueryContext = false →
   (handlePaymentWebhook ft env now sid st w).1 = HttpError StatusNotFound "No pending seats found").
Proof.
  intros H. unfold handlePaymentWebhook. rewrite (select_pending_nil _ _ H). simpl.
  destruct (ft BeginTx), (ft QueryContext); simpl; split; try done.
Qed.

Lemma handlePaymentWebhook_failure ft env now sid st w :
  (handlePaymentWebhook ft env now sid st w).1 ≠ WebhookSuccess →
  (handlePaymentWebhook ft env now sid st w).2 = w ∨
  (handlePaymentWebhook ft env now sid st w).2 = set_db (env (db w)) w.
Proof.
  unfold handlePaymentWebhook.
  repeat (case_match; simpl; try done); auto.
Qed.

(** A delivery that is acknowledged wrote every seat that was PENDING
    under the session, from the row the concurrent writers left, and
    nothing else in the table. *)
Lemma handlePaymentWebhook_success ft env now sid st w :
  (handlePaymentWebhook ft env now sid st w).1 = WebhookSuccess →
  (∀ k s, db w !! k = Some s → payment_session_id s = Some sid → payment_status s = "PENDING" →
     ∃ s1, env (db w) !! k = Some s1 ∧ version s1 = version s ∧
           db (handlePaymentWebhook ft env now sid st w).2 !! k
             = Some (set_status (status_conv w) st s1)) ∧
  (∀ k, (∀ s, db w !! k = Some s →
           ¬ (payment_session_id s = Some sid ∧ payment_status s = "PENDING")) →
     db (handlePaymentWebhook ft env now sid st w).2 !! k = env (db w) !! k) ∧
  log (handlePaymentWebhook ft env now sid st w).2 = log w.
Proof.
  unfold handlePaymentWebhook.
  destruct (ft BeginTx); [done|]. destruct (ft QueryContext); [done|].
  destruct (mapM _ _) as [scanned|] eqn:Hscan; [|done].
  rewrite (scan_pending_versions _ _ _ Hscan).
  case_bool_decide; [done|].
  destruct (webhook_updates _ _ _ _ _) as [resp|d'] eqn:Hrun.
  { apply webhook_updates_error in Hrun as (c & m & ->). done. }
  destruct (ft Commit); [done|]. simpl. intros _.
  apply webhook_updates_success in Hrun as [Hin Hout]; [|apply NoDup_fst_map_to_list].
  split_and!; [| |done].
  - intros k s Hk Hsid Hst.
    destruct (Hin k (version s)) as (s1 & ? & ? & ?); [|by exists s1].
    apply elem_of_map_to_list. rewrite pending_versions_lookup.
    by rewrite (map_lookup_filter_Some_2 _ _ k s).
  - intros k Hk. apply Hout. intros Hin'.
    apply list_elem_of_fmap in Hin' as ([k' v] & -> & Hin'). simpl in *.
    apply elem_of_map_to_list in Hin'. rewrite pending_versions_lookup in Hin'.
    apply fmap_Some in Hin' as (s & Hs & _).
    apply map_lookup_filter_Some in Hs as [Hs [? ?]]. by eapply Hk.
Qed.

(** Run after run: with the services answering, nothing committed in
    between and every seat of the session carrying an occupant, a
    delivery for a session with a PENDING seat is acknowledged. *)
Lemma handlePaymentWebhook_accepts now sid st w :
  (∃ k s, db w !! k = Some s ∧ payment_session_id s = Some sid ∧ payment_status s = "PENDING") →
  (∀ k s, db w !! k = Some s → payment_session_id s = Some sid → payment_status s = "PENDING" →
          is_Some (user_id s)) →
  (handlePaymentWebhook no_faults id now sid st w).1 = WebhookSuccess.
Proof.
  intros (k0 & s0 & Hk0 & Hsid0 & Hst0) Huser. unfold handlePaymentWebhook.
  replace (no_faults BeginTx) with false by done.
  replace (no_faults QueryContext) with false by done.
  replace (no_faults Commit) with false by done.
  destruct (scan_pending_no_faults (select_pending sid (db w))) as [scanned Hscan].
  { apply Forall_forall. intros [k s] Hks. apply select_pending_lookup in Hks as (? & ? & ?).
    by eapply Huser. }
  rewrite Hscan, (scan_pending_versions _ _ _ Hscan).
  rewrite bool_decide_eq_false_2.
  2:{ rewrite pending_versions_size. intros Hlen. apply nil_length_inv in Hlen.
      assert ((k0, s0) ∈ select_pending sid (db w)) as Hin by (by apply select_pending_lookup).
      rewrite Hlen in Hin. by apply elem_of_nil in Hin. }
  destruct (webhook_updates_hits (status_conv w) st
    (map_to_list (list_to_map ((λ kv : Z * Seat, (kv.1, version kv.2)) <$>
       select_pending sid (db w)) : gmap Z Z)) (db w)) as [d' Hrun].
  { apply NoDup_fst_map_to_list. }
  { intros k v Hkv. apply elem_of_map_to_list in Hkv. rewrite pending_versions_lookup in Hkv.
    apply fmap_Some in Hkv as (s & Hs & ->).
    apply map_lookup_filter_Some in Hs as [Hs _]. by exists s. }
  unfold id at 1. by rewrite Hrun.
Qed.

(** Run after run, an acknowledged delivery of a status that the column
    does not keep as "PENDING" leaves no seat PENDING under the session. *)
Lemma handlePaymentWebhook_finalizes ft now sid st w :
  enum_store (status_conv w) st ≠ "PENDING" →
  (handlePaymentWebhook ft id now sid st w).1 = WebhookSuccess →
  ∀ k s, db (handlePaymentWebhook ft id now sid st w).2 !! k = Some s →
         holds sid s → payment_status s ≠ "PENDING".
Proof.
  intros Hst Hok k s' Hk' Hsid' Hst'.
  destruct (handlePaymentWebhook_success _ _ _ _ _ _ Hok) as (Hin & Hout & _).
  destruct (db w !! k) as [s|] eqn:Hk.
  - destruct (decide (payment_session_id s = Some sid ∧ payment_status s = "PENDING"))
      as [[Hsid Hp]|Hno].
    + destruct (Hin k s Hk Hsid Hp) as (s1 & _ & _ & Hs'). rewrite Hs' in Hk'. by simplify_eq.
    + rewrite Hout in Hk'; [|intros ? ?; by simplify_eq]. unfold id in Hk'. simplify_eq.
      by destruct Hno.
  - rewrite Hout in Hk'; [|intros ? ?; by simplify_eq]. unfold id in Hk'. by simplify_eq.
Qed.

End webhook.

(** * The timeout sweeper *)

Section sweeper.


Lemma sweeper_key_not_seat_lock i j : sweeper_key i ≠ seat_lock_key j.
Proof. done. Qed.

Lemma clear_reservation_idemp s : clear_reservation (clear_reservation s) = clear_reservation s.
Proof. done. Qed.

Lemma sweep_updates_cons ft seat (L : list ExpiredSeat.t) (d : DB) (r : Redis) :
  sweep_updates ft (seat :: L) d r =
  if ft (ExecContext (Some (ExpiredSeat.id seat))) then sweep_updates ft L d r else
  sweep_updates ft L
    (ExecUpdate (λ k _, bool_decide (k = ExpiredSeat.id seat)) clear_reservation d).2
    (redis_Del ft (sweeper_key (ExpiredSeat.id seat)) r).
Proof. done. Qed.

Lemma clear_by_id_lookup i (d : DB) k :
  (ExecUpdate (λ k _, bool_decide (k = i)) clear_reservation d).2 !! k =
  if bool_decide (k = i) then clear_reservation <$> d !! k else d !! k.
Proof. rewrite ExecUpdate_lookup. case_bool_decide; [done|]. by destruct (d !! k). Qed.

(** The sweeper's loop touches no Redis key other than the ones it builds. *)
Lemma sweep_updates_redis ft (L : list ExpiredSeat.t) (d : DB) (r : Redis) key :
  (∀ i, key ≠ sweeper_key i) →
  (sweep_updates ft L d r).2 !! key = r !! key.
Proof.
  intros Hkey. revert d r. induction L as [|seat L IH]; intros d r; [done|].
  rewrite sweep_updates_cons. destruct (ft (ExecContext _)); [apply IH|].
  rewrite IH. unfold redis_Del. destruct (ft (Del _)); [done|].
  apply lookup_delete_ne. by intros <-; eapply Hkey.
Qed.

(** With the services answering, the loop clears every listed row and no other. *)
Lemma sweep_updates_db (L : list ExpiredSeat.t) (d : DB) (r : Redis) k :
  (sweep_updates no_faults L d r).1 !! k =
  if bool_decide (k ∈ ExpiredSeat.id <$> L) then clear_reservation <$> d !! k else d !! k.
Proof.
  revert d r. induction L as [|seat L IH]; intros d r; [done|].
  rewrite sweep_updates_cons. replace (no_faults (ExecContext _)) with false by done.
  rewrite IH, clear_by_id_lookup. rewrite fmap_cons.
  destruct (decide (k = ExpiredSeat.id seat)) as [->|Hne].
  - rewrite (bool_decide_eq_true_2 (_ ∈ _ :: _)) by left.
    rewrite (bool_decide_eq_true_2 (_ = _)) by done.
    case_bool_decide; [|done].
    destruct (d !! ExpiredSeat.id seat); [|done]. simpl. by rewrite clear_reservation_idemp.
  - rewrite (bool_decide_eq_false_2 (_ = _)) by done.
    apply (f_equal (λ c : bool, if c then clear_reservation <$> d !! k else d !! k)).
    apply bool_decide_ext. rewrite elem_of_cons. split; [by right | by intros [?|?]].
Qed.

(** Whatever fails, the loop leaves every version as it was. *)
Lemma sweep_updates_versions ft (L : list ExpiredSeat.t) (d : DB) (r : Redis) k :
  version <$> (sweep_updates ft L d r).1 !! k = version <$> d !! k.
Proof.
  revert d r. induction L as [|seat L IH]; intros d r; [done|].
  rewrite sweep_updates_cons. destruct (ft (ExecContext _)); [apply IH|].
  rewrite IH, clear_by_id_lookup. case_bool_decide; [|done]. by destruct (d !! k).
Qed.

Lemma checkPaymentTimeouts_tick_db ft now w :
  db (checkPaymentTimeouts_tick ft now w) = db w ∨
  db (checkPaymentTimeouts_tick ft now w) =
    (sweep_updates ft (omap (scan_expired ft) (select_expired now (db w))) (db w) (rdb w)).1.
Proof.
  unfold checkPaymentTimeouts_tick.
  destruct (ft BeginTx); [by left|]. destruct (ft QueryContext); [by left|].
  destruct (sweep_updates _ _ _ _) as [d r]. destruct (ft Commit); [by left|by right].
Qed.

Lemma checkPaymentTimeouts_tick_rdb ft now w :
  rdb (checkPaymentTimeouts_tick ft now w) = rdb w ∨
  rdb (checkPaymentTimeouts_tick ft now w) =
    (sweep_updates ft (omap (scan_expired ft) (select_expired now (db w))) (db w) (rdb w)).2.
Proof.
  unfold checkPaymentTimeouts_tick.
  destruct (ft BeginTx); [by left|]. destruct (ft QueryContext); [by left|].
  destruct (sweep_updates _ _ _ _) as [d r]. destruct (ft Commit); by right.
Qed.

(** No tick of the sweeper changes a version. *)
Lemma checkPaymentTimeouts_tick_versions ft now w k :
  version <$> db (checkPaymentTimeouts_tick ft now w) !! k = version <$> db w !! k.
Proof.
  destruct (checkPaymentTimeouts_tick_db ft now w) as [->| ->]; [done|].
  apply sweep_updates_versions.
Qed.

(** No tick of the sweeper touches the key a booking takes for a seat. *)
Lemma checkPaymentTimeouts_tick_seat_lock ft now w j :
  rdb (checkPaymentTimeouts_tick ft now w) !! seat_lock_key j = rdb w !! seat_lock_key j.
Proof.
  destruct (checkPaymentTimeouts_tick_rdb ft now w) as [->| ->]; [done|].
  apply sweep_updates_redis. intros i Heq. by eapply sweeper_key_not_seat_lock.
Qed.

(** With the services answering, a tick clears every PENDING row whose
    deadline has passed (and that carries an occupant to scan). *)
Lemma checkPaymentTimeouts_tick_clears now w k s :
  db w !! k = Some s → payment_status s = "PENDING" → timed_out now s = true →
  is_Some (user_id s) →
  db (checkPaymentTimeouts_tick no_faults now w) !! k = Some (clear_reservation s).
Proof.
  intros Hk Hst Hto [u Hu]. unfold checkPaymentTimeouts_tick.
  replace (no_faults BeginTx) with false by done.
  replace (no_faults QueryContext) with false by done.
  replace (no_faults Commit) with false by done.
  destruct (sweep_updates _ _ _ _) as [d r] eqn:Hrun. simpl.
  replace d with (sweep_updates no_faults
    (omap (scan_expired no_faults) (select_expired now (db w))) (db w) (rdb w)).1 by (by rewrite Hrun).
  rewrite sweep_updates_db, Hk. rewrite bool_decide_eq_true_2; [done|].
  apply list_elem_of_fmap. exists {| ExpiredSeat.id := k; ExpiredSeat.showID := show_id s; ExpiredSeat.userID := u |}.
  split; [done|]. apply list_elem_of_omap. exists (k, s). split.
  - unfold select_expired. apply elem_of_map_to_list, map_lookup_filter_Some.
    split_and!; try done. simpl. by rewrite Hto.
  - unfold scan_expired. simpl. by rewrite Hu.
Qed.

End sweeper.

(** * The status query *)

Section status_query.


Lemma sql_min_cons x l :
  sql_min (x :: l) = Some (match sql_min l with
                           | None => x
                           | Some m => if String.leb x m then x else m
                           end).
Proof. done. Qed.

Lemma bool_decide_elem_cons (a x : string) (l : list string) :
  bool_decide (a ∈ x :: l) = bool_decide (a = x) || bool_decide (a ∈ l).
Proof.
  destruct (decide (a = x)) as [->|Hne].
  - rewrite bool_decide_eq_true_2 by left. by rewrite bool_decide_eq_true_2.
  - rewrite (bool_decide_eq_false_2 (a = x)) by done. simpl.
    apply bool_decide_ext. rewrite elem_of_cons. split; [intros [?|?]; done | by right].
Qed.

(** Over the declared values, [MIN] in string order is COMPLETED before
    FAILED before PENDING. *)
Lemma sql_min_declared (l : list string) :
  Forall declared l →
  sql_min l =
    if bool_decide ("COMPLETED" ∈ l) then Some "COMPLETED"
    else if bool_decide ("FAILED" ∈ l) then Some "FAILED"
    else if bool_decide (l = []) then None
    else Some "PENDING".
Proof.
  induction 1 as [|x l Hx Hl IH]; [done|].
  rewrite sql_min_cons, IH, !bool_decide_elem_cons.
  rewrite (bool_decide_eq_false_2 (x :: l = [])) by done.
  destruct Hx as [->|[->| ->]];
    destruct (bool_decide ("COMPLETED" ∈ l)), (bool_decide ("FAILED" ∈ l)),
             (bool_decide (l = [])); done.
Qed.

Lemma session_statuses_elem sid (d : DB) st :
  st ∈ (λ kv : Z * Seat, payment_status kv.2) <$>
       map_to_list (filter (λ kv : Z * Seat, payment_session_id kv.2 = Some sid) d) ↔
  ∃ k s, d !! k = Some s ∧ holds sid s ∧ payment_status s = st.
Proof.
  rewrite list_elem_of_fmap. split.
  - intros ([k s] & -> & Hin). apply elem_of_map_to_list, map_lookup_filter_Some in Hin as [? ?].
    by exists k, s.
  - intros (k & s & Hk & Hh & <-). exists (k, s). split; [done|].
    by apply elem_of_map_to_list, map_lookup_filter_Some.
Qed.

Lemma handleBookingStatus_declared sid w :
  sid ≠ "" →
  (∀ k s, db w !! k = Some s → holds sid s → declared (payment_status s)) →
  let statuses := (λ kv : Z * Seat, payment_status kv.2) <$>
       map_to_list (filter (λ kv : Z * Seat, payment_session_id kv.2 = Some sid) (db w)) in
  handleBookingStatus no_faults sid w =
    if bool_decide ("COMPLETED" ∈ statuses) then BookingStatus sid "COMPLETED"
    else if bool_decide ("FAILED" ∈ statuses) then BookingStatus sid "FAILED"
    else if bool_decide (statuses = []) then HttpError StatusNotFound "Booking not found"
    else BookingStatus sid "PENDING".
Proof.
  intros Hsid Hdecl statuses. unfold handleBookingStatus.
  rewrite bool_decide_eq_false_2 by done.
  replace (no_faults QueryContext) with false by done.
  fold statuses. rewrite sql_min_declared.
  2:{ apply Forall_forall. intros st Hst. apply session_statuses_elem in Hst as (k & s & ? & ? & <-).
      by eapply Hdecl. }
  repeat case_bool_decide; done.
Qed.

End status_query.

(** * Properties of the specification *)

(** ** Who increments the version (C1) *)

Lemma mark_all_versions_kept now u sid (l : list Z) (d : DB) :
  versions_kept d (ExecUpdate (λ k _, bool_decide (k ∈ l)) (mark_pending now u sid) d).2.
Proof.
  intros k. rewrite mark_all_lookup. case_bool_decide; [|done]. by destruct (d !! k).
Qed.

Lemma PessimisticLocking_versions_kept ft now u l b w :
  versions_kept (db w) (db (PessimisticLocking ft now u l b w).2).
Proof.
  destruct (PessimisticLocking ft now u l b w).1 as [e|] eqn:He.
  - by rewrite (PessimisticLocking_failure _ _ _ _ _ _ _ He).
  - apply PessimisticLocking_success in He as (_ & _ & ->). apply mark_all_versions_kept.
Qed.

Lemma BookMyShowTimeoutImp_versions_kept ft now u l b w :
  versions_kept (db w) (db (BookMyShowTimeoutImp ft now u l b w).2).
Proof.
  destruct (BookMyShowTimeoutImp ft now u l b w).1 as [e|] eqn:He.
  - by rewrite (BookMyShowTimeoutImp_failure _ _ _ _ _ _ _ He).
  - destruct l as [|first rest]; [done|].
    apply BookMyShowTimeoutImp_success in He as (_ & _ & _ & ->). apply mark_all_versions_kept.
Qed.

(** C1 as amended.  Only two writers increment the version.  A run of
    [OptimisticLocking] that returns no error, and a webhook delivery that
    is acknowledged, leave every row whose reservation columns they changed
    with its version increased by exactly one (against the table the
    concurrent writers left).  [PessimisticLocking],
    [BookMyShowTimeoutImp] and a tick of the sweeper never change a
    version, whatever they write. *)
Theorem version_incremented_by ft env now u l b sid st w :
  ((OptimisticLocking ft env now u l b w).1 = None →
     version_bumped (env (db w)) (db (OptimisticLocking ft env now u l b w).2)) ∧
  ((handlePaymentWebhook ft env now sid st w).1 = WebhookSuccess →
     version_bumped (env (db w)) (db (handlePaymentWebhook ft env now sid st w).2)) ∧
  versions_kept (db w) (db (PessimisticLocking ft now u l b w).2) ∧
  versions_kept (db w) (db (BookMyShowTimeoutImp ft now u l b w).2) ∧
  versions_kept (db w) (db (checkPaymentTimeouts_tick ft now w)).
Proof.
  split_and!.
  - intros Hok. apply OptimisticLocking_success in Hok as (_ & d' & Hrun & ->). simpl.
    apply optimistic_updates_success in Hrun as (_ & Hin & Hout).
    intros k s s' Hk Hk' Hne.
    destruct (decide (k ∈ l)) as [Hkl|Hkl].
    + destruct (Hin k Hkl) as (s1 & ? & _ & _ & ?). by simplify_eq.
    + rewrite Hout in Hk' by done. by simplify_eq.
  - intros Hok. destruct (handlePaymentWebhook_success _ _ _ _ _ _ Hok) as (Hin & Hout & _).
    intros k s s' Hk Hk' Hne.
    destruct (db w !! k) as [s0|] eqn:Hk0.
    + destruct (decide (payment_session_id s0 = Some sid ∧ payment_status s0 = "PENDING"))
        as [[Hsid Hst]|Hno].
      * destruct (Hin k s0 Hk0 Hsid Hst) as (s1 & ? & _ & ?). by simplify_eq.
      * rewrite Hout in Hk'; [|intros ? ?; by simplify_eq]. by simplify_eq.
    + rewrite Hout in Hk'; [|intros ? ?; by simplify_eq]. by simplify_eq.
  - apply PessimisticLocking_versions_kept.
  - apply BookMyShowTimeoutImp_versions_kept.
  - intros k. apply checkPaymentTimeouts_tick_versions.
Qed.

Lemma version_incremented_by_witness :
  version_bumped (id (db sample_world))
                 (db (OptimisticLocking no_faults id 0 7 [1; 2] "book_7_0" sample_world).2) ∧
  version_bumped (id (db held_world))
                 (db (handlePaymentWebhook no_faults id 10 "book_7_0" "COMPLETED" held_world).2).
Proof.
  split.
  - apply (version_incremented_by no_faults id 0 7 [1; 2] "book_7_0" "book_7_0" "COMPLETED"
             sample_world).
    vm_compute; reflexivity.
  - apply (version_incremented_by no_faults id 10 7 [1; 2] "book_7_0" "book_7_0" "COMPLETED"
             held_world).
    vm_compute; reflexivity.
Defined.

(** C1 as stated fails for three of the five writers.
    [PessimisticLocking] and [BookMyShowTimeoutImp] reserve the fresh seat
    1, the sweeper clears the held seat 1 after its deadline, and each
    time the version of the seat is the one before. *)
Lemma PessimisticLocking_keeps_version :
  ((PessimisticLocking no_faults 0 7 [1] "book_7_0" sample_world).1 = None ∧
   ¬ version_bumped (db sample_world)
                    (db (PessimisticLocking no_faults 0 7 [1] "book_7_0" sample_world).2)) ∧
  ((BookMyShowTimeoutImp no_faults 0 7 [1] "book_7_0" sample_world).1 = None ∧
   ¬ version_bumped (db sample_world)
                    (db (BookMyShowTimeoutImp no_faults 0 7 [1] "book_7_0" sample_world).2)) ∧
  ¬ version_bumped (db held_world) (db (checkPaymentTimeouts_tick no_faults 61 held_world)).
Proof.
  split_and!; try (vm_compute; reflexivity).
  - intros H.
    specialize (H 1 (fresh_seat 1 "A1") (mark_pending 0 7 "book_7_0" (fresh_seat 1 "A1"))).
    assert (version (mark_pending 0 7 "book_7_0" (fresh_seat 1 "A1"))
            = version (fresh_seat 1 "A1") + 1) as Hv; [|done].
    apply H; [vm_compute; reflexivity | vm_compute; reflexivity | done].
  - intros H.
    specialize (H 1 (fresh_seat 1 "A1") (mark_pending 0 7 "book_7_0" (fresh_seat 1 "A1"))).
    assert (version (mark_pending 0 7 "book_7_0" (fresh_seat 1 "A1"))
            = version (fresh_seat 1 "A1") + 1) as Hv; [|done].
    apply H; [vm_compute; reflexivity | vm_compute; reflexivity | done].
  - intros H.
    specialize (H 1 (mark_pending 0 7 "book_7_0" (fresh_seat 1 "A1"))
                  (clear_reservation (mark_pending 0 7 "book_7_0" (fresh_seat 1 "A1")))).
    assert (version (clear_reservation (mark_pending 0 7 "book_7_0" (fresh_seat 1 "A1")))
            = version (mark_pending 0 7 "book_7_0" (fresh_seat 1 "A1")) + 1) as Hv; [|done].
    apply H; [vm_compute; reflexivity | vm_compute; reflexivity | done].
Qed.

(** The version does not order the sweeper against the webhook: a tick
    that commits between the webhook's SELECT and its UPDATE leaves the
    captured version in place, so the delivery is acknowledged and seat 1
    ends COMPLETED and bookable, without occupant. *)
Example webhook_blind_to_sweeper :
  let sweep := λ d, db (checkPaymentTimeouts_tick no_faults 61 (set_db d held_world)) in
  let run := handlePaymentWebhook no_faults sweep 61 "book_7_0" "COMPLETED" held_world in
  run.1 = WebhookSuccess ∧
  ∃ s, db run.2 !! 1 = Some s ∧ payment_status s = "COMPLETED" ∧ bookable s = true ∧
       user_id s = None ∧ version s = 1.
Proof.
  split; [vm_compute; reflexivity|].
  eexists. split_and!; vm_compute; reflexivity.
Qed.

(** ** The key the sweeper deletes (C2) *)

(** C2, the code at the failing input.  Seat 1 is PENDING with its
    deadline (instant 60) passed and the key [seat_lock:1], taken by the
    booking attempt of user 8 at instant 30, is held until instant 90.
    The tick at instant 61 clears the seat to the bookable FAILED state
    and leaves the key in Redis: the sweeper deleted [lock:seat:1]. *)
Theorem sweeper_leaves_seat_lock :
  (∃ s, db stale_lock_world !! 1 = Some s ∧ payment_status s = "PENDING" ∧ timed_out 61 s = true) ∧
  redis_Get 61 (rdb stale_lock_world) (seat_lock_key 1) = Some (user_lock_value 8) ∧
  (∃ s', db (checkPaymentTimeouts_tick no_faults 61 stale_lock_world) !! 1 = Some s' ∧
         bookable s' = true ∧ payment_status s' = "FAILED" ∧ is_reserved s' = false ∧
         user_id s' = None ∧ payment_session_id s' = None) ∧
  redis_Get 61 (rdb (checkPaymentTimeouts_tick no_faults 61 stale_lock_world)) (seat_lock_key 1)
    = Some (user_lock_value 8) ∧
  sweeper_key 1 = "lock:seat:1" ∧ seat_lock_key 1 = "seat_lock:1".
Proof.
  split_and!; try (vm_compute; reflexivity).
  - eexists. split_and!; vm_compute; reflexivity.
  - eexists. split_and!; vm_compute; reflexivity.
Qed.

(** ** The optimistic run (C3) *)

(** C3.  For a non-empty request: a run of [OptimisticLocking] that
    returns no error found every requested seat with the version it had at
    the read and left it with that version plus one, PENDING, reserved for
    the requester under the session token, and left every other row as the
    concurrent writers did; and a run (with the services answering) whose
    read found every seat but in which a conditional write changes no row
    returns an optimistic-lock conflict and leaves the table exactly as
    the concurrent writers did. *)
Theorem OptimisticLocking_versions ft env now u l b w :
  l ≠ [] →
  ((OptimisticLocking ft env now u l b w).1 = None →
   (∀ k, k ∈ l → ∃ s0 s',
       db w !! k = Some s0 ∧
       db (OptimisticLocking ft env now u l b w).2 !! k = Some s' ∧
       version s' = version s0 + 1 ∧
       payment_status s' = "PENDING" ∧ is_reserved s' = true ∧
       user_id s' = Some u ∧ payment_session_id s' = Some b) ∧
   (∀ k, k ∉ l → db (OptimisticLocking ft env now u l b w).2 !! k = env (db w) !! k)) ∧
  (length (select_bookable l (db w)) = length l →
   (∃ k, k ∈ l ∧ write_misses (db w) (env (db w)) k = true) →
   ∃ e, OptimisticLocking no_faults env now u l b w = (Some e, set_db (env (db w)) w) ∧
        kind e = OptimisticConflict).
Proof.
  intros Hl. split.
  - intros Hok. apply OptimisticLocking_success in Hok as (Hlen & d' & Hrun & ->).
    destruct (select_bookable_all _ _ Hlen) as [_ Hall].
    apply optimistic_updates_success in Hrun as (_ & Hin & Hout).
    split; [|done].
    intros k Hk. destruct (Hall k Hk) as (s0 & Hs0 & Hb0).
    destruct (Hin k Hk) as (s & Hs & Hv & Hb & Hk').
    rewrite (seatVersions_read l (db w) k s0) in Hv by done. simpl in Hv.
    exists s0, (mark_pending_versioned now u b s). simpl.
    split_and!; try done. by rewrite Hv.
  - intros Hlen (k & Hk & Hmiss).
    destruct (OptimisticLocking_conflict env now u l b w k Hl Hlen Hk Hmiss) as (k' & _ & ->).
    by exists (LockConflict k').
Qed.

(** The scenario of the design's section 8: seats 1 and 2 fresh, the
    optimistic request for both succeeds; a request for seat 2 that read
    before that commit loses. *)
Lemma OptimisticLocking_versions_witness :
  (∀ k, k ∈ [1; 2] → ∃ s0 s',
      db sample_world !! k = Some s0 ∧
      db (OptimisticLocking no_faults id 0 7 [1; 2] "book_7_0" sample_world).2 !! k = Some s' ∧
      version s' = version s0 + 1 ∧
      payment_status s' = "PENDING" ∧ is_reserved s' = true ∧
      user_id s' = Some 7 ∧ payment_session_id s' = Some "book_7_0") ∧
  (∃ e, OptimisticLocking no_faults first_writer 0 8 [2] "book_8_0" sample_world =
          (Some e, set_db (first_writer (db sample_world)) sample_world) ∧
        kind e = OptimisticConflict).
Proof.
  split.
  - apply (OptimisticLocking_versions no_faults id 0 7 [1; 2] "book_7_0" sample_world);
      [done | vm_compute; reflexivity].
  - apply (OptimisticLocking_versions no_faults first_writer 0 8 [2] "book_8_0" sample_world);
      [done | vm_compute; reflexivity |].
    exists 2. split; [apply list_elem_of_here | vm_compute; reflexivity].
Defined.

(** ** Replayed webhooks (C4) *)

(** C4.  When no seat is PENDING under the session token, the webhook
    leaves the world as it is, and with the store answering it replies 404
    "No pending seats found".  A session that an earlier acknowledged
    delivery of a terminal status (COMPLETED or FAILED) has finalized is
    such a token: the repeated delivery changes nothing and gets that same
    reply, the one a token nobody was given gets. *)
Theorem handlePaymentWebhook_replay ft env now sid st w :
  ((∀ k s, db w !! k = Some s → holds sid s → payment_status s ≠ "PENDING") →
   (handlePaymentWebhook ft env now sid st w).2 = w ∧
   (ft BeginTx = false → ft QueryContext = false →
    (handlePaymentWebhook ft env now sid st w).1
      = HttpError StatusNotFound "No pending seats found")) ∧
  (∀ ft0 now0 st0 w0,
     st0 = "COMPLETED" ∨ st0 = "FAILED" →
     (handlePaymentWebhook ft0 id now0 sid st0 w0).1 = WebhookSuccess →
     w = (handlePaymentWebhook ft0 id now0 sid st0 w0).2 →
     (handlePaymentWebhook ft env now sid st w).2 = w ∧
     (ft BeginTx = false → ft QueryContext = false →
      (handlePaymentWebhook ft env now sid st w).1
        = HttpError StatusNotFound "No pending seats found")).
Proof.
  split.
  - apply handlePaymentWebhook_not_found.
  - intros ft0 now0 st0 w0 Hst0 Hok ->.
    apply handlePaymentWebhook_not_found.
    apply handlePaymentWebhook_finalizes; [|done].
    rewrite enum_store_declared by (unfold declared; tauto).
    by destruct Hst0 as [-> | ->].
Qed.

(** The session of user 7 was confirmed at instant 10; the delivery is
    repeated at instant 11, and a delivery for a token nobody was given
    gets the same answer. *)
Lemma handlePaymentWebhook_replay_witness :
  ((handlePaymentWebhook no_faults id 11 "book_7_0" "COMPLETED" confirmed_world).2 = confirmed_world ∧
   (no_faults BeginTx = false → no_faults QueryContext = false →
    (handlePaymentWebhook no_faults id 11 "book_7_0" "COMPLETED" confirmed_world).1
      = HttpError StatusNotFound "No pending seats found")) ∧
  ((handlePaymentWebhook no_faults id 11 "book_9_9" "COMPLETED" confirmed_world).2 = confirmed_world ∧
   (no_faults BeginTx = false → no_faults QueryContext = false →
    (handlePaymentWebhook no_faults id 11 "book_9_9" "COMPLETED" confirmed_world).1
      = HttpError StatusNotFound "No pending seats found")).
Proof.
  split.
  - destruct (handlePaymentWebhook_replay no_faults id 11 "book_7_0" "COMPLETED" confirmed_world)
      as [_ Hreplay].
    apply (Hreplay no_faults 10 "COMPLETED" held_world);
      [by left | vm_compute; reflexivity | reflexivity].
  - destruct (handlePaymentWebhook_replay no_faults id 11 "book_9_9" "COMPLETED" confirmed_world)
      as [Hunknown _].
    apply Hunknown. intros k s Hk Hsid Hst.
    assert ((k, s) ∈ select_pending "book_9_9" (db confirmed_world)) as Hin
      by (by apply select_pending_lookup).
    vm_compute in Hin. by apply elem_of_nil in Hin.
Defined.

(** ** All or nothing (C5) *)

(** C5.  Whenever one of the three lockers returns an error, or the
    webhook answers anything but success, the seat table afterwards is the
    table before the call, or, for the two READ COMMITTED transactions, the
    table as the concurrent writers left it: the failed attempt itself
    changed no row.  In particular, with the services answering, a request
    that lists a seat [B] whose row is not bookable fails with the
    seats-unavailable error in the pessimistic and optimistic lockers and
    the world is the one before; [BookMyShowTimeoutImp] fails too, with
    that error or earlier on a held lock, and the table is the one before. *)
Theorem failed_attempt_changes_no_seat ft env now u l b sid st w :
  (∀ e, (PessimisticLocking ft now u l b w).1 = Some e →
        db (PessimisticLocking ft now u l b w).2 = db w) ∧
  (∀ e, (OptimisticLocking ft env now u l b w).1 = Some e →
        db (OptimisticLocking ft env now u l b w).2 = db w ∨
        db (OptimisticLocking ft env now u l b w).2 = env (db w)) ∧
  (∀ e, (BookMyShowTimeoutImp ft now u l b w).1 = Some e →
        db (BookMyShowTimeoutImp ft now u l b w).2 = db w) ∧
  ((handlePaymentWebhook ft env now sid st w).1 ≠ WebhookSuccess →
        db (handlePaymentWebhook ft env now sid st w).2 = db w ∨
        db (handlePaymentWebhook ft env now sid st w).2 = env (db w)) ∧
  (∀ B, B ∈ l → (∀ s, db w !! B = Some s → bookable s = false) →
        PessimisticLocking no_faults now u l b w = (Some SeatsNotAvailable, w) ∧
        OptimisticLocking no_faults env now u l b w = (Some SeatsNotAvailable, w) ∧
        kind SeatsNotAvailable = SeatsUnavailable ∧
        ∃ e, (BookMyShowTimeoutImp no_faults now u l b w).1 = Some e ∧
             (kind e = SeatsUnavailable ∨ kind e = LockContention) ∧
             db (BookMyShowTimeoutImp no_faults now u l b w).2 = db w).
Proof.
  split_and!.
  - intros e He. by rewrite (PessimisticLocking_failure _ _ _ _ _ _ _ He).
  - intros e He. destruct (OptimisticLocking_failure _ _ _ _ _ _ _ _ He) as [-> | ->]; auto.
  - intros e He. by eapply BookMyShowTimeoutImp_failure.
  - intros Hne. destruct (handlePaymentWebhook_failure _ _ _ _ _ _ Hne) as [-> | ->]; auto.
  - intros B HB Hnb.
    assert (l ≠ []) as Hl by (intros ->; by apply elem_of_nil in HB).
    pose proof (not_bookable_row_short l (db w) B HB Hnb) as Hlen.
    split_and!; [by apply PessimisticLocking_unavailable
                | by apply OptimisticLocking_unavailable | done |].
    destruct l as [|first rest]; [done|].
    destruct (redis_Get now (rdb w) (seat_lock_key first)) as [h|] eqn:Hget.
    + rewrite (BookMyShowTimeoutImp_contention no_faults now u first rest b w h) by done.
      eexists. split_and!; [done | by right | done].
    + rewrite BookMyShowTimeoutImp_unavailable by done.
      eexists. split_and!; [done | by left | done].
Qed.

(** Seats 1 and 2 asked for together while seat 1 is held: seat 2 stays
    as it was. *)
Lemma failed_attempt_changes_no_seat_witness :
  db (PessimisticLocking no_faults 5 8 [2; 1] "book_8_5" held_world).2 = db held_world ∧
  db (BookMyShowTimeoutImp no_faults 5 8 [2; 1] "book_8_5" held_world).2 = db held_world ∧
  (db (handlePaymentWebhook no_faults id 5 "book_8_5" "FAILED" held_world).2 = db held_world ∨
   db (handlePaymentWebhook no_faults id 5 "book_8_5" "FAILED" held_world).2 = id (db held_world)) ∧
  PessimisticLocking no_faults 5 8 [2; 1] "book_8_5" held_world = (Some SeatsNotAvailable, held_world) ∧
  OptimisticLocking no_faults id 5 8 [2; 1] "book_8_5" held_world = (Some SeatsNotAvailable, held_world) ∧
  kind SeatsNotAvailable = SeatsUnavailable ∧
  ∃ e, (BookMyShowTimeoutImp no_faults 5 8 [2; 1] "book_8_5" held_world).1 = Some e ∧
       (kind e = SeatsUnavailable ∨ kind e = LockContention) ∧
       db (BookMyShowTimeoutImp no_faults 5 8 [2; 1] "book_8_5" held_world).2 = db held_world.
Proof.
  destruct (failed_attempt_changes_no_seat no_faults id 5 8 [2; 1] "book_8_5" "book_8_5" "FAILED"
              held_world) as (Hp & _ & Hb & Hw & Hab).
  split_and!.
  - apply (Hp SeatsNotAvailable). vm_compute; reflexivity.
  - apply (Hb SeatsNotAvailable). vm_compute; reflexivity.
  - apply Hw. vm_compute. discriminate.
  - apply (Hab 1); [apply list_elem_of_further, list_elem_of_here|].
    intros s Hs. vm_compute in Hs. by simplify_eq.
  - apply (Hab 1); [apply list_elem_of_further, list_elem_of_here|].
    intros s Hs. vm_compute in Hs. by simplify_eq.
  - done.
  - apply (Hab 1); [apply list_elem_of_further, list_elem_of_here|].
    intros s Hs. vm_compute in Hs. by simplify_eq.
Defined.

(** ** The coordinator (C6) *)

(** C6.  [BookSeats] hands the request to the locker its method names and
    returns that locker's result and world as they are; for any other
    method name it returns the invalid-method error, classified as invalid
    input, and the world it was given, whatever the services would have
    answered. *)
Theorem BookSeats_dispatch ft env now req b w :
  (Method req = "pessimistic" →
     BookSeats ft env now req b w = PessimisticLocking ft now (UserID req) (SeatIDs req) b w) ∧
  (Method req = "optimistic" →
     BookSeats ft env now req b w = OptimisticLocking ft env now (UserID req) (SeatIDs req) b w) ∧
  (Method req = "current" →
     BookSeats ft env now req b w = BookMyShowTimeoutImp ft now (UserID req) (SeatIDs req) b w) ∧
  (Method req ≠ "pessimistic" → Method req ≠ "optimistic" → Method req ≠ "current" →
     BookSeats ft env now req b w = (Some (InvalidMethod (Method req)), w) ∧
     kind (InvalidMethod (Method req)) = InvalidInput).
Proof.
  unfold BookSeats. split_and!.
  - intros ->. done.
  - intros ->. done.
  - intros ->. done.
  - intros H1 H2 H3. by rewrite !bool_decide_eq_false_2.
Qed.

Lemma BookSeats_dispatch_witness :
  BookSeats no_faults id 0 {| UserID := 7; ShowID := 1; SeatIDs := [1]; Method := "optimistic" |}
            "book_7_0" sample_world =
    OptimisticLocking no_faults id 0 7 [1] "book_7_0" sample_world ∧
  BookSeats no_faults id 0 {| UserID := 7; ShowID := 1; SeatIDs := [1]; Method := "serializable" |}
            "book_7_0" sample_world =
    (Some (InvalidMethod "serializable"), sample_world) ∧
  kind (InvalidMethod "serializable") = InvalidInput.
Proof.
  split.
  - by apply (BookSeats_dispatch no_faults id 0
      {| UserID := 7; ShowID := 1; SeatIDs := [1]; Method := "optimistic" |}).
  - by apply (BookSeats_dispatch no_faults id 0
      {| UserID := 7; ShowID := 1; SeatIDs := [1]; Method := "serializable" |}).
Defined.

(** ** The status query (C7) *)

(** What the query computes.  For a non-empty token whose seats carry
    declared statuses, the status query (the store answering) replies 404
    when no seat holds the token and otherwise the smallest status in
    string order: COMPLETED if a seat of the session is COMPLETED, else
    FAILED if one is FAILED, else PENDING.  [MIN] is taken over a column
    declared in the order of the life cycle, PENDING first, but compares
    the names. *)
Theorem handleBookingStatus_string_min sid w :
  sid ≠ "" →
  (∀ k s, db w !! k = Some s → holds sid s → declared (payment_status s)) →
  ((∀ k s, db w !! k = Some s → ¬ holds sid s) →
     handleBookingStatus no_faults sid w = HttpError StatusNotFound "Booking not found") ∧
  ((∃ k s, db w !! k = Some s ∧ holds sid s ∧ payment_status s = "COMPLETED") →
     handleBookingStatus no_faults sid w = BookingStatus sid "COMPLETED") ∧
  ((∃ k s, db w !! k = Some s ∧ holds sid s ∧ payment_status s = "FAILED") →
   (∀ k s, db w !! k = Some s → holds sid s → payment_status s ≠ "COMPLETED") →
     handleBookingStatus no_faults sid w = BookingStatus sid "FAILED") ∧
  ((∃ k s, db w !! k = Some s ∧ holds sid s) →
   (∀ k s, db w !! k = Some s → holds sid s → payment_status s = "PENDING") →
     handleBookingStatus no_faults sid w = BookingStatus sid "PENDING").
Proof.
  intros Hsid Hdecl. rewrite (handleBookingStatus_declared sid w Hsid Hdecl).
  cbv zeta. split_and!.
  - intros Hnone.
    assert (∀ st, st ∉ (λ kv : Z * Seat, payment_status kv.2) <$>
       map_to_list (filter (λ kv : Z * Seat, payment_session_id kv.2 = Some sid) (db w))) as Hno.
    { intros st Hin. apply session_statuses_elem in Hin as (k & s & Hk & Hh & _). by eapply Hnone. }
    rewrite !bool_decide_eq_false_2 by apply Hno.
    rewrite bool_decide_eq_true_2; [done|].
    destruct (_ <$> _) as [|st ?]; [done|]. exfalso. apply (Hno st), list_elem_of_here.
  - intros Hc. rewrite bool_decide_eq_true_2; [done|]. by apply session_statuses_elem.
  - intros Hf Hnc. rewrite bool_decide_eq_false_2.
    2:{ intros Hin. apply session_statuses_elem in Hin as (k & s & Hk & Hh & Hst). by eapply Hnc. }
    rewrite bool_decide_eq_true_2; [done|]. by apply session_statuses_elem.
  - intros (k & s & Hk & Hh) Hall.
    rewrite bool_decide_eq_false_2.
    2:{ intros Hin. apply session_statuses_elem in Hin as (k' & s' & Hk' & Hh' & Hst').
        rewrite (Hall k' s') in Hst'; done. }
    rewrite bool_decide_eq_false_2.
    2:{ intros Hin. apply session_statuses_elem in Hin as (k' & s' & Hk' & Hh' & Hst').
        rewrite (Hall k' s') in Hst'; done. }
    rewrite bool_decide_eq_false_2; [done|].
    intros Hnil.
    assert (payment_status s ∈ (λ kv : Z * Seat, payment_status kv.2) <$>
       map_to_list (filter (λ kv : Z * Seat, payment_session_id kv.2 = Some sid) (db w))) as Hin.
    { apply session_statuses_elem. by exists k, s. }
    rewrite Hnil in Hin. by apply elem_of_nil in Hin.
Qed.

Lemma handleBookingStatus_string_min_witness :
  handleBookingStatus no_faults "book_7_0" mixed_world = BookingStatus "book_7_0" "COMPLETED" ∧
  handleBookingStatus no_faults "book_7_0" held_world = BookingStatus "book_7_0" "PENDING" ∧
  handleBookingStatus no_faults "book_9_9" held_world = HttpError StatusNotFound "Booking not found".
Proof.
  assert (∀ sid w, Forall (λ kv : Z * Seat, declared (payment_status kv.2))
            (map_to_list (filter (λ kv : Z * Seat, payment_session_id kv.2 = Some sid) (db w))) →
          ∀ k s, db w !! k = Some s → holds sid s → declared (payment_status s)) as Hdecl.
  { intros sid w HF k s Hk Hh. rewrite Forall_forall in HF.
    apply (HF (k, s)). by apply elem_of_map_to_list, map_lookup_filter_Some. }
  split_and!.
  - apply (handleBookingStatus_string_min "book_7_0" mixed_world); [done | |].
    + apply Hdecl. vm_compute.
      repeat (apply Forall_cons; split; [auto|]). by apply Forall_nil.
    + exists 1. eexists. split_and!; vm_compute; reflexivity.
  - apply (handleBookingStatus_string_min "book_7_0" held_world); [done | | |].
    + apply Hdecl. vm_compute.
      repeat (apply Forall_cons; split; [auto|]). by apply Forall_nil.
    + exists 1. eexists. split; vm_compute; reflexivity.
    + intros k s Hk Hh.
      assert ((k, s) ∈ map_to_list (filter (λ kv : Z * Seat,
                payment_session_id kv.2 = Some "book_7_0") (db held_world))) as Hin
        by (by apply elem_of_map_to_list, map_lookup_filter_Some).
      vm_compute in Hin. apply list_elem_of_singleton in Hin. by simplify_eq.
  - apply (handleBookingStatus_string_min "book_9_9" held_world); [done | |].
    + apply Hdecl. vm_compute. by apply Forall_nil.
    + intros k s Hk Hh.
      assert ((k, s) ∈ map_to_list (filter (λ kv : Z * Seat,
                payment_session_id kv.2 = Some "book_9_9") (db held_world))) as Hin
        by (by apply elem_of_map_to_list, map_lookup_filter_Some).
      vm_compute in Hin. by apply elem_of_nil in Hin.
Defined.

(** C7, the code at the failing input.  Seats 1 and 2 carry the token
    "book_7_0"; seat 1 is COMPLETED and seat 2 is still PENDING.  The
    least advanced status of the session is PENDING; the query answers
    COMPLETED, the smallest name. *)
Theorem handleBookingStatus_not_least_advanced :
  (∃ s1, db mixed_world !! 1 = Some s1 ∧ holds "book_7_0" s1 ∧ payment_status s1 = "COMPLETED") ∧
  (∃ s2, db mixed_world !! 2 = Some s2 ∧ holds "book_7_0" s2 ∧ payment_status s2 = "PENDING") ∧
  handleBookingStatus no_faults "book_7_0" mixed_world = BookingStatus "book_7_0" "COMPLETED" ∧
  sql_min ["COMPLETED"; "PENDING"] = Some "COMPLETED" ∧
  ¬ answers_least_advanced "book_7_0" mixed_world.
Proof.
  split_and!; try (vm_compute; reflexivity).
  - eexists. split_and!; vm_compute; reflexivity.
  - eexists. split_and!; vm_compute; reflexivity.
  - intros H. apply (H "COMPLETED"); [vm_compute; reflexivity|].
    exists 2. eexists. split_and!; [vm_compute; reflexivity | vm_compute; reflexivity |].
    split; [vm_compute; reflexivity | by left].
Qed.

(** ** The external lock of [BookMyShowTimeoutImp] (C8) *)

(** C8.  For a request [first :: rest] the only Redis key
    [BookMyShowTimeoutImp] touches is the one built from [first].  When
    that key is held, the call returns the lock error without touching
    the table or Redis and logs the holder it read.  When the call
    succeeds, the key was free and Redis afterwards is the old keyspace
    with that key set to the requester's tag, expiring one minute later:
    the entry is still there when the function returns. *)
Theorem BookMyShowTimeoutImp_lock ft now u first rest b w :
  let key := seat_lock_key first in
  let run := BookMyShowTimeoutImp ft now u (first :: rest) b w in
  (∀ k, k ≠ key → rdb run.2 !! k = rdb w !! k) ∧
  (∀ h, ft (SetNX key) = false → redis_Get now (rdb w) key = Some h →
     run.1 = Some (LockNotAcquired key) ∧ kind (LockNotAcquired key) = LockContention ∧
     db run.2 = db w ∧ rdb run.2 = rdb w ∧
     log run.2 = log w ++ [LockHolderLog u (if ft (Get key) then "" else h)]) ∧
  (run.1 = None →
     redis_Get now (rdb w) key = None ∧
     rdb run.2 = <[key := (user_lock_value u, now + minute)]> (rdb w) ∧
     redis_Get now (rdb run.2) key = Some (user_lock_value u) ∧
     ∀ t, now + minute ≤ t → redis_Get t (rdb run.2) key = None).
Proof.
  intros key run. split_and!.
  - intros k Hk. subst run.
    destruct (ft (SetNX key)) eqn:Hft.
    { unfold BookMyShowTimeoutImp. fold key. by rewrite Hft. }
    destruct (redis_Get now (rdb w) key) as [h|] eqn:Hget.
    + by rewrite (BookMyShowTimeoutImp_contention ft now u first rest b w h).
    + destruct (BookMyShowTimeoutImp_acquired ft now u first rest b w Hft Hget) as [-> _].
      by rewrite lookup_insert_ne.
  - intros h Hft Hget. subst run.
    by rewrite (BookMyShowTimeoutImp_contention ft now u first rest b w h).
  - intros Hok. subst run.
    apply BookMyShowTimeoutImp_success in Hok as (Hft & Hget & _ & _).
    destruct (BookMyShowTimeoutImp_acquired ft now u first rest b w Hft Hget) as [Hr _].
    fold key in Hr. rewrite Hr. split_and!; try done.
    + rewrite redis_Get_insert. rewrite bool_decide_eq_true_2; [done|]. unfold minute. lia.
    + intros t Ht. rewrite redis_Get_insert. rewrite bool_decide_eq_false_2; [done|]. lia.
Qed.

Lemma BookMyShowTimeoutImp_lock_witness :
  ((BookMyShowTimeoutImp no_faults 30 8 [1; 2] "book_8_30" contended_world).1
     = Some (LockNotAcquired (seat_lock_key 1)) ∧
   kind (LockNotAcquired (seat_lock_key 1)) = LockContention ∧
   db (BookMyShowTimeoutImp no_faults 30 8 [1; 2] "book_8_30" contended_world).2 = db contended_world ∧
   rdb (BookMyShowTimeoutImp no_faults 30 8 [1; 2] "book_8_30" contended_world).2 = rdb contended_world ∧
   log (BookMyShowTimeoutImp no_faults 30 8 [1; 2] "book_8_30" contended_world).2
     = log contended_world ++ [LockHolderLog 8 "user:8"]) ∧
  (redis_Get 0 (rdb sample_world) (seat_lock_key 1) = None ∧
   rdb (BookMyShowTimeoutImp no_faults 0 7 [1; 2] "book_7_0" sample_world).2
     = <[seat_lock_key 1 := (user_lock_value 7, 0 + minute)]> (rdb sample_world) ∧
   redis_Get 0 (rdb (BookMyShowTimeoutImp no_faults 0 7 [1; 2] "book_7_0" sample_world).2)
             (seat_lock_key 1) = Some (user_lock_value 7) ∧
   ∀ t, 0 + minute ≤ t →
        redis_Get t (rdb (BookMyShowTimeoutImp no_faults 0 7 [1; 2] "book_7_0" sample_world).2)
                  (seat_lock_key 1) = None).
Proof.
  split.
  - destruct (BookMyShowTimeoutImp_lock no_faults 30 8 1 [2] "book_8_30" contended_world)
      as (_ & Hheld & _).
    apply (Hheld "user:8"); vm_compute; reflexivity.
  - destruct (BookMyShowTimeoutImp_lock no_faults 0 7 1 [2] "book_7_0" sample_world)
      as (_ & _ & Hfree).
    apply Hfree. vm_compute; reflexivity.
Defined.

(** ** The status written unchecked (C9) *)

(** C9.  The webhook does not look at the status it is given: for a
    session that has a PENDING seat (every such seat carrying its
    occupant, the services answering, nothing committed in between) it
    answers success whatever the status is, and when the status is one of
    the three values of the column, PENDING included, every seat of the
    session carries exactly that status afterwards, with its version
    increased by one.  Sent "PENDING", it leaves every seat of the session
    PENDING under the same token with its version increased by one, and
    any later delivery for the session is accepted again. *)
Theorem handlePaymentWebhook_pending_again now sid w :
  (∃ k s, db w !! k = Some s ∧ holds sid s ∧ payment_status s = "PENDING") →
  (∀ k s, db w !! k = Some s → holds sid s → payment_status s = "PENDING" → is_Some (user_id s)) →
  (∀ st, (handlePaymentWebhook no_faults id now sid st w).1 = WebhookSuccess ∧
         (declared st →
          ∀ k s, db w !! k = Some s → holds sid s → payment_status s = "PENDING" →
            ∃ s', db (handlePaymentWebhook no_faults id now sid st w).2 !! k = Some s' ∧
                  payment_status s' = st ∧ version s' = version s + 1 ∧ holds sid s')) ∧
  (handlePaymentWebhook no_faults id now sid "PENDING" w).1 = WebhookSuccess ∧
  (∀ k s, db w !! k = Some s → holds sid s → payment_status s = "PENDING" →
     ∃ s', db (handlePaymentWebhook no_faults id now sid "PENDING" w).2 !! k = Some s' ∧
           version s' = version s + 1 ∧ payment_status s' = "PENDING" ∧ holds sid s') ∧
  (∀ now' st', (handlePaymentWebhook no_faults id now' sid st'
                  (handlePaymentWebhook no_faults id now sid "PENDING" w).2).1 = WebhookSuccess).
Proof.
  intros Hex Huser.
  assert (∀ st k s, db w !! k = Some s → holds sid s → payment_status s = "PENDING" →
            db (handlePaymentWebhook no_faults id now sid st w).2 !! k
              = Some (set_status (status_conv w) st s)) as Hin'.
  { intros st k s Hk Hsid Hst.
    pose proof (handlePaymentWebhook_accepts now sid st w Hex Huser) as Hok.
    destruct (handlePaymentWebhook_success _ _ _ _ _ _ Hok) as (Hin & _ & _).
    destruct (Hin k s Hk Hsid Hst) as (s1 & Hs1 & _ & ->).
    unfold id in Hs1. by simplify_eq. }
  pose proof (handlePaymentWebhook_accepts now sid "PENDING" w Hex Huser) as Hok.
  destruct (handlePaymentWebhook_success _ _ _ _ _ _ Hok) as (_ & Hout & _).
  split_and!; [| done | |].
  - intros st. split; [by apply handlePaymentWebhook_accepts|].
    intros Hdecl k s Hk Hsid Hst. exists (set_status (status_conv w) st s).
    rewrite (Hin' st k s) by done. split_and!; [done | | done | done].
    simpl. by apply enum_store_declared.
  - intros k s Hk Hsid Hst. exists (set_status (status_conv w) "PENDING" s).
    by rewrite (Hin' "PENDING" k s).
  - intros now' st'. apply handlePaymentWebhook_accepts.
    + destruct Hex as (k & s & Hk & Hsid & Hst).
      exists k, (set_status (status_conv w) "PENDING" s). by rewrite (Hin' "PENDING" k s).
    + intros k s' Hk' Hsid' Hst'.
      destruct (db w !! k) as [s|] eqn:Hk.
      * destruct (decide (payment_session_id s = Some sid ∧ payment_status s = "PENDING")) as [[Hsid Hst]|Hno].
        -- rewrite (Hin' "PENDING" k s) in Hk' by done. simplify_eq. simpl. by eapply Huser.
        -- rewrite Hout in Hk'; [|intros ? ?; by simplify_eq].
           unfold id in Hk'. simplify_eq. by destruct Hno.
      * rewrite Hout in Hk'; [|intros ? ?; by simplify_eq]. unfold id in Hk'. by simplify_eq.
Qed.

(** User 7 holds seat 1 under "book_7_0".  Delivered "COMPLETED", the
    seat is COMPLETED; delivered "PENDING", it is PENDING again and the
    session is open to a further delivery. *)
Lemma handlePaymentWebhook_pending_again_witness :
  (∃ s', db (handlePaymentWebhook no_faults id 10 "book_7_0" "COMPLETED" held_world).2 !! 1 = Some s' ∧
         payment_status s' = "COMPLETED" ∧
         version s' = version (mark_pending 0 7 "book_7_0" (fresh_seat 1 "A1")) + 1 ∧
         holds "book_7_0" s') ∧
  (handlePaymentWebhook no_faults id 10 "book_7_0" "PENDING" held_world).1 = WebhookSuccess ∧
  (∀ k s, db held_world !! k = Some s → holds "book_7_0" s → payment_status s = "PENDING" →
     ∃ s', db (handlePaymentWebhook no_faults id 10 "book_7_0" "PENDING" held_world).2 !! k = Some s' ∧
           version s' = version s + 1 ∧ payment_status s' = "PENDING" ∧ holds "book_7_0" s') ∧
  (∀ now' st', (handlePaymentWebhook no_faults id now' "book_7_0" st'
                  (handlePaymentWebhook no_faults id 10 "book_7_0" "PENDING" held_world).2).1
               = WebhookSuccess).
Proof.
  destruct (handlePaymentWebhook_pending_again 10 "book_7_0" held_world) as (Hany & Hrest).
  - exists 1. eexists. split_and!; vm_compute; reflexivity.
  - intros k s Hk Hsid Hst.
    assert ((k, s) ∈ select_pending "book_7_0" (db held_world)) as Hin
      by (by apply select_pending_lookup).
    vm_compute in Hin. apply list_elem_of_singleton in Hin. simplify_eq. by eexists.
  - split; [|exact Hrest].
    destruct (Hany "COMPLETED") as [_ Hwritten].
    apply (Hwritten ltac:(unfold declared; tauto) 1 (mark_pending 0 7 "book_7_0" (fresh_seat 1 "A1")));
      vm_compute; reflexivity.
Defined.

(** ** Repeated seat ids (C10) *)

(** C10 as amended.  With the services answering, a request that lists a
    seat id twice fails in [PessimisticLocking] and in [OptimisticLocking]
    with the seats-unavailable error and leaves the world as it was,
    bookable or not; [BookMyShowTimeoutImp] fails with that error when the
    key of the first seat is free, having taken the key, and with the lock
    error when the key is held. *)
Theorem repeated_seat_id_fails env now u first rest b w :
  ¬ NoDup (first :: rest) →
  PessimisticLocking no_faults now u (first :: rest) b w = (Some SeatsNotAvailable, w) ∧
  OptimisticLocking no_faults env now u (first :: rest) b w = (Some SeatsNotAvailable, w) ∧
  kind SeatsNotAvailable = SeatsUnavailable ∧
  (redis_Get now (rdb w) (seat_lock_key first) = None →
     BookMyShowTimeoutImp no_faults now u (first :: rest) b w =
     (Some SeatsNotAvailable,
      set_rdb (<[seat_lock_key first := (user_lock_value u, now + minute)]> (rdb w)) w)) ∧
  (∀ h, redis_Get now (rdb w) (seat_lock_key first) = Some h →
     BookMyShowTimeoutImp no_faults now u (first :: rest) b w =
     (Some (LockNotAcquired (seat_lock_key first)), add_log (LockHolderLog u h) w) ∧
     kind (LockNotAcquired (seat_lock_key first)) = LockContention).
Proof.
  intros Hdup.
  pose proof (select_bookable_duplicates (first :: rest) (db w) Hdup) as Hlen.
  split_and!.
  - by apply PessimisticLocking_unavailable.
  - by apply OptimisticLocking_unavailable.
  - done.
  - intros Hget. by apply BookMyShowTimeoutImp_unavailable.
  - intros h Hget. split; [|done].
    by rewrite (BookMyShowTimeoutImp_contention no_faults now u first rest b w h).
Qed.

Lemma repeated_seat_id_fails_witness :
  PessimisticLocking no_faults 0 7 [1; 1] "book_7_0" sample_world = (Some SeatsNotAvailable, sample_world) ∧
  OptimisticLocking no_faults id 0 7 [1; 1] "book_7_0" sample_world = (Some SeatsNotAvailable, sample_world) ∧
  kind SeatsNotAvailable = SeatsUnavailable ∧
  (redis_Get 0 (rdb sample_world) (seat_lock_key 1) = None →
     BookMyShowTimeoutImp no_faults 0 7 [1; 1] "book_7_0" sample_world =
     (Some SeatsNotAvailable,
      set_rdb (<[seat_lock_key 1 := (user_lock_value 7, 0 + minute)]> (rdb sample_world)) sample_world)) ∧
  (∀ h, redis_Get 0 (rdb sample_world) (seat_lock_key 1) = Some h →
     BookMyShowTimeoutImp no_faults 0 7 [1; 1] "book_7_0" sample_world =
     (Some (LockNotAcquired (seat_lock_key 1)), add_log (LockHolderLog 7 h) sample_world) ∧
     kind (LockNotAcquired (seat_lock_key 1)) = LockContention).
Proof.
  apply (repeated_seat_id_fails id 0 7 1 [1] "book_7_0" sample_world).
  intros Hnd. apply NoDup_cons in Hnd as [Hnin _]. apply Hnin, list_elem_of_here.
Defined.

(** C10 as stated fails: seat 1 is bookable, the request lists it twice,
    and [BookMyShowTimeoutImp] answers with the lock error, not with the
    seats-unavailable one, because another user's key is still held. *)
Lemma repeated_seat_id_lock_held :
  (∃ s, db contended_world !! 1 = Some s ∧ bookable s = true) ∧
  ¬ NoDup [1; 1] ∧
  ∃ e, (BookMyShowTimeoutImp no_faults 10 7 [1; 1] "book_7_10" contended_world).1 = Some e ∧
       kind e ≠ SeatsUnavailable.
Proof.
  split_and!.
  - eexists. split; vm_compute; reflexivity.
  - intros Hnd. apply NoDup_cons in Hnd as [Hnin _]. apply Hnin, list_elem_of_here.
  - eexists. split; [vm_compute; reflexivity | done].
Qed.

(** * Further properties of the code *)

(** ** The query texts *)

Section query_texts.

Lemma placeholders_app (a b : string) :
  placeholders (a +:+ b) = (placeholders a + placeholders b)%nat.
Proof. induction a as [|c a IH]; [done|]. simpl. rewrite IH. lia. Qed.

Lemma strings_Repeat_join (n : nat) :
  strings_Repeat "?," n +:+ "?" = String.concat "," (replicate (S n) "?").
Proof.
  induction n as [|n IH]; [done|].
  change (strings_Repeat "?," (S n) +:+ "?") with ("?," +:+ (strings_Repeat "?," n +:+ "?")).
  rewrite IH. done.
Qed.

Lemma placeholders_Repeat (n : nat) : placeholders (strings_Repeat "?," n) = n.
Proof.
  induction n as [|n IH]; [done|].
  change (strings_Repeat "?," (S n)) with ("?," +:+ strings_Repeat "?," n).
  by rewrite placeholders_app, IH.
Qed.

Lemma placeholders_generate (count : Z) :
  placeholders (generatePlaceholders count) = Z.to_nat count.
Proof.
  unfold generatePlaceholders. case_bool_decide; [simpl; lia|].
  rewrite placeholders_app, placeholders_Repeat. simpl. lia.
Qed.

Lemma string_length_app (a b : string) :
  String.length (a +:+ b) = (String.length a + String.length b)%nat.
Proof. induction a as [|c a IH]; [done|]. simpl. by rewrite IH. Qed.

Lemma length_Repeat (n : nat) : String.length (strings_Repeat "?," n) = (2 * n)%nat.
Proof.
  induction n as [|n IH]; [done|].
  change (strings_Repeat "?," (S n)) with ("?," +:+ strings_Repeat "?," n).
  rewrite string_length_app, IH. simpl. lia.
Qed.

End query_texts.

(** X1.  [generatePlaceholders count] is [count] question marks joined
    by commas, the empty text for a count that is not positive; it
    holds exactly [count] placeholders and no trailing comma. *)
Theorem generatePlaceholders_joined (count : Z) :
  generatePlaceholders count = String.concat "," (replicate (Z.to_nat count) "?") ∧
  placeholders (generatePlaceholders count) = Z.to_nat count ∧
  (0 < count → String.length (generatePlaceholders count) = Z.to_nat (2 * count - 1)).
Proof.
  split_and!.
  - unfold generatePlaceholders. case_bool_decide as Hc.
    + by replace (Z.to_nat count) with 0%nat by lia.
    + rewrite strings_Repeat_join. f_equal. f_equal. lia.
  - apply placeholders_generate.
  - intros Hc. unfold generatePlaceholders. rewrite bool_decide_eq_false_2 by lia.
    rewrite string_length_app, length_Repeat. simpl. lia.
Qed.

Lemma generatePlaceholders_joined_witness :
  String.length (generatePlaceholders 3) = Z.to_nat (2 * 3 - 1).
Proof. apply (generatePlaceholders_joined 3). lia. Defined.

(** X2.  Every statement the three lockers prepare carries as many
    placeholders as the argument list passed with it, whatever the seat
    list: the driver never sees an arity mismatch. *)
Theorem query_arity (now userID seatID version0 : Z) (sessionID : string) (seatIDs : list Z) :
  placeholders (lockQuery seatIDs) = length (lockArgs seatIDs) ∧
  placeholders (updateQuery seatIDs) = length (updateArgs now userID sessionID seatIDs) ∧
  placeholders (selectQuery seatIDs) = length (selectArgs seatIDs) ∧
  placeholders optimisticUpdateQuery = length (seatUpdateArgs now userID sessionID seatID version0) ∧
  placeholders (checkQuery seatIDs) = length (checkArgs seatIDs).
Proof.
  unfold lockQuery, updateQuery, selectQuery, checkQuery, lockArgs, updateArgs, selectArgs,
    checkArgs, sliceToInterface.
  rewrite !placeholders_app, !placeholders_generate, !length_app, !length_fmap, Nat2Z.id.
  split_and!; try done; vm_compute placeholders; simpl; lia.
Qed.

(** ** When a locker succeeds *)

Section locker_success.

Lemma PessimisticLocking_available now u l b w :
  l ≠ [] → length (select_bookable l (db w)) = length l →
  PessimisticLocking no_faults now u l b w =
  (None, set_db (ExecUpdate (λ k _, bool_decide (k ∈ l)) (mark_pending now u b) (db w)).2 w).
Proof.
  intros Hl Hlen. unfold PessimisticLocking. simpl.
  rewrite bool_decide_eq_false_2; [|by apply nonempty_length].
  rewrite bool_decide_eq_false_2; [done|]. by intros ?.
Qed.

Lemma BookMyShowTimeoutImp_available now u first rest b w :
  redis_Get now (rdb w) (seat_lock_key first) = None →
  length (select_bookable (first :: rest) (db w)) = length (first :: rest) →
  BookMyShowTimeoutImp no_faults now u (first :: rest) b w =
  (None,
   set_db (ExecUpdate (λ k _, bool_decide (k ∈ first :: rest)) (mark_pending now u b) (db w)).2
     (set_rdb (<[seat_lock_key first := (user_lock_value u, now + minute)]> (rdb w)) w)).
Proof.
  intros Hget Hlen. unfold BookMyShowTimeoutImp. simpl.
  rewrite redis_SetNX_free by done. simpl.
  rewrite bool_decide_eq_false_2; [done|]. by intros ?.
Qed.

(** With the services answering and every listed row carrying the version
    that was read and being bookable, the loop of conditional writes runs
    to its end. *)
Lemma optimistic_updates_hits now u sid (vs : gmap Z Z) (l : list Z) (d : DB) :
  NoDup l →
  (∀ k, k ∈ l → ∃ s, d !! k = Some s ∧ version s = default 0 (vs !! k) ∧ bookable s) →
  ∃ d', optimistic_updates no_faults now u sid vs l d = inr d'.
Proof.
  revert d. induction l as [|a l IH]; intros d Hnd Hall; [by eexists|].
  rewrite optimistic_updates_cons. cbv zeta.
  replace (no_faults (ExecContext (Some a))) with false by done.
  replace (no_faults (RowsAffected a)) with false by done.
  apply NoDup_cons in Hnd as [Ha Hnd].
  destruct (Hall a) as (s & Hs & Hv & Hb); [left|].
  rewrite bool_decide_eq_false_2.
  2:{ intros Hz. eapply ExecUpdate_by_id_zero in Hz; [|done].
      rewrite bool_decide_eq_true_2 in Hz by done. simpl in Hz. by rewrite Hz in Hb. }
  apply IH; [done|]. intros k Hk.
  destruct (Hall k) as (s1 & Hs1 & Hv1 & Hb1); [by right|].
  exists s1. split_and!; try done.
  rewrite ExecUpdate_by_id_lookup, bool_decide_eq_false_2; [done|]. by intros ->.
Qed.

Lemma write_misses_false (d_read d_write : DB) k s0 :
  d_read !! k = Some s0 →
  write_misses d_read d_write k = false ↔
  ∃ s, d_write !! k = Some s ∧ version s = version s0 ∧ bookable s.
Proof.
  intros Hs0. unfold write_misses. rewrite Hs0. destruct (d_write !! k) as [s|]; split.
  - intros H. apply negb_false_iff, andb_true_iff in H as [Hv%bool_decide_eq_true Hb].
    exists s. by rewrite Hb.
  - intros (s' & ? & Hv & Hb). simplify_eq. apply negb_false_iff, andb_true_iff.
    split; [by apply bool_decide_eq_true|]. by destruct (bookable s').
  - done.
  - by intros (s' & ? & _).
Qed.

Lemma bookable_request_count (l : list Z) (d : DB) :
  bookable_request l d ↔ l ≠ [] ∧ length (select_bookable l d) = length l.
Proof.
  split.
  - intros (Hl & Hnd & Hall). split; [done|]. by apply select_bookable_complete.
  - intros [Hl Hlen]. destruct (select_bookable_all _ _ Hlen) as [Hnd Hall]. done.
Qed.

Lemma db_set_db (d : DB) w : db (set_db d w) = d.
Proof. done. Qed.

Lemma mark_pending_not_bookable now u sid s : bookable (mark_pending now u sid s) = false.
Proof. done. Qed.

(** A request that names a seat whose row is missing or not bookable
    fails in every locker, whatever the services answer, and the table
    is not written. *)
Lemma PessimisticLocking_blocked ft now u l b w k :
  k ∈ l → (∀ s, db w !! k = Some s → bookable s = false) →
  (PessimisticLocking ft now u l b w).1 ≠ None ∧ (PessimisticLocking ft now u l b w).2 = w.
Proof.
  intros Hk Hnb.
  destruct (PessimisticLocking ft now u l b w).1 as [e|] eqn:He.
  - split; [done|]. by eapply PessimisticLocking_failure.
  - apply PessimisticLocking_success in He as (_ & Hlen & _).
    by destruct (not_bookable_row_short l (db w) k Hk Hnb).
Qed.

Lemma OptimisticLocking_blocked ft env now u l b w k :
  k ∈ l → (∀ s, db w !! k = Some s → bookable s = false) →
  (OptimisticLocking ft env now u l b w).1 ≠ None ∧ (OptimisticLocking ft env now u l b w).2 = w.
Proof.
  intros Hk Hnb. pose proof (not_bookable_row_short l (db w) k Hk Hnb) as Hlen.
  unfold OptimisticLocking.
  rewrite (bool_decide_eq_true_2 (length (select_bookable l (db w)) ≠ length l)) by done.
  repeat (case_match; simpl; try done).
Qed.

Lemma BookMyShowTimeoutImp_blocked ft now u l b w k :
  k ∈ l → (∀ s, db w !! k = Some s → bookable s = false) →
  (BookMyShowTimeoutImp ft now u l b w).1 ≠ None ∧
  db (BookMyShowTimeoutImp ft now u l b w).2 = db w.
Proof.
  intros Hk Hnb.
  destruct (BookMyShowTimeoutImp ft now u l b w).1 as [e|] eqn:He.
  - split; [done|]. by eapply BookMyShowTimeoutImp_failure.
  - destruct l as [|first rest]; [done|].
    apply BookMyShowTimeoutImp_success in He as (_ & _ & Hlen & _).
    by destruct (not_bookable_row_short _ (db w) k Hk Hnb).
Qed.

Lemma BookSeats_blocked ft env now req b w k :
  k ∈ SeatIDs req → (∀ s, db w !! k = Some s → bookable s = false) →
  (BookSeats ft env now req b w).1 ≠ None ∧ db (BookSeats ft env now req b w).2 = db w.
Proof.
  intros Hk Hnb. unfold BookSeats. repeat case_bool_decide.
  - destruct (PessimisticLocking_blocked ft now (UserID req) _ b w k Hk Hnb) as [? ->]. done.
  - destruct (OptimisticLocking_blocked ft env now (UserID req) _ b w k Hk Hnb) as [? ->]. done.
  - by apply (BookMyShowTimeoutImp_blocked ft now (UserID req) _ b w k).
  - done.
Qed.

(** A locker that succeeds leaves every seat it was asked for PENDING
    for the requester under the booking id, reserved, hence not bookable. *)
Lemma BookSeats_booked ft env now req b w k :
  (BookSeats ft env now req b w).1 = None → k ∈ SeatIDs req →
  ∃ s', db (BookSeats ft env now req b w).2 !! k = Some s' ∧
        is_reserved s' = true ∧ payment_status s' = "PENDING" ∧
        user_id s' = Some (UserID req) ∧ payment_session_id s' = Some b ∧
        payment_timeout s' = Some (now + minute) ∧
        payment_redirect_url s' = Some (redirect_url b).
Proof.
  unfold BookSeats. repeat case_bool_decide; [| | |done]; intros Hok Hk.
  - apply PessimisticLocking_success in Hok as (_ & Hlen & ->). rewrite db_set_db.
    destruct (select_bookable_all _ _ Hlen) as [_ Hall]. destruct (Hall k Hk) as (s & Hs & _).
    exists (mark_pending now (UserID req) b s).
    by rewrite mark_all_lookup, bool_decide_eq_true_2, Hs.
  - apply OptimisticLocking_success in Hok as (_ & d' & Hrun & ->). simpl.
    apply optimistic_updates_success in Hrun as (_ & Hin & _).
    destruct (Hin k Hk) as (s & _ & _ & _ & ->). by eexists.
  - destruct (SeatIDs req) as [|first rest] eqn:Hl; [done|].
    apply BookMyShowTimeoutImp_success in Hok as (_ & _ & Hlen & ->).
    destruct (select_bookable_all _ _ Hlen) as [_ Hall]. destruct (Hall k Hk) as (s & Hs & _).
    exists (mark_pending now (UserID req) b s).
    by rewrite mark_all_lookup, bool_decide_eq_true_2, Hs.
Qed.

(** With the services answering, [OptimisticLocking] returns no error
    exactly when the read finds every seat and no conditional write
    misses. *)
Lemma OptimisticLocking_success_iff env now u l b w :
  (OptimisticLocking no_faults env now u l b w).1 = None ↔
  bookable_request l (db w) ∧ ∀ k, k ∈ l → write_misses (db w) (env (db w)) k = false.
Proof.
  split.
  - intros Hok. pose proof Hok as Hok0.
    apply OptimisticLocking_success in Hok as (Hlen & d' & Hrun & _).
    assert (bookable_request l (db w)) as Hreq.
    { apply bookable_request_count. split; [|done]. by intros ->. }
    destruct (select_bookable_all _ _ Hlen) as [Hnd Hall].
    apply optimistic_updates_success in Hrun as (_ & Hin & _).
    split; [done|]. intros k Hk.
    destruct (Hall k Hk) as (s0 & Hs0 & Hb0). destruct (Hin k Hk) as (s & Hs & Hv & Hb & _).
    rewrite (seatVersions_read l (db w) k s0) in Hv by done.
    apply (write_misses_false _ _ _ s0 Hs0). by exists s.
  - intros [(Hl & Hnd & Hall) Hhit].
    assert (length (select_bookable l (db w)) = length l) as Hlen
      by (by apply select_bookable_complete).
    destruct (optimistic_updates_hits now u b
      (list_to_map ((λ kv : Z * Seat, (kv.1, version kv.2)) <$> select_bookable l (db w)))
      l (env (db w)) Hnd) as [d' Hrun].
    { intros k Hk. destruct (Hall k Hk) as (s0 & Hs0 & Hb0).
      apply (write_misses_false _ _ _ s0 Hs0) in Hhit as (s & Hs & Hv & Hb); [|done].
      exists s. by rewrite (seatVersions_read l (db w) k s0). }
    unfold OptimisticLocking. rewrite existsb_no_faults, Hrun. simpl.
    rewrite bool_decide_eq_false_2; [|by apply nonempty_length].
    rewrite bool_decide_eq_false_2; [done|]. by intros ?.
Qed.

Lemma OptimisticLocking_alone now u l b w :
  bookable_request l (db w) → (OptimisticLocking no_faults id now u l b w).1 = None.
Proof.
  intros Hreq. apply OptimisticLocking_success_iff. split; [done|].
  intros k Hk. destruct Hreq as (_ & _ & Hall). destruct (Hall k Hk) as (s0 & Hs0 & Hb0).
  apply (write_misses_false _ _ _ s0 Hs0). by exists s0.
Qed.

Lemma PessimisticLocking_alone now u l b w :
  bookable_request l (db w) → (PessimisticLocking no_faults now u l b w).1 = None.
Proof.
  intros [Hl Hlen]%bookable_request_count. by rewrite PessimisticLocking_available.
Qed.

End locker_success.

(** X3.  With the services answering, [PessimisticLocking] succeeds
    exactly when the request is not empty and names pairwise distinct
    seats whose rows are all bookable.  Whenever it succeeds, each of
    those rows has the reservation columns set (reserved, PENDING, the
    user, the booking id, its payment URL, a deadline one minute ahead)
    and its other columns kept; no other row and no Redis key changes. *)
Theorem PessimisticLocking_reserves now u l b w :
  ((PessimisticLocking no_faults now u l b w).1 = None ↔ bookable_request l (db w)) ∧
  (∀ ft, (PessimisticLocking ft now u l b w).1 = None →
     bookable_request l (db w) ∧
     (∀ k s, k ∈ l → db w !! k = Some s →
        db (PessimisticLocking ft now u l b w).2 !! k = Some (mark_pending now u b s)) ∧
     (∀ k, k ∉ l → db (PessimisticLocking ft now u l b w).2 !! k = db w !! k) ∧
     rdb (PessimisticLocking ft now u l b w).2 = rdb w).
Proof.
  split.
  - rewrite bookable_request_count. split.
    + intros Hok. by apply PessimisticLocking_success in Hok as (? & ? & _).
    + intros [Hl Hlen]. by rewrite PessimisticLocking_available.
  - intros ft Hok. apply PessimisticLocking_success in Hok as (Hl & Hlen & ->).
    rewrite db_set_db. split_and!; try done.
    + by apply bookable_request_count.
    + intros k s Hk Hs. by rewrite mark_all_lookup, bool_decide_eq_true_2, Hs.
    + intros k Hk. by rewrite mark_all_lookup, bool_decide_eq_false_2.
Qed.

Lemma PessimisticLocking_reserves_witness :
  (PessimisticLocking no_faults 0 7 [1; 2] "book_7_0" sample_world).1 = None ∧
  rdb (PessimisticLocking no_faults 0 7 [1; 2] "book_7_0" sample_world).2 = rdb sample_world.
Proof.
  destruct (PessimisticLocking_reserves 0 7 [1; 2] "book_7_0" sample_world) as [Hiff Heff].
  assert ((PessimisticLocking no_faults 0 7 [1; 2] "book_7_0" sample_world).1 = None) as Hok.
  { apply Hiff. apply bookable_request_count. split; [done | vm_compute; reflexivity]. }
  split; [done|]. by apply (Heff no_faults Hok).
Defined.

(** X4.  With the services answering, [BookMyShowTimeoutImp] succeeds
    exactly when the Redis key of the first seat is free and the request
    names pairwise distinct seats whose rows are all bookable.  Whenever
    it succeeds, each of those rows has the reservation columns set as by
    [PessimisticLocking] and no other row changes. *)
Theorem BookMyShowTimeoutImp_reserves now u first rest b w :
  ((BookMyShowTimeoutImp no_faults now u (first :: rest) b w).1 = None ↔
   redis_Get now (rdb w) (seat_lock_key first) = None ∧ bookable_request (first :: rest) (db w)) ∧
  (∀ ft, (BookMyShowTimeoutImp ft now u (first :: rest) b w).1 = None →
     bookable_request (first :: rest) (db w) ∧
     (∀ k s, k ∈ first :: rest → db w !! k = Some s →
        db (BookMyShowTimeoutImp ft now u (first :: rest) b w).2 !! k
          = Some (mark_pending now u b s)) ∧
     (∀ k, k ∉ first :: rest →
        db (BookMyShowTimeoutImp ft now u (first :: rest) b w).2 !! k = db w !! k)).
Proof.
  split.
  - rewrite bookable_request_count. split.
    + intros Hok. by apply BookMyShowTimeoutImp_success in Hok as (_ & ? & ? & _).
    + intros [Hget [_ Hlen]]. by rewrite BookMyShowTimeoutImp_available.
  - intros ft Hok. apply BookMyShowTimeoutImp_success in Hok as (_ & _ & Hlen & ->).
    split_and!.
    + by apply bookable_request_count.
    + intros k s Hk Hs. by rewrite mark_all_lookup, bool_decide_eq_true_2, Hs.
    + intros k Hk. by rewrite mark_all_lookup, bool_decide_eq_false_2.
Qed.

Lemma BookMyShowTimeoutImp_reserves_witness :
  (BookMyShowTimeoutImp no_faults 0 7 [1; 2] "book_7_0" sample_world).1 = None ∧
  bookable_request [1; 2] (db sample_world).
Proof.
  destruct (BookMyShowTimeoutImp_reserves 0 7 1 [2] "book_7_0" sample_world) as [Hiff Heff].
  assert ((BookMyShowTimeoutImp no_faults 0 7 [1; 2] "book_7_0" sample_world).1 = None) as Hok.
  { apply Hiff. split; [vm_compute; reflexivity|].
    apply bookable_request_count. split; [done | vm_compute; reflexivity]. }
  split; [done|]. by apply (Heff no_faults Hok).
Defined.

(** X5.  With the services answering, [OptimisticLocking] succeeds
    exactly when the request names pairwise distinct seats whose rows are
    bookable at the read and every one of those rows, as the concurrent
    writers left it, still has the version read and is still bookable.
    When nobody commits in between, the condition at the read is enough. *)
Theorem OptimisticLocking_succeeds env now u l b w :
  ((OptimisticLocking no_faults env now u l b w).1 = None ↔
   bookable_request l (db w) ∧ ∀ k, k ∈ l → write_misses (db w) (env (db w)) k = false) ∧
  ((OptimisticLocking no_faults id now u l b w).1 = None ↔ bookable_request l (db w)).
Proof.
  split; [apply OptimisticLocking_success_iff|].
  split; [|apply OptimisticLocking_alone].
  by intros [? _]%OptimisticLocking_success_iff.
Qed.

Lemma OptimisticLocking_succeeds_witness :
  (OptimisticLocking no_faults id 0 7 [1; 2] "book_7_0" sample_world).1 = None.
Proof.
  apply (OptimisticLocking_succeeds id 0 7 [1; 2] "book_7_0" sample_world).
  apply bookable_request_count. split; [done | vm_compute; reflexivity].
Defined.

(** X6.  No seat is booked twice in a row.  After a [BookSeats] call
    that succeeded, any further call that names one of its seats fails,
    under every method name, whatever the services answer and whatever
    others commit meanwhile, and it leaves the seat table as the first
    call left it. *)
Theorem no_double_booking ft1 env1 now1 req1 b1 ft2 env2 now2 req2 b2 w k :
  (BookSeats ft1 env1 now1 req1 b1 w).1 = None →
  k ∈ SeatIDs req1 → k ∈ SeatIDs req2 →
  (BookSeats ft2 env2 now2 req2 b2 (BookSeats ft1 env1 now1 req1 b1 w).2).1 ≠ None ∧
  db (BookSeats ft2 env2 now2 req2 b2 (BookSeats ft1 env1 now1 req1 b1 w).2).2
    = db (BookSeats ft1 env1 now1 req1 b1 w).2.
Proof.
  intros Hok Hk1 Hk2.
  destruct (BookSeats_booked _ _ _ _ _ _ k Hok Hk1) as (s' & Hs' & Hres & Hst & _).
  apply (BookSeats_blocked _ _ _ _ _ _ k Hk2).
  intros s Hs. simplify_eq. unfold bookable. by rewrite Hres, Hst.
Qed.

Lemma no_double_booking_witness :
  (BookSeats no_faults id 5 {| UserID := 8; ShowID := 1; SeatIDs := [2; 3]; Method := "optimistic" |}
     "book_8_5"
     (BookSeats no_faults id 0 {| UserID := 7; ShowID := 1; SeatIDs := [1; 2]; Method := "pessimistic" |}
        "book_7_0" sample_world).2).1 ≠ None.
Proof.
  apply (no_double_booking no_faults id 0
           {| UserID := 7; ShowID := 1; SeatIDs := [1; 2]; Method := "pessimistic" |} "book_7_0"
           no_faults id 5
           {| UserID := 8; ShowID := 1; SeatIDs := [2; 3]; Method := "optimistic" |} "book_8_5"
           sample_world 2).
  - vm_compute; reflexivity.
  - apply list_elem_of_further, list_elem_of_here.
  - apply list_elem_of_here.
Defined.

(** ** After the payment outcome *)

(** X7.  The status an acknowledged webhook writes decides whether the
    seat returns to sale.  For a status that is one of the three values
    of the column, every seat that was PENDING under the session carries
    it afterwards.  Delivered "FAILED", the seat is bookable and a request
    for it alone succeeds in the pessimistic and (run alone) the
    optimistic locker; delivered "COMPLETED" or "PENDING" while the row is
    reserved, every later [BookSeats] call naming the seat fails. *)
Theorem payment_outcome_decides_sale ft env now sid st w k s :
  declared st →
  (handlePaymentWebhook ft env now sid st w).1 = WebhookSuccess →
  db w !! k = Some s → holds sid s → payment_status s = "PENDING" →
  ∃ s', db (handlePaymentWebhook ft env now sid st w).2 !! k = Some s' ∧
        payment_status s' = st ∧ version s' = version s + 1 ∧
        (st = "FAILED" →
           bookable s' = true ∧
           ∀ now2 u2 b2,
             (PessimisticLocking no_faults now2 u2 [k] b2
                (handlePaymentWebhook ft env now sid st w).2).1 = None ∧
             (OptimisticLocking no_faults id now2 u2 [k] b2
                (handlePaymentWebhook ft env now sid st w).2).1 = None) ∧
        (st ≠ "FAILED" → is_reserved s' = true →
           bookable s' = false ∧
           ∀ ft2 env2 now2 req2 b2, k ∈ SeatIDs req2 →
             (BookSeats ft2 env2 now2 req2 b2
                (handlePaymentWebhook ft env now sid st w).2).1 ≠ None).
Proof.
  intros Hdecl Hok Hk Hsid Hst.
  destruct (handlePaymentWebhook_success _ _ _ _ _ _ Hok) as (Hin & _ & _).
  destruct (Hin k s Hk Hsid Hst) as (s1 & Hs1 & Hv & Hk').
  assert (payment_status (set_status (status_conv w) st s1) = st) as Hkept
    by (by apply enum_store_declared).
  exists (set_status (status_conv w) st s1).
  split_and!; [done | done | by simpl; rewrite Hv | |].
  - intros ->.
    assert (bookable (set_status (status_conv w) "FAILED" s1) = true) as Hb.
    { unfold bookable. rewrite Hkept. simpl. by destruct (is_reserved s1). }
    split; [done|]. intros now2 u2 b2.
    assert (bookable_request [k] (db (handlePaymentWebhook ft env now sid "FAILED" w).2)) as Hreq.
    { split_and!; [done | apply NoDup_singleton |].
      intros k' ->%list_elem_of_singleton. eexists. split; [done|]. by rewrite Hb. }
    split.
    + by apply PessimisticLocking_alone.
    + by apply OptimisticLocking_alone.
  - intros Hne Hres.
    assert (bookable (set_status (status_conv w) st s1) = false) as Hb.
    { unfold bookable. rewrite Hres, Hkept. simpl. by rewrite bool_decide_eq_false_2. }
    split; [done|]. intros ft2 env2 now2 req2 b2 Hk2.
    apply (BookSeats_blocked _ _ _ _ _ _ k Hk2). intros s2 Hs2. by simplify_eq.
Qed.

Lemma payment_outcome_decides_sale_witness :
  ∃ s', db (handlePaymentWebhook no_faults id 10 "book_7_0" "FAILED" held_world).2 !! 1 = Some s' ∧
        payment_status s' = "FAILED" ∧ version s' = 0 + 1.
Proof.
  destruct (payment_outcome_decides_sale no_faults id 10 "book_7_0" "FAILED" held_world 1
              (mark_pending 0 7 "book_7_0" (fresh_seat 1 "A1")))
    as (s' & Hs' & Hst & Hv & _); try (vm_compute; reflexivity).
  - unfold declared. tauto.
  - by exists s'.
Defined.

(** ** What the sweeper touches *)

Section sweeper_frame.

Lemma scan_expired_id ft kv seat :
  scan_expired ft kv = Some seat → ExpiredSeat.id seat = kv.1 ∧ is_Some (user_id kv.2).
Proof.
  unfold scan_expired. destruct (ft (Scan kv.1)); [done|].
  destruct (user_id kv.2) as [u|]; [|done]. intros ?. simplify_eq. eauto.
Qed.

(** The ids the tick works on are ids of PENDING rows past their deadline. *)
Lemma expired_ids ft now (d : DB) k :
  k ∈ ExpiredSeat.id <$> omap (scan_expired ft) (select_expired now d) →
  ∃ s, d !! k = Some s ∧ payment_status s = "PENDING" ∧ timed_out now s = true ∧
       is_Some (user_id s).
Proof.
  intros (seat & -> & Hin)%list_elem_of_fmap.
  apply list_elem_of_omap in Hin as ([k s] & Hrow & Hscan).
  apply scan_expired_id in Hscan as [-> Hu]. simpl in *.
  unfold select_expired in Hrow.
  apply elem_of_map_to_list, map_lookup_filter_Some in Hrow as (Hs & Hst & Hto). simpl in *.
  exists s. split_and!; try done. by destruct (timed_out now s).
Qed.

(** Whatever fails, the loop leaves a row as it was or cleared, and
    clears only listed rows. *)
Lemma sweep_updates_rows ft (L : list ExpiredSeat.t) (d : DB) (r : Redis) k :
  (sweep_updates ft L d r).1 !! k = d !! k ∨
  (k ∈ ExpiredSeat.id <$> L ∧ (sweep_updates ft L d r).1 !! k = clear_reservation <$> d !! k).
Proof.
  revert d r. induction L as [|seat L IH]; intros d r; [by left|].
  rewrite sweep_updates_cons, fmap_cons. destruct (ft (ExecContext _)).
  - destruct (IH d r) as [->|[? ->]]; [by left|right]. split; [by right|done].
  - destruct (IH (ExecUpdate (λ k _, bool_decide (k = ExpiredSeat.id seat)) clear_reservation d).2
                 (redis_Del ft (sweeper_key (ExpiredSeat.id seat)) r)) as [->|[? ->]];
      rewrite clear_by_id_lookup; case_bool_decide as Hk.
    + right. split; [subst; left|done].
    + by left.
    + right. split; [by right|]. destruct (d !! k); [|done]. simpl.
      by rewrite clear_reservation_idemp.
    + right. split; [by right|done].
Qed.

(** The loop only deletes from Redis. *)
Lemma sweep_updates_redis_sub ft (L : list ExpiredSeat.t) (d : DB) (r : Redis) key :
  (sweep_updates ft L d r).2 !! key = r !! key ∨ (sweep_updates ft L d r).2 !! key = None.
Proof.
  revert d r. induction L as [|seat L IH]; intros d r; [by left|].
  rewrite sweep_updates_cons. destruct (ft (ExecContext _)); [apply IH|].
  destruct (IH (ExecUpdate (λ k _, bool_decide (k = ExpiredSeat.id seat)) clear_reservation d).2
               (redis_Del ft (sweeper_key (ExpiredSeat.id seat)) r)) as [->| ->]; [|by right].
  unfold redis_Del. destruct (ft (Del _)); [by left|].
  destruct (decide (sweeper_key (ExpiredSeat.id seat) = key)) as [<-|Hne].
  - right. apply lookup_delete_eq.
  - left. by apply lookup_delete_ne.
Qed.

(** A row that is not PENDING past its deadline at the tick is left alone. *)
Lemma checkPaymentTimeouts_tick_keeps ft now w k s :
  db w !! k = Some s → ¬ (payment_status s = "PENDING" ∧ timed_out now s = true) →
  db (checkPaymentTimeouts_tick ft now w) !! k = Some s.
Proof.
  intros Hk Hno. destruct (checkPaymentTimeouts_tick_db ft now w) as [->| ->]; [done|].
  destruct (sweep_updates_rows ft (omap (scan_expired ft) (select_expired now (db w)))
              (db w) (rdb w) k) as [->|[Hin _]]; [done|].
  apply expired_ids in Hin as (s' & ? & ? & ? & _). simplify_eq. by destruct Hno.
Qed.

Lemma checkPaymentTimeouts_tick_none ft now w k :
  db w !! k = None → db (checkPaymentTimeouts_tick ft now w) !! k = None.
Proof.
  intros Hk. destruct (checkPaymentTimeouts_tick_db ft now w) as [->| ->]; [done|].
  destruct (sweep_updates_rows ft (omap (scan_expired ft) (select_expired now (db w)))
              (db w) (rdb w) k) as [->|[_ ->]]; [done|]. by rewrite Hk.
Qed.

Lemma omap_all_None {A B} (f : A → option B) (l : list A) :
  (∀ x, x ∈ l → f x = None) → omap f l = [].
Proof.
  induction l as [|x l IH]; intros H; [done|]. simpl.
  rewrite (H x) by left. apply IH. intros y Hy. apply H. by right.
Qed.

Lemma world_eta w : set_db (db w) (set_rdb (rdb w) w) = w.
Proof. by destruct w. Qed.

End sweeper_frame.

(** X8.  Whatever the services answer, a tick of the sweeper changes
    only rows that are PENDING with their deadline passed, and those it
    either leaves or clears; it creates no row and never adds or
    rewrites a Redis entry (it can only delete). *)
Theorem sweeper_touches_only_expired ft now w :
  (∀ k s, db w !! k = Some s → ¬ (payment_status s = "PENDING" ∧ timed_out now s = true) →
          db (checkPaymentTimeouts_tick ft now w) !! k = Some s) ∧
  (∀ k s, db w !! k = Some s →
          db (checkPaymentTimeouts_tick ft now w) !! k = Some s ∨
          db (checkPaymentTimeouts_tick ft now w) !! k = Some (clear_reservation s)) ∧
  (∀ k, db w !! k = None → db (checkPaymentTimeouts_tick ft now w) !! k = None) ∧
  (∀ key, rdb (checkPaymentTimeouts_tick ft now w) !! key = rdb w !! key ∨
          rdb (checkPaymentTimeouts_tick ft now w) !! key = None).
Proof.
  split_and!.
  - apply checkPaymentTimeouts_tick_keeps.
  - intros k s Hk. destruct (checkPaymentTimeouts_tick_db ft now w) as [->| ->]; [by left|].
    destruct (sweep_updates_rows ft (omap (scan_expired ft) (select_expired now (db w)))
                (db w) (rdb w) k) as [->|[_ ->]]; [by left|right]. by rewrite Hk.
  - apply checkPaymentTimeouts_tick_none.
  - intros key. destruct (checkPaymentTimeouts_tick_rdb ft now w) as [->| ->]; [by left|].
    apply sweep_updates_redis_sub.
Qed.

Lemma sweeper_touches_only_expired_witness :
  db (checkPaymentTimeouts_tick no_faults 61 confirmed_world) !! 1 = db confirmed_world !! 1.
Proof.
  destruct (sweeper_touches_only_expired no_faults 61 confirmed_world) as [Hkeep _].
  rewrite (Hkeep 1 (set_status by_index "COMPLETED" (mark_pending 0 7 "book_7_0" (fresh_seat 1 "A1"))));
    [vm_compute; reflexivity | vm_compute; reflexivity |].
  intros [Hst _]. vm_compute in Hst. discriminate.
Defined.

(** X9.  With the services answering, one tick clears every PENDING
    seat whose deadline has passed and that carries an occupant: the row
    becomes unreserved, FAILED, without occupant, deadline, booking id or
    payment URL, keeps its version, and is bookable again (a request for
    it alone succeeds).  A second tick at the same instant changes
    neither the table nor Redis. *)
Theorem sweeper_clears_and_settles now w :
  (∀ k s, db w !! k = Some s → payment_status s = "PENDING" → timed_out now s = true →
          is_Some (user_id s) →
          db (checkPaymentTimeouts_tick no_faults now w) !! k = Some (clear_reservation s) ∧
          bookable (clear_reservation s) = true ∧
          ∀ now2 u2 b2,
            (PessimisticLocking no_faults now2 u2 [k] b2
               (checkPaymentTimeouts_tick no_faults now w)).1 = None) ∧
  checkPaymentTimeouts_tick no_faults now (checkPaymentTimeouts_tick no_faults now w)
    = checkPaymentTimeouts_tick no_faults now w.
Proof.
  split.
  - intros k s Hk Hst Hto Hu.
    pose proof (checkPaymentTimeouts_tick_clears now w k s Hk Hst Hto Hu) as Hk'.
    split_and!; [done | done |]. intros now2 u2 b2.
    apply PessimisticLocking_alone. split_and!; [done | apply NoDup_singleton |].
    intros k' ->%list_elem_of_singleton. by eexists.
  - set (w' := checkPaymentTimeouts_tick no_faults now w).
    assert (omap (scan_expired no_faults) (select_expired now (db w')) = []) as Hnil.
    { apply omap_all_None. intros [k s'] Hrow.
      unfold select_expired in Hrow.
      apply elem_of_map_to_list, map_lookup_filter_Some in Hrow as (Hs' & Hst' & Hto'). simpl in *.
      unfold scan_expired. simpl. destruct (user_id s') as [u|] eqn:Hu; [exfalso|done].
      unfold w' in Hs'.
      destruct (db w !! k) as [s|] eqn:Hk.
      - destruct (decide (payment_status s = "PENDING" ∧ timed_out now s = true)) as [[Hst Hto]|Hno].
        + destruct (user_id s) as [u0|] eqn:Hu0.
          * rewrite (checkPaymentTimeouts_tick_clears now w k s) in Hs' by done. by simplify_eq.
          * assert (db (checkPaymentTimeouts_tick no_faults now w) !! k = Some s) as Hsame.
            { destruct (checkPaymentTimeouts_tick_db no_faults now w) as [->| ->]; [done|].
              destruct (sweep_updates_rows no_faults
                (omap (scan_expired no_faults) (select_expired now (db w))) (db w) (rdb w) k)
                as [->|[Hin _]]; [done|].
              apply expired_ids in Hin as (s2 & ? & _ & _ & [? ?]). by simplify_eq. }
            rewrite Hsame in Hs'. by simplify_eq.
        + rewrite (checkPaymentTimeouts_tick_keeps no_faults now w k s) in Hs' by done.
          simplify_eq. apply Hno. split; [done|]. by destruct (timed_out now s').
      - by rewrite (checkPaymentTimeouts_tick_none no_faults now w k Hk) in Hs'. }
    unfold checkPaymentTimeouts_tick at 1.
    replace (no_faults BeginTx) with false by done.
    replace (no_faults QueryContext) with false by done.
    replace (no_faults Commit) with false by done.
    rewrite Hnil. simpl. apply world_eta.
Qed.

Lemma sweeper_clears_and_settles_witness :
  db (checkPaymentTimeouts_tick no_faults 61 held_world) !! 1
    = Some (clear_reservation (mark_pending 0 7 "book_7_0" (fresh_seat 1 "A1"))) ∧
  (PessimisticLocking no_faults 70 8 [1] "book_8_70"
     (checkPaymentTimeouts_tick no_faults 61 held_world)).1 = None.
Proof.
  destruct (sweeper_clears_and_settles 61 held_world) as [Hclear _].
  destruct (Hclear 1 (mark_pending 0 7 "book_7_0" (fresh_seat 1 "A1"))) as (Hrow & _ & Hbook);
    try (vm_compute; reflexivity); [by eexists|].
  split; [done | apply Hbook].
Defined.

(** X10.  Over any run of the sweeper loop, each iteration with its own
    instant and its own failures of the services, a seat is never swept
    before its deadline: a row that at every tick either is not PENDING or
    has no deadline earlier than the tick stays exactly as it is.  In
    particular COMPLETED and FAILED rows are never changed by the sweeper. *)
Theorem sweeper_waits_for_deadline (ticks : list (Faults * Z)) w k s :
  db w !! k = Some s →
  (∀ tick, tick ∈ ticks → ¬ (payment_status s = "PENDING" ∧ timed_out tick.2 s = true)) →
  db (checkPaymentTimeouts ticks w) !! k = Some s.
Proof.
  unfold checkPaymentTimeouts. revert w.
  induction ticks as [|[ft t] ticks IH]; intros w Hk Hno; [done|]. simpl.
  apply IH.
  - apply checkPaymentTimeouts_tick_keeps; [done|]. apply (Hno (ft, t)). left.
  - intros t' Ht'. apply Hno. by right.
Qed.

(** Seat 1, held until instant 60, through three ticks of which the
    second cannot commit; and the confirmed seat through three later ones. *)
Lemma sweeper_waits_for_deadline_witness :
  db (checkPaymentTimeouts [(no_faults, 20); (commit_fails, 40); (no_faults, 60)] held_world) !! 1
    = db held_world !! 1 ∧
  db (checkPaymentTimeouts [(commit_fails, 61); (no_faults, 121); (no_faults, 181)] confirmed_world) !! 1
    = db confirmed_world !! 1.
Proof.
  split.
  - rewrite (sweeper_waits_for_deadline [(no_faults, 20); (commit_fails, 40); (no_faults, 60)]
               held_world 1 (mark_pending 0 7 "book_7_0" (fresh_seat 1 "A1")));
      [vm_compute; reflexivity | vm_compute; reflexivity |].
    intros tick Ht [_ Hto]. unfold timed_out in Hto. simpl in Hto.
    apply bool_decide_eq_true in Hto. unfold minute in Hto.
    repeat (apply elem_of_cons in Ht as [->|Ht]; [simpl in Hto; lia|]). by apply elem_of_nil in Ht.
  - rewrite (sweeper_waits_for_deadline [(commit_fails, 61); (no_faults, 121); (no_faults, 181)]
               confirmed_world 1
               (set_status by_index "COMPLETED" (mark_pending 0 7 "book_7_0" (fresh_seat 1 "A1"))));
      [vm_compute; reflexivity | vm_compute; reflexivity |].
    intros tick Ht [Hst _]. vm_compute in Hst. discriminate.
Defined.

(** ** The lock the webhook releases *)

Section webhook_cleanup.

Lemma seat_lock_key_inj i j : seat_lock_key i = seat_lock_key j → i = j.
Proof.
  unfold seat_lock_key. intros H. apply (inj pretty).
  by apply (inj (String.app "seat_lock:")) in H.
Qed.

Lemma webhook_cleanup_other ft now (r : Redis) k u key :
  key ≠ seat_lock_key k → webhook_cleanup ft now r (k, u) !! key = r !! key.
Proof.
  intros Hne. unfold webhook_cleanup.
  destruct (ft (Get _)); [done|]. destruct (redis_Get _ _ _); [|done].
  case_bool_decide; [|done]. unfold redis_Del. destruct (ft (Del _)); [done|].
  by apply lookup_delete_ne.
Qed.

Lemma redis_Get_ext now (r r' : Redis) key : r !! key = r' !! key → redis_Get now r key = redis_Get now r' key.
Proof. unfold redis_Get. by intros ->. Qed.

Lemma webhook_cleanup_own ft now (r : Redis) k u :
  ft (Get (seat_lock_key k)) = false → ft (Del (seat_lock_key k)) = false →
  webhook_cleanup ft now r (k, u) !! seat_lock_key k =
  if bool_decide (redis_Get now r (seat_lock_key k) = Some (user_lock_value u))
  then None else r !! seat_lock_key k.
Proof.
  intros HG HD. unfold webhook_cleanup, redis_Del. rewrite HG, HD.
  destruct (redis_Get now r (seat_lock_key k)) as [val|] eqn:Hget.
  - destruct (decide (val = user_lock_value u)) as [->|Hne].
    + rewrite !bool_decide_eq_true_2 by done. apply lookup_delete_eq.
    + rewrite !bool_decide_eq_false_2; [done| |done]. by intros [= ?].
  - by rewrite bool_decide_eq_false_2.
Qed.

(** The cleanup loop over seats with pairwise distinct ids. *)
Lemma webhook_cleanup_loop_other ft now (L : list (Z * Z)) (r : Redis) key :
  (∀ k u, (k, u) ∈ L → key ≠ seat_lock_key k) →
  foldl (webhook_cleanup ft now) r L !! key = r !! key.
Proof.
  revert r. induction L as [|[k u] L IH]; intros r Hne; [done|]. simpl.
  rewrite IH by (intros k' u' Hin; apply (Hne k' u'); by right).
  apply webhook_cleanup_other. apply (Hne k u). left.
Qed.

Lemma webhook_cleanup_loop_own ft now (L : list (Z * Z)) (r : Redis) k u :
  NoDup L.*1 → (k, u) ∈ L →
  ft (Get (seat_lock_key k)) = false → ft (Del (seat_lock_key k)) = false →
  foldl (webhook_cleanup ft now) r L !! seat_lock_key k =
  if bool_decide (redis_Get now r (seat_lock_key k) = Some (user_lock_value u))
  then None else r !! seat_lock_key k.
Proof.
  intros Hnd Hin HG HD. revert r Hnd Hin.
  induction L as [|[k' u'] L IH]; intros r Hnd Hin; [by apply elem_of_nil in Hin|].
  cbn [foldl]. rewrite fmap_cons in Hnd. cbn [fst] in Hnd. apply NoDup_cons in Hnd as [Hk' Hnd].
  apply elem_of_cons in Hin as [Heq|Hin].
  - simplify_eq. rewrite webhook_cleanup_loop_other.
    + by apply webhook_cleanup_own.
    + intros k2 u2 Hin2 Heq. apply seat_lock_key_inj in Heq as ->.
      apply Hk'. apply list_elem_of_fmap. by exists (k2, u2).
  - assert (k ≠ k') as Hne.
    { intros ->. apply Hk'. apply list_elem_of_fmap. by exists (k', u). }
    rewrite IH by done.
    assert (webhook_cleanup ft now r (k', u') !! seat_lock_key k = r !! seat_lock_key k) as Hsame.
    { apply webhook_cleanup_other. intros Heq. by apply seat_lock_key_inj in Heq. }
    by rewrite (redis_Get_ext now _ r _ Hsame), Hsame.
Qed.

(** What the scan loop stores in [seatUser]. *)
Lemma scan_pending_users ft (rows : list (Z * Seat)) (scanned : list (Z * Z * Z)) k u :
  mapM (scan_pending ft) rows = Some scanned →
  (k, u) ∈ (λ t : Z * Z * Z, (t.1.1, t.1.2)) <$> scanned ↔
  ∃ s, (k, s) ∈ rows ∧ user_id s = Some u.
Proof.
  revert scanned. induction rows as [|[k0 s0] rows IH]; intros scanned H.
  - apply mapM_Some in H. inversion H; subst. simpl. split.
    + by intros ?%elem_of_nil.
    + by intros (s & ?%elem_of_nil & _).
  - apply mapM_Some in H. inversion H as [|? t ? scanned' Ht Hrest]; subst.
    apply mapM_Some in Hrest. rewrite fmap_cons, elem_of_cons, (IH _ Hrest).
    unfold scan_pending in Ht. simpl in Ht.
    destruct (ft (Scan k0)); [done|]. destruct (user_id s0) as [u0|] eqn:Hu0; [|done].
    simplify_eq. simpl. split.
    + intros [?|(s & Hin & Hu)]; [simplify_eq; exists s0; split; [left|done]|].
      exists s. split; [by right|done].
    + intros (s & [?|Hin]%elem_of_cons & Hu); [left; by simplify_eq|].
      right. by exists s.
Qed.

Lemma scan_pending_keys ft (rows : list (Z * Seat)) (scanned : list (Z * Z * Z)) :
  mapM (scan_pending ft) rows = Some scanned →
  ((λ t : Z * Z * Z, (t.1.1, t.1.2)) <$> scanned).*1 = rows.*1.
Proof.
  revert scanned. induction rows as [|[k0 s0] rows IH]; intros scanned H.
  - apply mapM_Some in H. by inversion H.
  - apply mapM_Some in H. inversion H as [|? t ? scanned' Ht Hrest]; subst.
    apply mapM_Some in Hrest. simpl. f_equal; [|by apply IH].
    unfold scan_pending in Ht. simpl in Ht.
    destruct (ft (Scan k0)); [done|]. destruct (user_id s0); by simplify_eq/=.
Qed.

(** Redis after an acknowledged delivery is the cleanup loop run over
    the seats of the session and their occupants. *)
Lemma handlePaymentWebhook_rdb ft env now sid st w :
  (handlePaymentWebhook ft env now sid st w).1 = WebhookSuccess →
  ∃ L : list (Z * Z),
    NoDup L.*1 ∧
    (∀ k u, (k, u) ∈ L ↔ ∃ s, db w !! k = Some s ∧ holds sid s ∧
                              payment_status s = "PENDING" ∧ user_id s = Some u) ∧
    rdb (handlePaymentWebhook ft env now sid st w).2 = foldl (webhook_cleanup ft now) (rdb w) L.
Proof.
  unfold handlePaymentWebhook.
  destruct (ft BeginTx); [done|]. destruct (ft QueryContext); [done|].
  destruct (mapM _ _) as [scanned|] eqn:Hscan; [|done].
  case_bool_decide; [done|].
  destruct (webhook_updates _ _ _ _ _) as [resp|d'] eqn:Hrun.
  { apply webhook_updates_error in Hrun as (c & m & ->). done. }
  destruct (ft Commit); [done|]. simpl. intros _.
  eexists. split_and!; [apply NoDup_fst_map_to_list | | done].
  assert (NoDup ((λ t : Z * Z * Z, (t.1.1, t.1.2)) <$> scanned).*1) as Hnd.
  { rewrite (scan_pending_keys _ _ _ Hscan). apply NoDup_fst_map_to_list. }
  intros k u. rewrite elem_of_map_to_list, <- elem_of_list_to_map by done.
  rewrite (scan_pending_users _ _ _ k u Hscan). split.
  - intros (s & Hin & Hu). apply select_pending_lookup in Hin as (? & ? & ?). by exists s.
  - intros (s & ? & ? & ? & Hu). exists s. split; [|done]. by apply select_pending_lookup.
Qed.

End webhook_cleanup.

(** X11.  An acknowledged webhook releases the booking's Redis lock and
    only that.  For a seat of the session with occupant [u] (Redis
    answering for its key), the key [seat_lock:<seat>] is deleted when it
    is live with the value [user:<u>] and left as it is otherwise; no
    other key is touched, whatever fails. *)
Theorem webhook_releases_occupant_lock ft env now sid st w :
  (handlePaymentWebhook ft env now sid st w).1 = WebhookSuccess →
  (∀ k s u, db w !! k = Some s → holds sid s → payment_status s = "PENDING" →
     user_id s = Some u →
     ft (Get (seat_lock_key k)) = false → ft (Del (seat_lock_key k)) = false →
     rdb (handlePaymentWebhook ft env now sid st w).2 !! seat_lock_key k =
     if bool_decide (redis_Get now (rdb w) (seat_lock_key k) = Some (user_lock_value u))
     then None else rdb w !! seat_lock_key k) ∧
  (∀ key, (∀ k s, db w !! k = Some s → holds sid s → payment_status s = "PENDING" →
                  key ≠ seat_lock_key k) →
     rdb (handlePaymentWebhook ft env now sid st w).2 !! key = rdb w !! key).
Proof.
  intros Hok. destruct (handlePaymentWebhook_rdb _ _ _ _ _ _ Hok) as (L & Hnd & HL & ->).
  split.
  - intros k s u Hk Hsid Hst Hu HG HD.
    apply webhook_cleanup_loop_own; try done. apply HL. by exists s.
  - intros key Hkey. apply webhook_cleanup_loop_other.
    intros k u (s & ? & ? & ? & _)%HL. by eapply Hkey.
Qed.

(** User 7 books seats 1 and 2 through [BookMyShowTimeoutImp]; the
    confirmation at instant 10 removes the key taken for seat 1. *)
Lemma webhook_releases_occupant_lock_witness :
  rdb (handlePaymentWebhook no_faults id 10 "book_7_0" "COMPLETED"
         (BookMyShowTimeoutImp no_faults 0 7 [1; 2] "book_7_0" sample_world).2).2
    !! seat_lock_key 1 = None.
Proof.
  destruct (webhook_releases_occupant_lock no_faults id 10 "book_7_0" "COMPLETED"
              (BookMyShowTimeoutImp no_faults 0 7 [1; 2] "book_7_0" sample_world).2)
    as [Hown _]; [vm_compute; reflexivity|].
  rewrite (Hown 1 (mark_pending 0 7 "book_7_0" (fresh_seat 1 "A1")) 7);
    vm_compute; reflexivity.
Defined.

(** ** From the booking to its status *)

Section round_trips.

Lemma new_booking_id_nonempty userID nanos : new_booking_id userID nanos ≠ "".
Proof. done. Qed.

Lemma leb_refl (s : string) : String.leb s s = true.
Proof. by destruct (String.leb_total s s). Qed.

(** [MIN] over rows that all carry the same value. *)
Lemma sql_min_uniform (l : list string) st :
  l ≠ [] → (∀ x, x ∈ l → x = st) → sql_min l = Some st.
Proof.
  induction l as [|x l IH]; intros Hl Hall; [done|].
  rewrite sql_min_cons. rewrite (Hall x) by left.
  destruct l as [|y l]; [done|].
  rewrite IH; [|done|intros z Hz; apply Hall; by right].
  by rewrite leb_refl.
Qed.

(** The status query on a session whose seats all carry one status. *)
Lemma handleBookingStatus_uniform sid st w :
  sid ≠ "" → st ≠ "NOT_FOUND" →
  (∃ k s, db w !! k = Some s ∧ holds sid s) →
  (∀ k s, db w !! k = Some s → holds sid s → payment_status s = st) →
  handleBookingStatus no_faults sid w = BookingStatus sid st.
Proof.
  intros Hsid Hst (k0 & s0 & Hk0 & Hh0) Hall. unfold handleBookingStatus.
  rewrite bool_decide_eq_false_2 by done.
  replace (no_faults QueryContext) with false by done.
  rewrite (sql_min_uniform _ st).
  - simpl. by rewrite bool_decide_eq_false_2.
  - intros Hnil.
    assert (payment_status s0 ∈ (λ kv : Z * Seat, payment_status kv.2) <$>
      map_to_list (filter (λ kv : Z * Seat, payment_session_id kv.2 = Some sid) (db w))) as Hin.
    { apply session_statuses_elem. by exists k0, s0. }
    rewrite Hnil in Hin. by apply elem_of_nil in Hin.
  - intros x (k & s & Hk & Hh & <-)%session_statuses_elem. by eapply Hall.
Qed.

(** The status query on a token no seat carries. *)
Lemma handleBookingStatus_unknown sid w :
  sid ≠ "" → (∀ k s, db w !! k = Some s → ¬ holds sid s) →
  handleBookingStatus no_faults sid w = HttpError StatusNotFound "Booking not found".
Proof.
  intros Hsid Hnone. unfold handleBookingStatus.
  rewrite bool_decide_eq_false_2 by done.
  replace (no_faults QueryContext) with false by done.
  assert ((λ kv : Z * Seat, payment_status kv.2) <$>
      map_to_list (filter (λ kv : Z * Seat, payment_session_id kv.2 = Some sid) (db w)) = []) as ->; [|done].
  destruct (_ <$> _) as [|st l] eqn:Heq; [done|].
  assert (st ∈ (λ kv : Z * Seat, payment_status kv.2) <$>
      map_to_list (filter (λ kv : Z * Seat, payment_session_id kv.2 = Some sid) (db w))) as Hin
    by (rewrite Heq; left).
  apply session_statuses_elem in Hin as (k & s & Hk & Hh & _). by destruct (Hnone k s).
Qed.

(** A locker that succeeds with nobody committing in between writes the
    requested rows only, and the request is not empty. *)
Lemma BookSeats_frame ft now req b w :
  (BookSeats ft id now req b w).1 = None →
  SeatIDs req ≠ [] ∧
  ∀ k, k ∉ SeatIDs req → db (BookSeats ft id now req b w).2 !! k = db w !! k.
Proof.
  unfold BookSeats. repeat case_bool_decide; [| | |done]; intros Hok.
  - apply PessimisticLocking_success in Hok as (Hl & _ & ->). split; [done|].
    intros k Hk. by rewrite db_set_db, mark_all_lookup, bool_decide_eq_false_2.
  - pose proof Hok as Hok0.
    apply OptimisticLocking_success in Hok as (_ & d' & Hrun & ->). split.
    + intros Hl. rewrite Hl in Hok0. done.
    + apply optimistic_updates_success in Hrun as (_ & _ & Hout). intros k Hk.
      by rewrite db_set_db, Hout.
  - destruct (SeatIDs req) as [|first rest] eqn:Hl; [done|]. split; [done|].
    apply BookMyShowTimeoutImp_success in Hok as (_ & _ & _ & ->).
    intros k Hk. by rewrite mark_all_lookup, bool_decide_eq_false_2.
Qed.

(** A locker that fails has not written the table. *)
Lemma BookSeats_failure ft env now req b w e :
  (BookSeats ft env now req b w).1 = Some e →
  db (BookSeats ft env now req b w).2 = db w ∨ db (BookSeats ft env now req b w).2 = env (db w).
Proof.
  unfold BookSeats. repeat case_bool_decide; intros He.
  - left. by rewrite (PessimisticLocking_failure _ _ _ _ _ _ _ He).
  - destruct (OptimisticLocking_failure _ _ _ _ _ _ _ _ He) as [-> | ->]; auto.
  - left. by eapply BookMyShowTimeoutImp_failure.
  - by left.
Qed.

Lemma handlePaymentWebhook_some_pending ft env now sid st w :
  (handlePaymentWebhook ft env now sid st w).1 = WebhookSuccess →
  ∃ k s, db w !! k = Some s ∧ holds sid s ∧ payment_status s = "PENDING".
Proof.
  unfold handlePaymentWebhook.
  destruct (ft BeginTx); [done|]. destruct (ft QueryContext); [done|].
  destruct (mapM _ _) as [scanned|] eqn:Hscan; [|done].
  rewrite (scan_pending_versions _ _ _ Hscan).
  case_bool_decide as Hsz; [done|]. intros _.
  rewrite pending_versions_size in Hsz.
  destruct (select_pending sid (db w)) as [|[k s] rows] eqn:Hrows; [done|].
  assert ((k, s) ∈ select_pending sid (db w)) as Hin by (rewrite Hrows; left).
  apply select_pending_lookup in Hin. by exists k, s.
Qed.

End round_trips.

(** X12.  A booking that is accepted can be looked up.  When
    [handleAsyncBooking] (nobody committing in between) replies 202, the
    reply carries the id book_<user>_<clock> with status PENDING, every
    requested seat is PENDING and reserved for the user under that id,
    and, if no seat carried that id before, the status query for it
    answers PENDING. *)
Theorem accepted_booking_is_pending ft now nanos r w resp :
  (handleAsyncBooking ft id now nanos r w).1 = ReplyJSON StatusAccepted resp →
  ∃ req,
    RequestMethod r = "POST" ∧ Body r = Some req ∧
    BookingID resp = new_booking_id (UserID req) nanos ∧ Status resp = "PENDING" ∧
    (∀ k, k ∈ SeatIDs req →
       ∃ s', db (handleAsyncBooking ft id now nanos r w).2 !! k = Some s' ∧
             is_reserved s' = true ∧ payment_status s' = "PENDING" ∧
             user_id s' = Some (UserID req) ∧ holds (BookingID resp) s' ∧
             payment_timeout s' = Some (now + minute)) ∧
    ((∀ k s, db w !! k = Some s → ¬ holds (BookingID resp) s) →
       handleBookingStatus no_faults (BookingID resp) (handleAsyncBooking ft id now nanos r w).2
         = BookingStatus (BookingID resp) "PENDING").
Proof.
  unfold handleAsyncBooking. case_bool_decide as Hm; [done|].
  destruct (Body r) as [req|] eqn:Hbody; [|done].
  destruct (BookSeats ft id now req (new_booking_id (UserID req) nanos) w) as [[e|] w'] eqn:Hrun;
    [done|]. simpl. intros [= <-]. simpl.
  assert ((BookSeats ft id now req (new_booking_id (UserID req) nanos) w).1 = None) as Hok
    by (by rewrite Hrun).
  assert (w' = (BookSeats ft id now req (new_booking_id (UserID req) nanos) w).2) as ->
    by (by rewrite Hrun).
  clear Hrun. exists req.
  assert (RequestMethod r = "POST") as HP by (by destruct (decide (RequestMethod r = "POST"))).
  split_and!; try done.
  - intros k Hk. destruct (BookSeats_booked _ _ _ _ _ _ k Hok Hk) as (s' & ? & ? & ? & ? & ? & ? & _).
    by exists s'.
  - intros Hfresh. destruct (BookSeats_frame _ _ _ _ _ Hok) as [Hne Hout].
    apply handleBookingStatus_uniform; [done | done | |].
    + destruct (SeatIDs req) as [|k l] eqn:Hl; [done|].
      destruct (BookSeats_booked _ _ _ _ _ _ k Hok) as (s' & ? & _ & _ & _ & ? & _);
        [rewrite Hl; left|]. by exists k, s'.
    + intros k s' Hk' Hh. destruct (decide (k ∈ SeatIDs req)) as [Hk|Hk].
      * destruct (BookSeats_booked _ _ _ _ _ _ k Hok Hk) as (s2 & ? & _ & ? & _). by simplify_eq.
      * rewrite Hout in Hk' by done. by destruct (Hfresh k s').
Qed.

Lemma accepted_booking_is_pending_witness :
  handleBookingStatus no_faults (new_booking_id 7 1000)
    (handleAsyncBooking no_faults id 0 1000
       {| RequestMethod := "POST";
          Body := Some {| UserID := 7; ShowID := 1; SeatIDs := [1; 2]; Method := "optimistic" |} |}
       sample_world).2
  = BookingStatus (new_booking_id 7 1000) "PENDING".
Proof.
  destruct (accepted_booking_is_pending no_faults 0 1000
              {| RequestMethod := "POST";
                 Body := Some {| UserID := 7; ShowID := 1; SeatIDs := [1; 2]; Method := "optimistic" |} |}
              sample_world {| BookingID := new_booking_id 7 1000; Status := "PENDING" |})
    as (req & _ & _ & _ & _ & _ & Hquery); [vm_compute; reflexivity|].
  apply Hquery. intros k s Hk Hh.
  assert ((k, s) ∈ map_to_list (filter (λ kv : Z * Seat,
            payment_session_id kv.2 = Some (new_booking_id 7 1000)) (db sample_world))) as Hin
    by (by apply elem_of_map_to_list, map_lookup_filter_Some).
  vm_compute in Hin. by apply elem_of_nil in Hin.
Defined.

(** X13.  A booking that is not accepted has written no seat.  Any
    reply of [handleAsyncBooking] other than 202 is 405 (method not POST),
    400 (undecodable body) or 500 with the booking id and status FAILED,
    and the seat table afterwards is the one before or the one the
    concurrent writers left. *)
Theorem rejected_booking_writes_no_seat ft env now nanos r w :
  (∀ resp, (handleAsyncBooking ft env now nanos r w).1 ≠ ReplyJSON StatusAccepted resp) →
  ((handleAsyncBooking ft env now nanos r w).1 = ReplyError StatusMethodNotAllowed "Method not allowed" ∧
     RequestMethod r ≠ "POST" ∨
   (handleAsyncBooking ft env now nanos r w).1 = ReplyError StatusBadRequest "Invalid request body" ∧
     Body r = None ∨
   ∃ req, Body r = Some req ∧
     (handleAsyncBooking ft env now nanos r w).1 =
       ReplyJSON StatusInternalServerError
         {| BookingID := new_booking_id (UserID req) nanos; Status := "FAILED" |}) ∧
  (db (handleAsyncBooking ft env now nanos r w).2 = db w ∨
   db (handleAsyncBooking ft env now nanos r w).2 = env (db w)).
Proof.
  unfold handleAsyncBooking. case_bool_decide as Hm; [intros _; split; auto|].
  destruct (Body r) as [req|] eqn:Hbody; [|intros _; split; auto].
  destruct (BookSeats ft env now req (new_booking_id (UserID req) nanos) w) as [[e|] w'] eqn:Hrun.
  - intros _. split; [right; right; by exists req|].
    assert (w' = (BookSeats ft env now req (new_booking_id (UserID req) nanos) w).2) as ->
      by (by rewrite Hrun).
    apply (BookSeats_failure _ _ _ _ _ _ e). by rewrite Hrun.
  - intros Hne. by destruct (Hne {| BookingID := new_booking_id (UserID req) nanos;
                                    Status := "PENDING" |}).
Qed.

Lemma rejected_booking_writes_no_seat_witness :
  db (handleAsyncBooking no_faults id 5 2000
        {| RequestMethod := "POST";
           Body := Some {| UserID := 8; ShowID := 1; SeatIDs := [1; 2]; Method := "pessimistic" |} |}
        held_world).2 = db held_world ∨
  db (handleAsyncBooking no_faults id 5 2000
        {| RequestMethod := "POST";
           Body := Some {| UserID := 8; ShowID := 1; SeatIDs := [1; 2]; Method := "pessimistic" |} |}
        held_world).2 = id (db held_world).
Proof.
  apply (rejected_booking_writes_no_seat no_faults id 5 2000
           {| RequestMethod := "POST";
              Body := Some {| UserID := 8; ShowID := 1; SeatIDs := [1; 2]; Method := "pessimistic" |} |}
           held_world).
  intros resp. vm_compute. discriminate.
Defined.

(** X14.  The status query reports what the webhook delivered.  After
    an acknowledged delivery of a status [st] that is one of the three
    values of the column (nobody committing in between) for a session all
    of whose seats were PENDING, the query for that session answers [st]. *)
Theorem delivered_status_is_reported ft now sid st w :
  (handlePaymentWebhook ft id now sid st w).1 = WebhookSuccess →
  sid ≠ "" → declared st →
  (∀ k s, db w !! k = Some s → holds sid s → payment_status s = "PENDING") →
  handleBookingStatus no_faults sid (handlePaymentWebhook ft id now sid st w).2
    = BookingStatus sid st.
Proof.
  intros Hok Hsid Hdecl Hall.
  assert (st ≠ "NOT_FOUND") as Hst by (by destruct Hdecl as [->|[->| ->]]).
  assert (∀ s, payment_status (set_status (status_conv w) st s) = st) as Hkept
    by (intros s; by apply enum_store_declared).
  destruct (handlePaymentWebhook_success _ _ _ _ _ _ Hok) as (Hin & Hout & _).
  destruct (handlePaymentWebhook_some_pending _ _ _ _ _ _ Hok) as (k0 & s0 & Hk0 & Hh0 & Hp0).
  apply handleBookingStatus_uniform; [done | done | |].
  - destruct (Hin k0 s0 Hk0 Hh0 Hp0) as (s1 & Hs1 & _ & Hk'). unfold id in Hs1. simplify_eq.
    exists k0, (set_status (status_conv w) st s0). by split.
  - intros k s' Hk' Hh'.
    destruct (db w !! k) as [s|] eqn:Hk.
    + destruct (decide (payment_session_id s = Some sid ∧ payment_status s = "PENDING"))
        as [[Hh Hp]|Hno].
      * destruct (Hin k s Hk Hh Hp) as (s1 & _ & _ & Hk''). rewrite Hk'' in Hk'.
        simplify_eq. apply Hkept.
      * rewrite Hout in Hk'; [|intros ? ?; by simplify_eq]. unfold id in Hk'. simplify_eq.
        destruct Hno. split; [done|]. by apply (Hall k s').
    + rewrite Hout in Hk'; [|intros ? ?; by simplify_eq]. unfold id in Hk'. by simplify_eq.
Qed.

Lemma delivered_status_is_reported_witness :
  handleBookingStatus no_faults "book_7_0"
    (handlePaymentWebhook no_faults id 10 "book_7_0" "FAILED" held_world).2
  = BookingStatus "book_7_0" "FAILED".
Proof.
  apply (delivered_status_is_reported no_faults 10 "book_7_0" "FAILED" held_world);
    [vm_compute; reflexivity | done | unfold declared; tauto |].
  intros k s Hk Hh.
  assert ((k, s) ∈ map_to_list (filter (λ kv : Z * Seat,
            payment_session_id kv.2 = Some "book_7_0") (db held_world))) as Hin
    by (by apply elem_of_map_to_list, map_lookup_filter_Some).
  vm_compute in Hin. apply list_elem_of_singleton in Hin. by simplify_eq.
Defined.

(** X15.  A swept booking is forgotten.  When every seat of a session
    is PENDING past its deadline with an occupant, one tick of the
    sweeper (the services answering) clears them all, and the status
    query for the session then answers 404 "Booking not found", not
    FAILED: the sweeper has erased the booking id from the rows. *)
Theorem swept_booking_is_not_found now sid w :
  sid ≠ "" →
  (∀ k s, db w !! k = Some s → holds sid s →
          payment_status s = "PENDING" ∧ timed_out now s = true ∧ is_Some (user_id s)) →
  handleBookingStatus no_faults sid (checkPaymentTimeouts_tick no_faults now w)
    = HttpError StatusNotFound "Booking not found".
Proof.
  intros Hsid Hall. apply handleBookingStatus_unknown; [done|].
  intros k s' Hk' Hh'.
  destruct (db w !! k) as [s|] eqn:Hk.
  - destruct (decide (payment_session_id s = Some sid)) as [Hh|Hh].
    + destruct (Hall k s Hk Hh) as (Hst & Hto & Hu).
      rewrite (checkPaymentTimeouts_tick_clears now w k s) in Hk' by done. by simplify_eq.
    + destruct (checkPaymentTimeouts_tick_db no_faults now w) as [Heq|Heq]; rewrite Heq in Hk';
        [by simplify_eq|].
      destruct (sweep_updates_rows no_faults
        (omap (scan_expired no_faults) (select_expired now (db w))) (db w) (rdb w) k)
        as [Hsame|[_ Hclr]].
      * rewrite Hsame in Hk'. by simplify_eq.
      * rewrite Hclr, Hk in Hk'. simpl in Hk'. by simplify_eq.
  - by rewrite (checkPaymentTimeouts_tick_none no_faults now w k Hk) in Hk'.
Qed.

Lemma swept_booking_is_not_found_witness :
  handleBookingStatus no_faults "book_7_0" (checkPaymentTimeouts_tick no_faults 61 held_world)
  = HttpError StatusNotFound "Booking not found".
Proof.
  apply (swept_booking_is_not_found 61 "book_7_0" held_world); [done|].
  intros k s Hk Hh.
  assert ((k, s) ∈ map_to_list (filter (λ kv : Z * Seat,
            payment_session_id kv.2 = Some "book_7_0") (db held_world))) as Hin
    by (by apply elem_of_map_to_list, map_lookup_filter_Some).
  vm_compute in Hin. apply list_elem_of_singleton in Hin. simplify_eq.
  split_and!; [done | done | by eexists].
Defined.

(** X16.  The Redis lock of [BookMyShowTimeoutImp] lasts its minute
    whatever became of the call that took it.  Once a call has set the
    key of its first seat (whether it then reserved the seats or failed on
    the table), every call whose first seat is the same and that starts
    within the minute, Redis untouched meanwhile, fails with the lock
    error and changes neither table nor Redis; a call that starts when the
    minute is over is not stopped by the lock and sets the key anew. *)
Theorem lock_lasts_a_minute ft1 now u first rest b w ft2 t u2 rest2 b2 :
  ft1 (SetNX (seat_lock_key first)) = false →
  redis_Get now (rdb w) (seat_lock_key first) = None →
  ft2 (SetNX (seat_lock_key first)) = false →
  (now ≤ t < now + minute →
     BookMyShowTimeoutImp ft2 t u2 (first :: rest2) b2
       (BookMyShowTimeoutImp ft1 now u (first :: rest) b w).2 =
     (Some (LockNotAcquired (seat_lock_key first)),
      add_log (LockHolderLog u2 (if ft2 (Get (seat_lock_key first)) then "" else user_lock_value u))
              (BookMyShowTimeoutImp ft1 now u (first :: rest) b w).2)) ∧
  (now + minute ≤ t →
     (BookMyShowTimeoutImp ft2 t u2 (first :: rest2) b2
        (BookMyShowTimeoutImp ft1 now u (first :: rest) b w).2).1
       ≠ Some (LockNotAcquired (seat_lock_key first)) ∧
     rdb (BookMyShowTimeoutImp ft2 t u2 (first :: rest2) b2
            (BookMyShowTimeoutImp ft1 now u (first :: rest) b w).2).2 !! seat_lock_key first
       = Some (user_lock_value u2, t + minute)).
Proof.
  intros Hft1 Hfree Hft2.
  destruct (BookMyShowTimeoutImp_acquired ft1 now u first rest b w Hft1 Hfree) as [Hr _].
  split.
  - intros Ht. apply BookMyShowTimeoutImp_contention; [done|].
    rewrite Hr, redis_Get_insert. rewrite bool_decide_eq_true_2; [done|lia].
  - intros Ht.
    assert (redis_Get t (rdb (BookMyShowTimeoutImp ft1 now u (first :: rest) b w).2)
              (seat_lock_key first) = None) as Hgone.
    { rewrite Hr, redis_Get_insert. rewrite bool_decide_eq_false_2; [done|lia]. }
    destruct (BookMyShowTimeoutImp_acquired ft2 t u2 first rest2 b2 _ Hft2 Hgone) as [Hr2 _].
    split.
    + intros Heq.
      destruct (BookMyShowTimeoutImp ft2 t u2 (first :: rest2) b2
                  (BookMyShowTimeoutImp ft1 now u (first :: rest) b w).2) as [e w2] eqn:Hrun.
      simpl in Heq. subst e.
      unfold BookMyShowTimeoutImp in Hrun at 1. rewrite Hft2 in Hrun.
      rewrite redis_SetNX_free in Hrun by done. simpl in Hrun.
      repeat (case_match; simplify_eq).
    + rewrite Hr2. apply lookup_insert_eq.
Qed.

Lemma lock_lasts_a_minute_witness :
  (BookMyShowTimeoutImp no_faults 59 9 [1; 3] "book_9_59" contended_world).1
    = Some (LockNotAcquired (seat_lock_key 1)) ∧
  (BookMyShowTimeoutImp no_faults 60 9 [1; 3] "book_9_60" contended_world).1
    ≠ Some (LockNotAcquired (seat_lock_key 1)).
Proof.
  destruct (lock_lasts_a_minute no_faults 0 8 1 [4] "book_8_0" sample_world no_faults 59 9 [3] "book_9_59")
    as [Hin _]; try (vm_compute; reflexivity).
  destruct (lock_lasts_a_minute no_faults 0 8 1 [4] "book_8_0" sample_world no_faults 60 9 [3] "book_9_60")
    as [_ Hout]; try (vm_compute; reflexivity).
  split.
  - unfold contended_world. rewrite Hin; [done|]. unfold minute. lia.
  - unfold contended_world. apply Hout. unfold minute. lia.
Defined.

(** ** Racing deliveries *)

Section webhook_race.

(** With the services answering, a captured seat whose version has
    moved makes the loop stop with a conflict. *)
Lemma webhook_updates_conflict cv st (L : list (Z * Z)) (d : DB) k v :
  NoDup L.*1 → (k, v) ∈ L →
  (∀ s, d !! k = Some s → version s ≠ v) →
  webhook_updates no_faults cv st L d = inl (HttpError StatusConflict "Concurrent modification detected").
Proof.
  revert d. induction L as [|[a va] L IH]; intros d Hnd Hin Hstale.
  - by apply elem_of_nil in Hin.
  - rewrite webhook_updates_cons. cbv zeta.
    replace (no_faults (ExecContext (Some a))) with false by done.
    replace (no_faults (RowsAffected a)) with false by done.
    rewrite fmap_cons in Hnd. cbn [fst] in Hnd. apply NoDup_cons in Hnd as [Ha Hnd].
    case_bool_decide as Hn; [done|].
    apply elem_of_cons in Hin as [Heq|Hin].
    + simplify_eq. exfalso. apply Hn, ExecUpdate_by_id_zero. intros s Hs.
      apply bool_decide_eq_false_2. by apply Hstale.
    + assert (k ≠ a) as Hne.
      { intros ->. apply Ha. apply list_elem_of_fmap. by exists (a, v). }
      apply IH; [done | done |]. intros s Hs. apply Hstale.
      by rewrite webhook_write_other in Hs.
Qed.

End webhook_race.

(** X17.  Of two racing deliveries one loses.  With the services
    answering, when the webhook has captured the PENDING seats of the
    session (each with its occupant) and, by the time it writes, one of
    them is gone or has another version (a concurrent delivery got
    there first), it answers 409 "Concurrent modification detected",
    writes no row and leaves Redis as it was. *)
Theorem racing_delivery_conflicts env now sid st w k s :
  (∀ k s, db w !! k = Some s → holds sid s → payment_status s = "PENDING" → is_Some (user_id s)) →
  db w !! k = Some s → holds sid s → payment_status s = "PENDING" →
  capture_stale (db w) (env (db w)) k = true →
  handlePaymentWebhook no_faults env now sid st w =
  (HttpError StatusConflict "Concurrent modification detected", set_db (env (db w)) w).
Proof.
  intros Huser Hk Hsid Hst Hstale. unfold handlePaymentWebhook.
  replace (no_faults BeginTx) with false by done.
  replace (no_faults QueryContext) with false by done.
  destruct (scan_pending_no_faults (select_pending sid (db w))) as [scanned Hscan].
  { apply Forall_forall. intros [k' s'] Hks. apply select_pending_lookup in Hks as (? & ? & ?).
    by eapply Huser. }
  rewrite Hscan, (scan_pending_versions _ _ _ Hscan).
  rewrite bool_decide_eq_false_2.
  2:{ rewrite pending_versions_size. intros Hlen. apply nil_length_inv in Hlen.
      assert ((k, s) ∈ select_pending sid (db w)) as Hin by (by apply select_pending_lookup).
      rewrite Hlen in Hin. by apply elem_of_nil in Hin. }
  rewrite (webhook_updates_conflict (status_conv w) st _ (env (db w)) k (version s)); [done | | |].
  - apply NoDup_fst_map_to_list.
  - apply elem_of_map_to_list. rewrite pending_versions_lookup.
    by rewrite (map_lookup_filter_Some_2 _ _ k s).
  - intros s1 Hs1 Hv. unfold capture_stale in Hstale. rewrite Hk, Hs1 in Hstale.
    by rewrite bool_decide_eq_true_2 in Hstale.
Qed.

(** The confirmation for user 7's session is delivered twice at once:
    the second delivery finds the version moved by the first. *)
Lemma racing_delivery_conflicts_witness :
  handlePaymentWebhook no_faults first_delivery 10 "book_7_0" "COMPLETED" held_world =
  (HttpError StatusConflict "Concurrent modification detected",
   set_db (first_delivery (db held_world)) held_world).
Proof.
  apply (racing_delivery_conflicts first_delivery 10 "book_7_0" "COMPLETED" held_world 1
           (mark_pending 0 7 "book_7_0" (fresh_seat 1 "A1")));
    try (vm_compute; reflexivity).
  intros k s Hk Hsid Hst.
  assert ((k, s) ∈ select_pending "book_7_0" (db held_world)) as Hin
    by (by apply select_pending_lookup).
  vm_compute in Hin. apply list_elem_of_singleton in Hin. simplify_eq. by eexists.
Defined.

(** ** An invariant of the table *)

Section occupant_invariant.

Lemma occupant_kept_or_marked (d d' : DB) now u b :
  held_rows_have_occupant d →
  (∀ k, d' !! k = d !! k ∨ d' !! k = mark_pending now u b <$> d !! k ∨
        d' !! k = mark_pending_versioned now u b <$> d !! k) →
  held_rows_have_occupant d'.
Proof.
  intros Hinv Hrows k s' Hk' Hheld.
  destruct (Hrows k) as [Heq|[Heq|Heq]]; rewrite Heq in Hk'.
  - by eapply Hinv.
  - destruct (d !! k); simplify_eq/=. by eexists.
  - destruct (d !! k); simplify_eq/=. by eexists.
Qed.

Lemma BookSeats_rows ft env now req b w k :
  let d' := db (BookSeats ft env now req b w).2 in
  (d' !! k = db w !! k ∨ d' !! k = mark_pending now (UserID req) b <$> db w !! k) ∨
  (d' !! k = env (db w) !! k ∨
   d' !! k = mark_pending_versioned now (UserID req) b <$> env (db w) !! k).
Proof.
  cbv zeta.
  destruct (BookSeats ft env now req b w).1 as [e|] eqn:He.
  { destruct (BookSeats_failure _ _ _ _ _ _ _ He) as [-> | ->]; auto. }
  revert He. unfold BookSeats. repeat case_bool_decide; [| | |done]; intros Hok.
  - apply PessimisticLocking_success in Hok as (_ & _ & ->). left.
    rewrite db_set_db, mark_all_lookup. case_bool_decide; auto.
  - apply OptimisticLocking_success in Hok as (_ & d' & Hrun & ->). right.
    apply optimistic_updates_success in Hrun as (_ & Hin & Hout). rewrite db_set_db.
    destruct (decide (k ∈ SeatIDs req)) as [Hk|Hk].
    + destruct (Hin k Hk) as (s & -> & _ & _ & ->). by right.
    + left. by apply Hout.
  - destruct (SeatIDs req) as [|first rest] eqn:Hl; [done|].
    apply BookMyShowTimeoutImp_success in Hok as (_ & _ & _ & ->). left.
    rewrite mark_all_lookup. case_bool_decide; auto.
Qed.

Lemma handlePaymentWebhook_rows ft env now sid st w k :
  let d' := db (handlePaymentWebhook ft env now sid st w).2 in
  d' !! k = db w !! k ∨ d' !! k = env (db w) !! k ∨
  ∃ s1, env (db w) !! k = Some s1 ∧ d' !! k = Some (set_status (status_conv w) st s1).
Proof.
  cbv zeta.
  destruct (handlePaymentWebhook ft env now sid st w).1 as [c m| |bid bst] eqn:Hr.
  - destruct (handlePaymentWebhook_failure ft env now sid st w) as [-> | ->]; auto.
    by rewrite Hr.
  - destruct (handlePaymentWebhook_success _ _ _ _ _ _ Hr) as (Hin & Hout & _).
    destruct (db w !! k) as [s|] eqn:Hk.
    + destruct (decide (payment_session_id s = Some sid ∧ payment_status s = "PENDING"))
        as [[Hsid Hst]|Hno].
      * destruct (Hin k s Hk Hsid Hst) as (s1 & ? & _ & ?). right. right. by exists s1.
      * right. left. apply Hout. intros ? ?. by simplify_eq.
    + right. left. apply Hout. intros ? ?. by simplify_eq.
  - destruct (handlePaymentWebhook_failure ft env now sid st w) as [-> | ->]; auto.
    by rewrite Hr.
Qed.

Lemma checkPaymentTimeouts_tick_rows ft now w k :
  db (checkPaymentTimeouts_tick ft now w) !! k = db w !! k ∨
  db (checkPaymentTimeouts_tick ft now w) !! k = clear_reservation <$> db w !! k.
Proof.
  destruct (checkPaymentTimeouts_tick_db ft now w) as [->| ->]; [by left|].
  destruct (sweep_updates_rows ft (omap (scan_expired ft) (select_expired now (db w)))
              (db w) (rdb w) k) as [->|[_ ->]]; auto.
Qed.

Lemma checkPaymentTimeouts_tick_occupant ft now w :
  held_rows_have_occupant (db w) →
  held_rows_have_occupant (db (checkPaymentTimeouts_tick ft now w)).
Proof.
  intros Hinv k s' Hk' Hheld.
  destruct (checkPaymentTimeouts_tick_rows ft now w k) as [Heq|Heq]; rewrite Heq in Hk'.
  - by eapply Hinv.
  - destruct (db w !! k); simplify_eq/=. by destruct Hheld as [[? ?]|[? ?]].
Qed.

End occupant_invariant.

(** X18.  Rows that carry a booking id or a deadline always carry an
    occupant.  The rows [setup.sql] inserts satisfy this, and
    [BookSeats], the webhook and any run of the sweeper loop (each
    iteration with its own instant and its own failures) keep it,
    whatever the services answer (the concurrent writers keeping it
    too).  On a table that satisfies it, no row that the webhook or the
    sweeper selects has a NULL [user_id]: their [Scan] fails only when the
    service does. *)
Theorem occupant_invariant_kept ft env now req b sid st (ticks : list (Faults * Z)) w :
  ((∀ k s, db w !! k = Some s → ∃ show number, s = fresh_seat show number) →
     held_rows_have_occupant (db w)) ∧
  (held_rows_have_occupant (db w) → held_rows_have_occupant (env (db w)) →
     held_rows_have_occupant (db (BookSeats ft env now req b w).2) ∧
     held_rows_have_occupant (db (handlePaymentWebhook ft env now sid st w).2)) ∧
  (held_rows_have_occupant (db w) →
     held_rows_have_occupant (db (checkPaymentTimeouts ticks w)) ∧
     (∀ kv, kv ∈ select_pending sid (db w) → ft (Scan kv.1) = false →
            is_Some (scan_pending ft kv)) ∧
     (∀ kv, kv ∈ select_expired now (db w) → ft (Scan kv.1) = false →
            is_Some (scan_expired ft kv))).
Proof.
  split_and!.
  - intros Hfresh k s Hk Hheld. destruct (Hfresh k s Hk) as (show & number & ->).
    by destruct Hheld as [[? ?]|[? ?]].
  - intros Hinv Henv. split.
    + intros k s' Hk' Hheld.
      destruct (BookSeats_rows ft env now req b w k) as [[Heq|Heq]|[Heq|Heq]];
        cbv zeta in Heq; rewrite Heq in Hk'.
      * by eapply Hinv.
      * destruct (db w !! k); simplify_eq/=. by eexists.
      * by eapply Henv.
      * destruct (env (db w) !! k); simplify_eq/=. by eexists.
    + intros k s' Hk' Hheld.
      destruct (handlePaymentWebhook_rows ft env now sid st w k) as [Heq|[Heq|(s1 & Hs1 & Heq)]];
        cbv zeta in Heq; rewrite Heq in Hk'.
      * by eapply Hinv.
      * by eapply Henv.
      * simplify_eq. simpl in *. by eapply Henv.
  - intros Hinv. split_and!.
    + unfold checkPaymentTimeouts. revert w Hinv.
      induction ticks as [|[ft' t] ticks IH]; intros w Hinv; [done|]. simpl.
      apply IH. by apply checkPaymentTimeouts_tick_occupant.
    + intros [k s] Hin Hscan. apply select_pending_lookup in Hin as (Hk & Hsid & _).
      unfold scan_pending. simpl in *. rewrite Hscan.
      destruct (Hinv k s Hk) as [u ->]; [left; by rewrite Hsid|]. by eexists.
    + intros [k s] Hin Hscan. unfold select_expired in Hin.
      apply elem_of_map_to_list, map_lookup_filter_Some in Hin as (Hk & _ & Hto).
      simpl in *. unfold scan_expired. simpl. rewrite Hscan.
      destruct (Hinv k s Hk) as [u ->]; [|by eexists].
      right. unfold timed_out in Hto. by destruct (payment_timeout s).
Qed.

(** The table of [setup.sql], a booking of seats 1 and 2 on it, and the
    sweeper over three ticks of which the first cannot commit. *)
Lemma occupant_invariant_kept_witness :
  held_rows_have_occupant (db sample_world) ∧
  held_rows_have_occupant
    (db (BookSeats no_faults id 0
           {| UserID := 7; ShowID := 1; SeatIDs := [1; 2]; Method := "current" |}
           "book_7_0" sample_world).2) ∧
  held_rows_have_occupant
    (db (checkPaymentTimeouts [(commit_fails, 61); (no_faults, 121); (no_faults, 181)] sample_world)).
Proof.
  destruct (occupant_invariant_kept no_faults id 0
              {| UserID := 7; ShowID := 1; SeatIDs := [1; 2]; Method := "current" |}
              "book_7_0" "book_7_0" "COMPLETED"
              [(commit_fails, 61); (no_faults, 121); (no_faults, 181)] sample_world)
    as (Hfresh & Hkept & Hsweep).
  assert (held_rows_have_occupant (db sample_world)) as Hinv.
  { apply Hfresh. intros k s Hk.
    assert ((k, s) ∈ map_to_list (db sample_world)) as Hin by (by apply elem_of_map_to_list).
    apply list_elem_of_In in Hin. vm_compute in Hin.
    destruct Hin as [Hin|[Hin|[Hin|[]]]]; simplify_eq;
      unfold fresh_seat; do 2 eexists; reflexivity. }
  split_and!; [done | by apply Hkept | by apply Hsweep].
Defined.
